(** * Resampling core of the temperature-series tool ([utils.py])

    A shallow embedding of [identifyTimeIntervals] and [interpolate] and the
    properties of segmentation, grid construction, gap filling and provenance
    tagging that are stated about them.

    Modelling conventions.
    - A [datetime] is the number of microseconds since [datetime.min]
      (0001-01-01T00:00:00) in the common time zone of the series; a
      [timedelta] is a number of microseconds.  Both Python types are bounded
      and their arithmetic raises [OverflowError] outside the bounds; the bounds
      are written out below.
    - A Python call either returns, raises, or does not terminate: [res].
      The only loop that can run forever is the [while] loop that builds the
      grid; it is given fuel, and [Diverge] is produced by fuel exhaustion only.
    - [x_vals] is a list of datetimes or a list of numbers, [delta] a
      timedelta or a number, [max_interval] an integer number of minutes or
      [None], as the command line supplies them.
    - numpy and scipy are not part of the repository.  Their float type, the
      three fitting constructors, the call of a fitted object and the numeric
      helpers are the fields of the class [NumLib]; every general statement
      about [interpolate] is made for an arbitrary instance.  [SpecLib] is one
      instance, with exact rationals, for the concrete series.
    - The two functions are written twice: as functions of the values of
      their arguments, and as computations on a store of list objects that
      receive references.  The second writing shows what a call does to the
      caller's lists, and has the outcomes of the first.
    - The table functions ([readData], [splitProperties], [padData],
      [flattenDict], [writeCSV]) and the loop over the groups of [main.py]
      work on dicts of columns.  A dict is an association list in insertion
      order with distinct keys; a [defaultdict(list)] differs from a plain
      dict in what a missing key does, which a flag selects.  The entries of
      a column are compared by [==]; the model has one value for each class
      of equal entries.  A [str] is a list of characters, a text file the
      list of its lines. *)

From Stdlib Require Import ZArith QArith Lia.
From stdpp Require Import base option list sorting strings gmap.

Local Open Scope Z_scope.

(** ** Exceptions and outcomes *)

Inductive exn : Type :=
  | IndexError
  | ValueError
  | AssertionError
  | OverflowError
  | TypeError
  | OtherException (cls : string).

Global Instance exn_eq_dec : EqDecision exn.
Proof. solve_decision. Defined.

Inductive res (A : Type) : Type :=
  | Ok (a : A)
  | Raise (e : exn)
  | Diverge.

Arguments Ok {A} a.
Arguments Raise {A} e.
Arguments Diverge {A}.

Global Instance res_ret : MRet res := λ A a, Ok a.
Global Instance res_bind : MBind res := λ A B f m,
  match m with
  | Ok a => f a
  | Raise e => Raise e
  | Diverge => Diverge
  end.

(** [try: body except ValueError: pass], for a body whose effect is the new
    value of the loop state: on [ValueError] the old state is kept. *)
Definition except_ValueError {A} (old : A) (body : res A) : res A :=
  match body with
  | Raise ValueError => Ok old
  | r => r
  end.

(** [l[0]] and [l[-1]] on a Python list. *)
Definition getitem_first {A} (l : list A) : res A :=
  match head l with
  | Some x => Ok x
  | None => Raise IndexError
  end.

Definition getitem_last {A} (l : list A) : res A :=
  match last l with
  | Some x => Ok x
  | None => Raise IndexError
  end.

Definition ok {A} (r : res A) : bool :=
  match r with
  | Ok _ => true
  | _ => false
  end.

(** ** datetime and timedelta *)

Module Datetime.

(** [datetime.max], 9999-12-31T23:59:59.999999, in microseconds since
    [datetime.min]: day ordinals run from 1 to 3652059. *)
Definition max_us : Z := 3652059 * 86400 * 1000000 - 1.

(** [timedelta.min] and [timedelta.max]: at most 999999999 days either way. *)
Definition delta_min_us : Z := - 999999999 * 86400 * 1000000.
Definition delta_max_us : Z := 999999999 * 86400 * 1000000 + 86400 * 1000000 - 1.

Definition valid (x : Z) : Prop := 0 ≤ x ≤ max_us.
Definition valid_delta (d : Z) : Prop := delta_min_us ≤ d ≤ delta_max_us.

(** [x + d] for a datetime [x] and a timedelta [d]. *)
Definition add (x d : Z) : res Z :=
  if bool_decide (0 ≤ x + d ≤ max_us) then Ok (x + d) else Raise OverflowError.

(** [timedelta(minutes=m)] for an integer [m]. *)
Definition of_minutes (m : Z) : res Z :=
  let us := m * 60000000 in
  if bool_decide (delta_min_us ≤ us ≤ delta_max_us) then Ok us
  else Raise OverflowError.

End Datetime.

(** ** identifyTimeIntervals *)

(** An interval is the two-element list [[start, end]] of the source; its
    [t[0]] and [t[-1]] are the components of the pair. *)
Definition interval : Type := (Z * Z)%type.

(** One pass of the body of [for i in range(1, len(times))] on the loop
    variables [(start, intervals)].  [times[i]] and [times[i-1]] are in range
    for every [i] the loop supplies. *)
Definition segment_step (times : list Z) (mi : Z)
    (st : option Z * list interval) (i : nat) : option Z * list interval :=
  let '(start, intervals) := st in
  if bool_decide (nth i times 0 - nth (i - 1) times 0 ≤ mi) then
    match start with
    | None => (Some (nth (i - 1) times 0), intervals)
    | Some _ => (start, intervals)
    end
  else
    match start with
    | Some s => (None, intervals ++ [(s, nth (i - 1) times 0)])
    | None => (start, intervals)
    end.

Definition segment_loop (times : list Z) (mi : Z) : option Z * list interval :=
  foldl (segment_step times mi) (None, []) (seq 1 (length times - 1)).

Definition identifyTimeIntervals (times : list Z) (max_interval : option Z)
    : res (list interval) :=
  match max_interval with
  | None =>
      t0 ← getitem_first times;
      tl ← getitem_last times;
      Ok [(t0, tl)]
  | Some m =>
      mi ← Datetime.of_minutes m;
      let '(start, intervals) := segment_loop times mi in
      t0 ← getitem_first times;
      if bool_decide (start = Some t0) then
        tl ← getitem_last times;
        Ok [(t0, tl)]
      else Ok intervals
  end.

(** [t] ends before [t'] starts. *)
Definition before (t t' : interval) : Prop := t.2 < t'.1.

(** The loop state after the pass for index [k]: the closed intervals are
    well formed and ordered, and they end before the open run starts, or
    before [times[k]] when no run is open. *)
Definition segment_inv (times : list Z) (mi : Z) (k : nat)
    (st : option Z * list interval) : Prop :=
  StronglySorted before st.2 ∧
  Forall (λ t : interval, t.1 ≤ t.2) st.2 ∧
  match st.1 with
  | Some s => 0 ≤ mi ∧ s ≤ nth k times 0 ∧ Forall (λ t : interval, t.2 < s) st.2
  | None => Forall (λ t : interval, t.2 < nth k times 0) st.2
  end.

(** Minutes after a base instant, for concrete series. *)
Definition minute (base k : Z) : Z := base + k * 60000000.

(** 2019-04-13T00:00:00 as a microsecond count: day ordinal 737162. *)
Definition sample_day : Z := 737161 * 86400 * 1000000.

(** ** The numeric libraries *)

(** The [delta] argument: a [timedelta] on a datetime axis (the default is
    one minute), a plain number on a numeric axis. *)
Inductive step (F : Type) : Type :=
  | Timedelta (us : Z)
  | Number (r : F).

Arguments Timedelta {F} us.
Arguments Number {F} r.

Class NumLib : Type := {
  (** numpy's float64 *)
  float : Type;
  float_eq_dec :: EqDecision float;
  (** the entries of [np.zeros(n)] *)
  np_zero : float;
  (** [datetime.timestamp()] *)
  timestamp : Z → float;
  (** a fitted scipy object *)
  curve : Type;
  (** [BSpline(x, y, k=order)], [interp1d(x, y, kind=order)] and
      [UnivariateSpline(x, y, k=order)] *)
  BSpline : list float → list float → Z → res curve;
  interp1d : list float → list float → Z → res curve;
  UnivariateSpline : list float → list float → Z → res curve;
  (** [func(x)] at one abscissa; on an array the call is pointwise and
      returns an array of the same shape *)
  curve_call : curve → float → res float;
  (** [np.arange(start, stop, delta)] *)
  np_arange : float → float → step float → res (list float);
  (** [a + l] for an ndarray [a] and a list [l]: elementwise, with
      broadcasting *)
  np_add : list float → list float → res (list float);
  (** [sorted(list(set(l)))] on numbers *)
  sorted_set : list float → list float;
}.

(** ** Arrays and masks *)

(** [arr[mask]] for a boolean ndarray [mask]: numpy raises [IndexError] when
    the shapes differ. *)
Fixpoint select {A} (mask : list bool) (arr : list A) : list A :=
  match mask, arr with
  | b :: mask', a :: arr' => if b then a :: select mask' arr' else select mask' arr'
  | _, _ => []
  end.

Definition mask_select {A} (mask : list bool) (arr : list A) : res (list A) :=
  if decide (length mask = length arr) then Ok (select mask arr)
  else Raise IndexError.

(** [arr[mask] = vals]: the selected entries are overwritten in order.  In
    [interpolate] the right-hand side always has one entry per selected index,
    so the shape check of numpy cannot fail there. *)
Fixpoint mask_assign {A} (mask : list bool) (vals arr : list A) : list A :=
  match mask, arr with
  | true :: mask', a :: arr' =>
      match vals with
      | v :: vals' => v :: mask_assign mask' vals' arr'
      | [] => a :: mask_assign mask' [] arr'
      end
  | false :: mask', a :: arr' => a :: mask_assign mask' vals arr'
  | _, _ => arr
  end.

(** [t[0] <= x and x <= t[-1]] *)
Definition in_interval (t : interval) (x : Z) : bool :=
  bool_decide (t.1 ≤ x) && bool_decide (x ≤ t.2).

(** [sorted(list(set(l)))] on datetimes. *)
Definition sorted_datetimes (l : list Z) : list Z :=
  merge_sort Z.le (remove_dups l).

(** [[i for i, x in enumerate(x_interp) if x not in x_set]] with
    [x_set = set(x_vals)]. *)
Definition interpolated_indices {A} `{EqDecision A} (x_interp x_vals : list A)
    : list nat :=
  (filter (λ ix, ix.2 ∉ x_vals) (zip (seq 0 (length x_interp)) x_interp)).*1.

(** ** The grid of a datetime axis *)

(** [while x_interp[-1] + delta <= x_vals[-1]: x_interp.append(x_interp[-1] + delta)] *)
Fixpoint grid_loop (fuel : nat) (x_interp x_vals : list Z) (delta : Z)
    : res (list Z) :=
  match fuel with
  | O => Diverge
  | S fuel' =>
      cur ← getitem_last x_interp;
      nxt ← Datetime.add cur delta;
      xl ← getitem_last x_vals;
      if bool_decide (nxt ≤ xl) then grid_loop fuel' (x_interp ++ [nxt]) x_vals delta
      else Ok x_interp
  end.

Definition build_grid {F} (fuel : nat) (x_vals : list Z) (delta : step F)
    (keep_old : bool) : res (list Z) :=
  x0 ← getitem_first x_vals;
  x_interp ← match delta with
             | Timedelta d => grid_loop fuel [x0] x_vals d
             | Number _ => Raise TypeError
             end;
  Ok (if keep_old then sorted_datetimes (x_interp ++ x_vals) else x_interp).

(** Enough fuel for the loop when the step is positive: one round for every
    step that still fits between the current grid point and the last sample. *)
Definition grid_fuel (cur xl d : Z) : nat := S (Z.to_nat ((xl - cur) / d)).

(** ** interpolate *)

Section interpolate.
Context {L : NumLib}.

(** [x_vals] is a list of datetimes or a list of numbers. *)
Inductive axis : Type :=
  | Datetimes (l : list Z)
  | Numbers (l : list float).

(** The [if]/[elif] chain on [interpolation_mode]; the last case leaves
    [func] unbound, which the leading [assert] excludes. *)
Definition fit (interpolation_mode : string) (xs ys : list float) (order : Z)
    : res curve :=
  if decide (interpolation_mode = "bspline") then BSpline xs ys order
  else if decide (interpolation_mode = "interp1d") then interp1d xs ys order
  else if decide (interpolation_mode = "univ") then UnivariateSpline xs ys order
  else Raise (OtherException "UnboundLocalError").

(** The variables the loop over the intervals updates. *)
Record fit_state : Type := FitState {
  y_interp : list float;
  valid_inds : list bool;
  valid_inds_interp : list bool;
}.

(** The arrays of the state have the length of the grid. *)
Definition sized (x_interp : list Z) (st : fit_state) : Prop :=
  length (y_interp st) = length x_interp ∧
  length (valid_inds_interp st) = length x_interp.

(** The right-hand sides of the [try] block for one interval [t]: the
    fit on the samples inside [t], and its values at the grid points
    inside [t]. *)
Definition interval_fit (x_vals : list Z) (y_vals : list float)
    (order : Z) (interpolation_mode : string) (t : interval) : res curve :=
  let x_unix := timestamp <$> x_vals in
  let inds := in_interval t <$> x_vals in
  xs ← mask_select inds x_unix;
  ys ← mask_select inds y_vals;
  fit interpolation_mode xs ys order.

Definition interval_values (x_vals : list Z) (y_vals : list float)
    (x_interp : list Z) (order : Z) (interpolation_mode : string)
    (t : interval) : res (list float) :=
  let x_interp_unix := timestamp <$> x_interp in
  func ← interval_fit x_vals y_vals order interpolation_mode t;
  let inds_interp := in_interval t <$> x_interp in
  sel ← mask_select inds_interp x_interp_unix;
  mapM (curve_call func) sel.

(** The [try] block: the three updates are its last statements, so an
    exception leaves the state as it was. *)
Definition try_interval (x_vals : list Z) (y_vals : list float)
    (x_interp : list Z) (order : Z) (interpolation_mode : string)
    (st : fit_state) (t : interval) : res fit_state :=
  let inds := in_interval t <$> x_vals in
  let inds_interp := in_interval t <$> x_interp in
  vals ← interval_values x_vals y_vals x_interp order interpolation_mode t;
  Ok {| y_interp := mask_assign inds_interp vals (y_interp st);
        valid_inds := zip_with orb (valid_inds st) inds;
        valid_inds_interp := zip_with orb (valid_inds_interp st) inds_interp |}.

Definition fit_interval (x_vals : list Z) (y_vals : list float)
    (x_interp : list Z) (order : Z) (interpolation_mode : string)
    (st : fit_state) (t : interval) : res fit_state :=
  except_ValueError st
    (try_interval x_vals y_vals x_interp order interpolation_mode st t).

(** [for t in time_intervals: ...] *)
Fixpoint fit_intervals (x_vals : list Z) (y_vals : list float)
    (x_interp : list Z) (order : Z) (interpolation_mode : string)
    (st : fit_state) (time_intervals : list interval) : res fit_state :=
  match time_intervals with
  | [] => Ok st
  | t :: rest =>
      st' ← fit_interval x_vals y_vals x_interp order interpolation_mode st t;
      fit_intervals x_vals y_vals x_interp order interpolation_mode st' rest
  end.

(** An interval is fitted when its [try] block runs to the end. *)
Definition fitted (x_vals : list Z) (y_vals : list float) (x_interp : list Z)
    (order : Z) (interpolation_mode : string) (t : interval) : bool :=
  ok (interval_values x_vals y_vals x_interp order interpolation_mode t).

(** The grid point [x] lies in a fitted interval of the list. *)
Definition covered (x_vals : list Z) (y_vals : list float) (x_interp : list Z)
    (order : Z) (interpolation_mode : string) (time_intervals : list interval)
    (x : Z) : bool :=
  existsb (λ t, in_interval t x &&
                fitted x_vals y_vals x_interp order interpolation_mode t)
          time_intervals.

(** [v] is the value at [x] of the fit of an interval that contains [x]. *)
Definition fitted_value (x_vals : list Z) (y_vals : list float)
    (order : Z) (interpolation_mode : string) (time_intervals : list interval)
    (x : Z) (v : float) : Prop :=
  ∃ t func, t ∈ time_intervals ∧ in_interval t x = true ∧
            interval_fit x_vals y_vals order interpolation_mode t = Ok func ∧
            curve_call func (timestamp x) = Ok v.

(** What the datetime branch has computed when it ends: the grid, the
    segmentation, the coverage mask left by the loop, the global linear fit
    and the values. *)
Record resampled : Type := Resampled {
  r_x_interp : list Z;
  r_time_intervals : list interval;
  r_covered : list bool;
  r_linear : curve;
  r_y_interp : list float;
}.

Definition interpolate_datetime (fuel : nat) (x_vals : list Z)
    (y_vals : list float) (order : Z) (delta : step float) (keep_old : bool)
    (interpolation_mode : string) (max_interval : option Z) : res resampled :=
  x_interp ← build_grid fuel x_vals delta keep_old;
  let y0 := replicate (length x_interp) np_zero in
  let x_unix := timestamp <$> x_vals in
  let x_interp_unix := timestamp <$> x_interp in
  time_intervals ← identifyTimeIntervals x_vals max_interval;
  let st0 := {| y_interp := y0;
                valid_inds := replicate (length x_vals) false;
                valid_inds_interp := replicate (length x_interp) false |} in
  st ← fit_intervals x_vals y_vals x_interp order interpolation_mode st0
         time_intervals;
  func ← interp1d x_unix y_vals 1;
  let rest := negb <$> valid_inds_interp st in
  sel ← mask_select rest x_interp_unix;
  vals ← mapM (curve_call func) sel;
  Ok {| r_x_interp := x_interp;
        r_time_intervals := time_intervals;
        r_covered := valid_inds_interp st;
        r_linear := func;
        r_y_interp := mask_assign rest vals (y_interp st) |}.

(** The [else] branch, for a numeric axis. *)
Definition interpolate_numeric (x_vals y_vals : list float) (order : Z)
    (delta : step float) (keep_old : bool) (interpolation_mode : string)
    (max_interval : option Z) : res (list float * list float) :=
  match max_interval with
  | Some _ => Raise AssertionError
  | None =>
      x0 ← getitem_first x_vals;
      xl ← getitem_last x_vals;
      grid ← np_arange x0 xl delta;
      x_interp ← (if keep_old then s ← np_add grid x_vals; Ok (sorted_set s)
                  else Ok grid);
      func ← fit interpolation_mode x_vals y_vals order;
      y ← mapM (curve_call func) x_interp;
      Ok (x_interp, y)
  end.

Definition interpolate (fuel : nat) (x_vals : axis) (y_vals : list float)
    (order : Z) (delta : step float) (keep_old : bool)
    (interpolation_mode : string) (max_interval : option Z)
    : res (axis * list float * list nat) :=
  if decide (interpolation_mode ∈ ["bspline"; "interp1d"; "univ"]) then
    match x_vals with
    | Datetimes xs =>
        r ← interpolate_datetime fuel xs y_vals order delta keep_old
              interpolation_mode max_interval;
        Ok (Datetimes (r_x_interp r), r_y_interp r,
            interpolated_indices (r_x_interp r) xs)
    | Numbers xs =>
        _ ← getitem_first xs;
        '(x_interp, y) ← interpolate_numeric xs y_vals order delta keep_old
                           interpolation_mode max_interval;
        Ok (Numbers x_interp, y, interpolated_indices x_interp xs)
    end
  else Raise AssertionError.

(** [len] of the returned abscissae. *)
Definition axis_length (x : axis) : nat :=
  match x with
  | Datetimes l => length l
  | Numbers l => length l
  end.

End interpolate.

(** ** The same two functions over an object store

    The lists a caller passes are mutable objects that the callee holds by
    reference.  To state what happens to them, the functions are written a
    second time over a store of list objects: the arguments are references,
    each list the code creates and later changes in place ([x_interp] and
    [intervals] by [append], [y_interp] by item assignment) is an object of the
    store, and every other value is carried as in the first model.  The
    two-element lists inside [intervals] and the numpy arrays that are only
    read after their creation are kept as values. *)

Section store.
Context {L : NumLib}.

Inductive pyobj : Type :=
  | ObjDatetimes (l : list Z)
  | ObjFloats (l : list float)
  | ObjIntervals (l : list interval).

(** A list of the first model as an object of the store. *)
Definition axis_object (x_vals : axis) : pyobj :=
  match x_vals with
  | Datetimes l => ObjDatetimes l
  | Numbers l => ObjFloats l
  end.

(** Computations on the store: the outcome and the store that is left. *)
Definition M (A : Type) : Type := gmap positive pyobj → res A * gmap positive pyobj.

Definition ret_h {A} (a : A) : M A := λ h, (Ok a, h).

Definition bind_h {A B} (m : M A) (f : A → M B) : M B := λ h,
  match m h with
  | (Ok a, h') => f a h'
  | (Raise e, h') => (Raise e, h')
  | (Diverge, h') => (Diverge, h')
  end.

(** A computation that does not touch the store. *)
Definition lift {A} (r : res A) : M A := λ h, (r, h).

(** A new object. *)
Definition alloc (o : pyobj) : M positive := λ h,
  let l := fresh (dom h) in (Ok l, <[l := o]> h).

Definition load (l : positive) : M pyobj := λ h,
  match h !! l with
  | Some o => (Ok o, h)
  | None => (Raise (OtherException "ReferenceError"), h)
  end.

(** A change of the object at [l] in place. *)
Definition store (l : positive) (o : pyobj) : M unit := λ h,
  (Ok (), <[l := o]> h).

Definition load_datetimes (l : positive) : M (list Z) :=
  bind_h (load l) (λ o,
    match o with
    | ObjDatetimes xs => ret_h xs
    | _ => lift (Raise TypeError)
    end).

Definition load_floats (l : positive) : M (list float) :=
  bind_h (load l) (λ o,
    match o with
    | ObjFloats ys => ret_h ys
    | _ => lift (Raise TypeError)
    end).

Definition load_intervals (l : positive) : M (list interval) :=
  bind_h (load l) (λ o,
    match o with
    | ObjIntervals ts => ret_h ts
    | _ => lift (Raise TypeError)
    end).

(** [l[i]] for a list of datetimes. *)
Definition getitem_h (l : positive) (i : nat) : M Z :=
  bind_h (load_datetimes l) (λ xs,
    match xs !! i with
    | Some x => ret_h x
    | None => lift (Raise IndexError)
    end).

(** The loop of [identifyTimeIntervals]; [intervals.append] changes the
    object [intervals]. *)
Fixpoint segment_loop_h (times : positive) (mi : Z) (intervals : positive)
    (start : option Z) (indices : list nat) : M (option Z) :=
  match indices with
  | [] => ret_h start
  | i :: rest =>
      bind_h (getitem_h times i) (λ ti,
      bind_h (getitem_h times (i - 1)) (λ tp,
        if bool_decide (ti - tp ≤ mi) then
          match start with
          | None => segment_loop_h times mi intervals (Some tp) rest
          | Some _ => segment_loop_h times mi intervals start rest
          end
        else
          match start with
          | Some s =>
              bind_h (load_intervals intervals) (λ ts,
              bind_h (store intervals (ObjIntervals (ts ++ [(s, tp)]))) (λ _,
                segment_loop_h times mi intervals None rest))
          | None => segment_loop_h times mi intervals start rest
          end))
  end.

(** Returns the reference of the list of intervals. *)
Definition identifyTimeIntervals_h (times : positive) (max_interval : option Z)
    : M positive :=
  match max_interval with
  | None =>
      bind_h (load_datetimes times) (λ xs,
      bind_h (lift (getitem_first xs)) (λ t0,
      bind_h (load_datetimes times) (λ xs',
      bind_h (lift (getitem_last xs')) (λ tl,
        alloc (ObjIntervals [(t0, tl)])))))
  | Some m =>
      bind_h (lift (Datetime.of_minutes m)) (λ mi,
      bind_h (alloc (ObjIntervals [])) (λ intervals,
      bind_h (load_datetimes times) (λ xs,
      bind_h (segment_loop_h times mi intervals None (seq 1 (length xs - 1)))
        (λ start,
      bind_h (load_datetimes times) (λ xs0,
      bind_h (lift (getitem_first xs0)) (λ t0,
        if bool_decide (start = Some t0) then
          bind_h (load_datetimes times) (λ xs',
          bind_h (lift (getitem_last xs')) (λ tl,
            alloc (ObjIntervals [(t0, tl)])))
        else ret_h intervals))))))
  end.

(** The [while] loop of the grid; [x_interp.append] changes the object
    [x_interp]. *)
Fixpoint grid_loop_h (fuel : nat) (x_interp x_vals : positive) (delta : Z)
    : M unit :=
  match fuel with
  | O => lift Diverge
  | S fuel' =>
      bind_h (load_datetimes x_interp) (λ g,
      bind_h (lift (getitem_last g)) (λ cur,
      bind_h (lift (Datetime.add cur delta)) (λ nxt,
      bind_h (load_datetimes x_vals) (λ xs,
      bind_h (lift (getitem_last xs)) (λ xl,
        if bool_decide (nxt ≤ xl) then
          bind_h (store x_interp (ObjDatetimes (g ++ [nxt]))) (λ _,
            grid_loop_h fuel' x_interp x_vals delta)
        else ret_h ())))))
  end.

(** Lines 192 to 198: the reference of the grid. *)
Definition build_grid_h (fuel : nat) (x_vals : positive) (delta : step float)
    (keep_old : bool) : M positive :=
  bind_h (load_datetimes x_vals) (λ xs,
  bind_h (lift (getitem_first xs)) (λ x0,
  bind_h (alloc (ObjDatetimes [x0])) (λ x_interp,
  bind_h (match delta with
          | Timedelta d => grid_loop_h fuel x_interp x_vals d
          | Number _ => lift (Raise TypeError)
          end) (λ _,
    if keep_old then
      bind_h (load_datetimes x_interp) (λ g,
      bind_h (load_datetimes x_vals) (λ xs',
        alloc (ObjDatetimes (sorted_datetimes (g ++ xs')))))
    else ret_h x_interp)))).

(** The loop over the intervals.  [y_vals] is the array made by
    [np.array(y_vals)]; the two masks are rebound to new arrays in every
    pass; the item assignment changes the object [y_interp]. *)
Fixpoint fit_intervals_h (x_vals : positive) (y_vals : list float)
    (x_interp : positive) (order : Z) (interpolation_mode : string)
    (y_interp : positive) (masks : list bool * list bool)
    (time_intervals : list interval) : M (list bool * list bool) :=
  match time_intervals with
  | [] => ret_h masks
  | t :: rest =>
      bind_h (load_datetimes x_vals) (λ xs,
      bind_h (load_datetimes x_interp) (λ g,
        match interval_values xs y_vals g order interpolation_mode t with
        | Ok vals =>
            bind_h (load_floats y_interp) (λ y,
            bind_h (store y_interp
                      (ObjFloats (mask_assign (in_interval t <$> g) vals y)))
              (λ _,
              fit_intervals_h x_vals y_vals x_interp order interpolation_mode
                y_interp
                (zip_with orb masks.1 (in_interval t <$> xs),
                 zip_with orb masks.2 (in_interval t <$> g))
                rest))
        | Raise ValueError =>
            fit_intervals_h x_vals y_vals x_interp order interpolation_mode
              y_interp masks rest
        | Raise e => lift (Raise e)
        | Diverge => lift Diverge
        end))
  end.

Definition interpolate_datetime_h (fuel : nat) (x_vals y_vals : positive)
    (order : Z) (delta : step float) (keep_old : bool)
    (interpolation_mode : string) (max_interval : option Z)
    : M (axis * list float * list nat) :=
  bind_h (build_grid_h fuel x_vals delta keep_old) (λ x_interp,
  bind_h (load_datetimes x_interp) (λ g,
  bind_h (alloc (ObjFloats (replicate (length g) np_zero))) (λ y_interp,
  bind_h (load_datetimes x_vals) (λ xs,
  bind_h (load_floats y_vals) (λ ys,
  bind_h (identifyTimeIntervals_h x_vals max_interval) (λ time_intervals,
  bind_h (load_intervals time_intervals) (λ ts,
  bind_h (fit_intervals_h x_vals ys x_interp order interpolation_mode y_interp
            (replicate (length xs) false, replicate (length g) false) ts)
    (λ masks,
  bind_h (lift (interp1d (timestamp <$> xs) ys 1)) (λ func,
  bind_h (lift (mask_select (negb <$> masks.2) (timestamp <$> g))) (λ sel,
  bind_h (lift (mapM (curve_call func) sel)) (λ vals,
  bind_h (load_floats y_interp) (λ y,
  bind_h (store y_interp (ObjFloats (mask_assign (negb <$> masks.2) vals y)))
    (λ _,
  bind_h (load_floats y_interp) (λ gy,
  bind_h (load_datetimes x_vals) (λ xs',
    ret_h (Datetimes g, gy, interpolated_indices g xs')))))))))))))))).

(** [isinstance(x_vals[0], datetime)] *)
Definition first_is_datetime (o : pyobj) : res bool :=
  match o with
  | ObjDatetimes (_ :: _) => Ok true
  | ObjFloats (_ :: _) => Ok false
  | ObjIntervals (_ :: _) => Ok false
  | _ => Raise IndexError
  end.

Definition interpolate_h (fuel : nat) (x_vals y_vals : positive) (order : Z)
    (delta : step float) (keep_old : bool) (interpolation_mode : string)
    (max_interval : option Z) : M (axis * list float * list nat) :=
  if decide (interpolation_mode ∈ ["bspline"; "interp1d"; "univ"]) then
    bind_h (load x_vals) (λ o,
    bind_h (lift (first_is_datetime o)) (λ is_datetime,
      if is_datetime : bool then
        interpolate_datetime_h fuel x_vals y_vals order delta keep_old
          interpolation_mode max_interval
      else
        bind_h (load_floats x_vals) (λ xs,
        bind_h (load_floats y_vals) (λ ys,
        bind_h (lift (interpolate_numeric xs ys order delta keep_old
                        interpolation_mode max_interval)) (λ '(x_interp, y),
          ret_h (Numbers x_interp, y, interpolated_indices x_interp xs))))))
  else lift (Raise AssertionError).

(** A computation keeps the objects of [h0] when, started in a store that
    extends [h0], it ends in a store that extends [h0]; [Q] is what is
    known of its result. *)
Definition keeps {A} (h0 : gmap positive pyobj) (m : M A) (Q : A → Prop) : Prop :=
  ∀ h, h0 ⊆ h → h0 ⊆ (m h).2 ∧ ∀ a, (m h).1 = Ok a → Q a.

(** The store computation [p] follows the outcome [r] of the first model:
    the same exception, the same divergence, and a result related by [post]. *)
Definition simulates {A B} (r : res A) (p : res B * gmap positive pyobj)
    (post : A → B → gmap positive pyobj → Prop) : Prop :=
  match r with
  | Ok a => ∃ b h', p = (Ok b, h') ∧ post a b h'
  | Raise e => p.1 = Raise e
  | Diverge => p.1 = Diverge
  end.

End store.

(** ** A reference instance of the numeric libraries *)

Module SpecLib.

(** Exact rationals in lowest terms stand for floats, so that equality of
    values is equality of terms. *)
Global Instance Q_eq_dec : EqDecision Q.
Proof. solve_decision. Defined.

Definition qadd (a b : Q) : Q := Qred (a + b).
Definition qsub (a b : Q) : Q := Qred (a - b).
Definition qmul (a b : Q) : Q := Qred (a * b).
Definition qdiv (a b : Q) : Q := Qred (a / b).
Definition qle (a b : Q) : bool := Qle_bool a b.
Definition qsum (l : list Q) : Q := foldr qadd 0%Q l.

(** 1970-01-01T00:00:00 (day ordinal 719163) as a microsecond count. *)
Definition epoch_us : Z := 719162 * 86400 * 1000000.

(** Seconds since the epoch. *)
Definition seconds (x : Z) : Q := Qred (Qmake (x - epoch_us) 1000000).

Inductive fitted_curve : Type :=
  | Hold (pts : list (Q * Q))
  | PiecewiseLinear (pts : list (Q * Q))
  | Line (slope intercept : Q).

(** The value of the most recent sample at or before [x]. *)
Fixpoint hold_at (pts : list (Q * Q)) (x : Q) : option Q :=
  match pts with
  | [] => None
  | (x0, y0) :: rest =>
      if qle x0 x then
        match hold_at rest x with
        | Some y => Some y
        | None => Some y0
        end
      else None
  end.

(** The value at [x] of the polygon through the samples. *)
Fixpoint linear_at (pts : list (Q * Q)) (x : Q) : option Q :=
  match pts with
  | (x0, y0) :: (((x1, y1) :: _) as rest) =>
      if qle x0 x && qle x x1 then
        Some (qadd y0 (qdiv (qmul (qsub y1 y0) (qsub x x0)) (qsub x1 x0)))
      else linear_at rest x
  | _ => None
  end.

Definition in_range (pts : list (Q * Q)) (x : Q) : bool :=
  match head pts, last pts with
  | Some (a, _), Some (b, _) => qle a x && qle x b
  | _, _ => false
  end.

Definition call (c : fitted_curve) (x : Q) : res Q :=
  match c with
  | Hold pts =>
      if in_range pts x then
        match hold_at pts x with Some y => Ok y | None => Raise ValueError end
      else Raise ValueError
  | PiecewiseLinear pts =>
      match linear_at pts x with Some y => Ok y | None => Raise ValueError end
  | Line a b => Ok (qadd (qmul a x) b)
  end.

(** Modelled from the spec: the fitting routines, which belong to scipy and
    not to the repository.  "PolynomialInterpolant(degree k) fits a curve that
    passes exactly through all subset points ... requires at least k+1
    points in the subset or the fit is declared infeasible"; degree 0 is
    ConstantHold, which "replicates the most recent sample's value", and
    degree 1 is "continuous piecewise-linear through all original samples".
    Infeasible fits raise [ValueError], as the comment in the [except]
    clause of [interpolate] says.  Degrees above 1 are modelled up to the
    feasibility check only. *)
Definition polynomial_interpolant (xs ys : list Q) (k : Z) : res fitted_curve :=
  if decide (length xs = length ys) then
    if decide (k < 0) then Raise (OtherException "NotImplementedError")
    else if decide (Z.of_nat (length xs) < k + 1) then Raise ValueError
    else if decide (k = 0) then Ok (Hold (zip xs ys))
    else if decide (k = 1) then Ok (PiecewiseLinear (zip xs ys))
    else Raise (OtherException "degree not modelled")
  else Raise ValueError.

(** The least-squares straight line through the samples. *)
Definition least_squares (xs ys : list Q) : fitted_curve :=
  let n := inject_Z (Z.of_nat (length xs)) in
  let sx := qsum xs in
  let sy := qsum ys in
  let sxx := qsum (zip_with qmul xs xs) in
  let sxy := qsum (zip_with qmul xs ys) in
  let slope := qdiv (qsub (qmul n sxy) (qmul sx sy))
                    (qsub (qmul n sxx) (qmul sx sx)) in
  Line slope (qdiv (qsub sy (qmul slope sx)) n).

(** Modelled from the spec: "SmoothingSpline(degree k) fits an approximating
    curve minimizing a smoothness/residual trade-off; same minimum-point
    requirement as PolynomialInterpolant".  For degree 1 the curve taken
    here is the smoothest one, the least-squares straight line; other
    degrees are modelled up to the feasibility check only. *)
Definition smoothing_spline (xs ys : list Q) (k : Z) : res fitted_curve :=
  if decide (length xs = length ys) then
    if decide (k < 0) then Raise (OtherException "NotImplementedError")
    else if decide (Z.of_nat (length xs) < k + 1) then Raise ValueError
    else if decide (k = 1) then Ok (least_squares xs ys)
    else Raise (OtherException "degree not modelled")
  else Raise ValueError.

(** The spec describes neither a fit whose knots are the sample times nor
    the helpers of the numeric axis; they are left out of the instance. *)
Global Instance lib : NumLib := {|
  float := Q;
  np_zero := 0%Q;
  timestamp := seconds;
  curve := fitted_curve;
  BSpline := λ _ _ _, Raise (OtherException "not modelled");
  interp1d := polynomial_interpolant;
  UnivariateSpline := smoothing_spline;
  curve_call := call;
  np_arange := λ _ _ _, Raise (OtherException "not modelled");
  np_add := λ _ _, Raise (OtherException "not modelled");
  sorted_set := λ l, l;
|}.

End SpecLib.

(** ** Runs of samples *)

(** The interval [t] joins two different samples of [times], and every gap
    between consecutive samples from the first to the second is at most [mi]. *)
Definition is_run (times : list Z) (mi : Z) (t : interval) : Prop :=
  ∃ a b : nat, (a < b < length times)%nat ∧
    times !! a = Some t.1 ∧ times !! b = Some t.2 ∧
    ∀ i : nat, (a ≤ i < b)%nat → nth (S i) times 0 - nth i times 0 ≤ mi.

(** The loop state after the pass for index [k]: the closed intervals are
    runs, and the open run starts at a sample before [times[k]] from which
    every gap up to [times[k]] is at most [mi]. *)
Definition run_inv (times : list Z) (mi : Z) (k : nat)
    (st : option Z * list interval) : Prop :=
  Forall (is_run times mi) st.2 ∧
  match st.1 with
  | Some s => ∃ a : nat, (a < k)%nat ∧ times !! a = Some s ∧
                ∀ i : nat, (a ≤ i < k)%nat → nth (S i) times 0 - nth i times 0 ≤ mi
  | None => True
  end.

(** Samples [a] to [b] form a run closed by a gap: they are at least two,
    consecutive ones are at most [mi] apart, the gap before [a] (if any) and
    the gap after [b] are wider than [mi]. *)
Definition closed_run (times : list Z) (mi : Z) (a b : nat) : Prop :=
  (a < b)%nat ∧ (S b < length times)%nat ∧
  (∀ i : nat, (a ≤ i < b)%nat → nth (S i) times 0 - nth i times 0 ≤ mi) ∧
  (a = 0%nat ∨ ¬ nth a times 0 - nth (a - 1) times 0 ≤ mi) ∧
  ¬ nth (S b) times 0 - nth b times 0 ≤ mi.

(** The loop state after the pass for index [k]: every closed run that ends
    before [k] has been recorded, and the open run, if any, starts right
    after a wide gap or at the first sample. *)
Definition closed_inv (times : list Z) (mi : Z) (k : nat)
    (st : option Z * list interval) : Prop :=
  (∀ a b : nat, closed_run times mi a b → (b < k)%nat →
     (nth a times 0, nth b times 0) ∈ st.2) ∧
  match st.1 with
  | Some s => ∃ a : nat, (a < k)%nat ∧ s = nth a times 0 ∧
                (∀ i : nat, (a ≤ i < k)%nat → nth (S i) times 0 - nth i times 0 ≤ mi) ∧
                (a = 0%nat ∨ ¬ nth a times 0 - nth (a - 1) times 0 ≤ mi)
  | None => k = 0%nat ∨ ¬ nth k times 0 - nth (k - 1) times 0 ≤ mi
  end.

(** The points [x0], [x0 + d], ..., [x0 + n * d]. *)
Definition progression (x0 d : Z) (n : nat) : list Z :=
  (λ i : nat, x0 + Z.of_nat i * d) <$> seq 0 (S n).

(** The number of whole steps of [d] from [x0] to [xl]. *)
Definition whole_steps (x0 xl d : Z) : nat := Z.to_nat ((xl - x0) / d).

(** ** Tables of columns *)

(** A Python dict in insertion order: an association list whose keys are
    distinct.  [d[k]] reads the entry of [k]; [d[k] = v] overwrites it in
    place, or appends a new entry. *)
Abbreviation dict K V := (list (K * V)%type).

Definition KeyError : exn := OtherException "KeyError".

Fixpoint dict_get {K V} `{EqDecision K} (d : dict K V) (k : K) : option V :=
  match d with
  | [] => None
  | (k', v) :: d => if decide (k = k') then Some v else dict_get d k
  end.

Fixpoint dict_set {K V} `{EqDecision K} (d : dict K V) (k : K) (v : V)
    : dict K V :=
  match d with
  | [] => [(k, v)]
  | (k', v') :: d =>
      if decide (k = k') then (k', v) :: d else (k', v') :: dict_set d k v
  end.

(** [d[k]] on a plain dict. *)
Definition dict_getitem {K V} `{EqDecision K} (d : dict K V) (k : K) : res V :=
  match dict_get d k with
  | Some v => Ok v
  | None => Raise KeyError
  end.

(** [l[i] = v] on a list, for an index [i >= 0]. *)
Definition setitem {A} (l : list A) (i : nat) (v : A) : res (list A) :=
  if decide (i < length l)%nat then Ok (<[i:=v]> l) else Raise IndexError.

(** [for x in l: s = body(s, x)], left as soon as the body raises. *)
Fixpoint for_each {A S} (body : S → A → res S) (s : S) (l : list A) : res S :=
  match l with
  | [] => Ok s
  | x :: l => s' ← body s x; for_each body s' l
  end.

(** ** padData *)

(** [padData] as [main.py] and the tests call it, on a plain dict: the
    exceptions then come before the only assignment, so that a call either
    raises and leaves [data] as it was, or returns and leaves the dict given
    here.  The entries of a column are compared by [==] and hashed by
    [set]; the model has one value per class of equal entries.
    [list(set(col))[0]] is the one element of a set of size one. *)
Definition padData {V} `{EqDecision V} (data : dict string (list V))
    (pad_to_len_of pad_len_of : string) : res (dict string (list V)) :=
  col ← dict_getitem data pad_len_of;
  if decide (length (remove_dups col) = 1%nat) then
    col ← dict_getitem data pad_len_of;
    val ← getitem_first (remove_dups col);
    target ← dict_getitem data pad_to_len_of;
    Ok (dict_set data pad_len_of (replicate (length target) val))
  else Raise AssertionError.

(** ** splitProperties *)

(** The exception class that [splitProperties] declares for itself. *)
Definition DuplicateException : exn := OtherException "DuplicateException".

(** [data[k]] where [data] is a plain dict, or a [defaultdict(list)] when
    [default] is set: a missing key then enters the dict with an empty list.
    The second component is the dict after the access. *)
Definition column {K V} `{EqDecision K} (default : bool)
    (data : dict K (list V)) (k : K) : res (list V * dict K (list V)) :=
  match dict_get data k with
  | Some col => Ok (col, data)
  | None => if default then Ok ([], data ++ [(k, [])]) else Raise KeyError
  end.

(** [[v_ for v_, p in zip(col, prop_vals) if p == v]]. *)
Definition group_column {V} `{EqDecision V} (col prop_vals : list V) (v : V)
    : list V :=
  (filter (λ vp : V * V, vp.2 = v) (zip col prop_vals)).*1.

(** [len(l) != len(set(l))]. *)
Definition has_duplicates {V} `{EqDecision V} (l : list V) : Prop :=
  length l ≠ length (remove_dups l).

(** Some checked column has a repeated entry inside some group. *)
Definition duplicated {V} `{EqDecision V} (data : dict string (list V))
    (pv : list V) (check : list string) : Prop :=
  ∃ k col v, k ∈ check ∧ (k, col) ∈ data ∧ v ∈ pv ∧
             ¬ NoDup (group_column col pv v).

Section splitProperties.
Context {V : Type} `{EqDecision V}.
(** [<=] on the values of the column [prop], which [sorted] uses; the values
    are strings in the script. *)
Context (le : relation V) `{!RelDecision le}.

(** The body of the inner loop, for the key [k] and the value [v]. *)
Definition split_cell (data : dict string (list V)) (prop_vals : list V)
    (check_duplicates : list string) (k : string)
    (data_split : dict V (dict string (list V))) (v : V)
    : res (dict V (dict string (list V))) :=
  col ← dict_getitem data k;
  let c := group_column col prop_vals v in
  inner ← dict_getitem data_split v;
  let data_split := dict_set data_split v (dict_set inner k c) in
  if decide (k ∈ check_duplicates) then
    if decide (has_duplicates c) then Raise DuplicateException
    else Ok data_split
  else Ok data_split.

(** The result is [data_split] together with [data] after the call, which
    differs from [data] only when a [defaultdict] lacked the key [prop]. *)
Definition splitProperties (default : bool) (data : dict string (list V))
    (prop : string) (check_duplicates : list string)
    : res (dict V (dict string (list V)) * dict string (list V)) :=
  '(prop_vals, data) ← column default data prop;
  '(prop_col, data) ← column default data prop;
  let prop_vals_set := merge_sort le (remove_dups prop_col) in
  let data_split := foldl (λ ds v, dict_set ds v []) [] prop_vals in
  data_split ← for_each (λ ds k,
      for_each (split_cell data prop_vals check_duplicates k) ds prop_vals_set)
    data_split data.*1;
  Ok (data_split, data).

End splitProperties.

(** ** flattenDict *)

(** [l[i]] on a list, for an index [i >= 0]. *)
Definition getitem {A} (l : list A) (i : nat) : res A :=
  match l !! i with
  | Some x => Ok x
  | None => Raise IndexError
  end.

(** [data[l] += vals] on a [defaultdict(list)]: a new key starts from the
    empty list. *)
Definition extend {V} (data : dict string (list V)) (l : string)
    (vals : list V) : dict string (list V) :=
  dict_set data l (from_option id [] (dict_get data l) ++ vals).

(** The first loop of [flattenDict]: the columns of the groups, appended
    key by key in the order of the groups. *)
Definition merged {K V} (data_split : dict K (dict string (list V)))
    : dict string (list V) :=
  foldl (λ data group,
           foldl (λ data item, extend data item.1 item.2) data group.2)
    [] data_split.

(** What the groups hold under the key [l], one group after the other. *)
Definition gathered {K V} (data_split : dict K (dict string (list V)))
    (l : string) : list V :=
  concat (omap (λ group, dict_get group.2 l) data_split).

Section flattenDict.
Context {K V : Type} `{EqDecision V}.
(** [<=] on the entries of the columns [sort_by] and [property_name], a
    total order on them (datetimes and strings in the script). *)
Context (le : relation V) `{!RelDecision le}.

(** The order of the tuples [((s, p), o)] that [sorted] compares: the first
    components that differ decide. *)
Definition key_le (a b : V * V * nat) : Prop :=
  if decide (a.1.1 = b.1.1) then
    if decide (a.1.2 = b.1.2) then (a.2 ≤ b.2)%nat else le a.1.2 b.1.2
  else le a.1.1 b.1.1.

#[export] Instance key_le_dec : RelDecision key_le.
Proof. intros a b. unfold key_le. repeat case_decide; apply _. Defined.

(** [[data[k][o] for o in order]]. *)
Definition reorder (order : list nat) (col : list V) : res (list V) :=
  mapM (getitem col) order.

Definition flattenDict (data_split : dict K (dict string (list V)))
    (property_name sort_by : string) : res (dict string (list V)) :=
  let data := merged data_split in
  '(s, data) ← column true data sort_by;
  '(p, data) ← column true data property_name;
  '(s', data) ← column true data sort_by;
  let order := (merge_sort key_le (zip (zip s p) (seq 0 (length s')))).*2 in
  mapM (λ item : string * list V,
          col ← reorder order item.2; Ok (item.1, col)) data.

End flattenDict.

(** ** readData and writeCSV *)

(** A Python [str] is a list of characters.  Of the characters only three
    things matter: which of them [str.strip] takes for white space, which one
    is the comma and which one is the line feed.  The file object is the list
    of the lines that iterating over it yields, or the list of the strings
    that are written to it. *)
Section csv.
Context {char : Type} `{EqDecision char}.
Context (isspace : char → bool) (comma newline : char).

(** [s.split(",")]. *)
Fixpoint split (s : list char) : list (list char) :=
  match s with
  | [] => [[]]
  | c :: s =>
      if decide (c = comma) then [] :: split s
      else match split s with
           | field :: fields => (c :: field) :: fields
           | [] => [[c]]
           end
  end.

(** [",".join(fields)]. *)
Fixpoint join (fields : list (list char)) : list char :=
  match fields with
  | [] => []
  | [field] => field
  | field :: fields => field ++ comma :: join fields
  end.

(** [s.lstrip()] and [s.strip()]. *)
Fixpoint lstrip (s : list char) : list char :=
  match s with
  | c :: s' => if isspace c then lstrip s' else s
  | [] => []
  end.

Definition strip (s : list char) : list char :=
  reverse (lstrip (reverse (lstrip s))).

(** A string without white space at either end, which [strip] leaves as
    it is. *)
Definition tidy (s : list char) : Prop :=
  (∀ c, head s = Some c → isspace c = false) ∧
  (∀ c, last s = Some c → isspace c = false).

(** A field that survives writing and reading: no comma inside, no white
    space at either end. *)
Definition clean (field : list char) : Prop := (comma ∉ field) ∧ tidy field.

(** The indices that [readData] keeps, the entries of a line at the kept
    indices, and the columns of a list of lines at the kept indices. *)
Definition kept (exclude_cols : list nat) (n : nat) : list nat :=
  filter (λ i, i ∉ exclude_cols) (seq 0 n).

Definition fields_at (inds : list nat) (fields : list (list char))
    : list (list char) :=
  (λ i, nth i fields []) <$> inds.

Definition columns (inds : list nat) (rows : list (list (list char)))
    : list (list (list char)) :=
  (λ i, (λ row, nth i row []) <$> rows) <$> inds.

(** A line of the file for a list of fields, and the table that the lines
    of a list of rows make under the kept names: no column at all when there
    is no row. *)
Definition encode (fields : list (list char)) : list char :=
  join fields ++ [newline].

Definition table_of (inds : list nat) (names : list (list char))
    (rows : list (list (list char))) : dict (list char) (list (list char)) :=
  match rows with
  | [] => []
  | _ => zip (fields_at inds names) (columns inds rows)
  end.

(** [data[key].append(field)] on the [defaultdict(list)]. *)
Definition append_field (data : dict (list char) (list (list char)))
    (key field : list char) : dict (list char) (list (list char)) :=
  dict_set data key (from_option id [] (dict_get data key) ++ [field]).

(** The body of [for line in f], on the loop variables [(structure, inds)],
    which are [None] before the first line, and [data]. *)
Definition read_line (exclude_cols : list nat)
    (st : option (list (list char) * list nat)
          * dict (list char) (list (list char)))
    (line : list char)
    : res (option (list (list char) * list nat)
           * dict (list char) (list (list char))) :=
  let ls := split (strip line) in
  match st.1 with
  | None =>
      Ok (Some (ls, filter (λ i, i ∉ exclude_cols) (seq 0 (length ls))), st.2)
  | Some (structure, inds) =>
      data ← for_each (λ data i,
                key ← getitem structure i;
                field ← getitem ls i;
                Ok (append_field data key (strip field)))
              st.2 inds;
      Ok (st.1, data)
  end.

(** [readData], from the lines of the file. *)
Definition readData (lines : list (list char)) (exclude_cols : list nat)
    : res (dict (list char) (list (list char))) :=
  st ← for_each (read_line exclude_cols) (None, []) lines;
  Ok st.2.

Context {V : Type} (str : V → list char).

(** The string written for row [i]. *)
Definition write_row (default : bool) (data : dict (list char) (list V))
    (log_structure : list (list char)) (i : nat) : res (list char) :=
  cells ← mapM (λ log,
             '(col, _) ← column default data log;
             x ← getitem col i;
             Ok (str x))
           log_structure;
  Ok (join cells ++ [newline]).

(** The rows are written until one raises. *)
Fixpoint write_rows (default : bool) (data : dict (list char) (list V))
    (log_structure : list (list char)) (rows : list nat)
    : list (list char) * res unit :=
  match rows with
  | [] => ([], Ok ())
  | i :: rows =>
      match write_row default data log_structure i with
      | Ok line =>
          let '(lines, r) := write_rows default data log_structure rows in
          (line :: lines, r)
      | Raise e => ([], Raise e)
      | Diverge => ([], Diverge)
      end
  end.

(** [writeCSV]: the strings written to the file, and how the call ends.
    [data] is a plain dict, or a [defaultdict(list)] when [default] is set;
    the empty columns that a [defaultdict] gains for the missing keys it is
    asked for are not part of the result. *)
Definition writeCSV (default : bool) (data : dict (list char) (list V))
    (log_structure : list (list char)) : list (list char) * res unit :=
  let header := join log_structure ++ [newline] in
  match (log ← getitem_first log_structure; column default data log) with
  | Ok (col, _) =>
      let '(lines, r) :=
        write_rows default data log_structure (seq 0 (length col)) in
      (header :: lines, r)
  | Raise e => ([header], Raise e)
  | Diverge => ([header], Diverge)
  end.

(** The string for row [i] of a table that has it. *)
Definition table_row (data : dict (list char) (list V))
    (log_structure : list (list char)) (i : nat) : list char :=
  join ((λ log, from_option str [] (dict_get data log ≫= (.!! i)))
          <$> log_structure) ++ [newline].

End csv.

(** ** The loop over the groups in [main.py] *)

Section groups.
Context {L : NumLib}.

(** The entries of the columns of the script: strings as read, floats after
    [cast], datetimes after [convertDatetime]. *)
Inductive cell : Type :=
  | Str (s : string)
  | Num (v : float)
  | Date (t : Z).

#[export] Instance cell_eq_dec : EqDecision cell.
Proof. solve_decision. Defined.

(** The command-line arguments that reach [interpolate]. *)
Record arguments : Type := {
  spline_order : Z;
  timedelta : Z;
  max_interval : option Z;
  keep_old : bool;
  interpolation_mode : string
}.

(** Lines 27 and 28 of [main.py] leave floats in the column [temperature]
    and datetimes in the column [datetime], or have raised; [splitProperties]
    keeps the entries as they are.  The two views read such columns; no other
    content reaches the loop. *)
Definition dates (col : list cell) : res (list Z) :=
  mapM (λ c, match c with Date t => Ok t | _ => Raise TypeError end) col.

Definition nums (col : list cell) : res (list float) :=
  mapM (λ c, match c with Num v => Ok v | _ => Raise TypeError end) col.

Definition axis_cells (x : axis) : list cell :=
  match x with
  | Datetimes l => Date <$> l
  | Numbers l => Num <$> l
  end.

(** [for i in inds_interp: data_split[k]["source_id"][i] = "interpolation"]. *)
Definition tag_interpolated (d : dict string (list cell)) (inds : list nat)
    : res (dict string (list cell)) :=
  for_each (λ d i,
      col ← dict_getitem d "source_id";
      col ← setitem col i (Str "interpolation");
      Ok (dict_set d "source_id" col))
    d inds.

(** The body of [for k in data_split.keys()] up to the call of [writeCSV],
    on the group [d = data_split[k]]. *)
Definition process_group (fuel : nat) (args : arguments)
    (d : dict string (list cell)) : res (dict string (list cell)) :=
  xcol ← dict_getitem d "datetime";
  ycol ← dict_getitem d "temperature";
  delta ← Datetime.of_minutes (timedelta args);
  x_vals ← dates xcol;
  y_vals ← nums ycol;
  '(x, y, inds_interp) ← interpolate fuel (Datetimes x_vals) y_vals
      (spline_order args) (Timedelta delta) (keep_old args)
      (interpolation_mode args) (max_interval args);
  let d := dict_set d "datetime" (axis_cells x) in
  let d := dict_set d "temperature" (Num <$> y) in
  d ← padData d "datetime" "source_id";
  d ← padData d "datetime" "property_name";
  tag_interpolated d inds_interp.

(** The loop [for k in data_split.keys()] of [main.py]: every group is
    resampled in place, in the order of the keys; the first exception ends
    the script. *)
Definition resample_groups (fuel : nat) (args : arguments)
    (data_split : dict cell (dict string (list cell)))
    : res (dict cell (dict string (list cell))) :=
  mapM (λ group : cell * dict string (list cell),
          d ← process_group fuel args group.2; Ok (group.1, d))
    data_split.

End groups.

(** ** Sample series *)

Definition one_minute : Z := 60000000.

(** Samples at minutes 0, 1, 2, 10, 11, 12 whose value is the minute. *)
Definition sample_times : list Z := minute sample_day <$> [0; 1; 2; 10; 11; 12].
Definition sample_values : list Q := inject_Z <$> [0; 1; 2; 10; 11; 12].

(** The grid of step one minute over the sample series and the values of
    the polygon through the samples on it. *)
Definition sample_grid : list Z := minute sample_day <$> seqZ 0 13.
Definition sample_line : list Q := inject_Z <$> seqZ 0 13.

(** The sample series followed by a late sample, which closes the second run. *)
Definition long_times : list Z := minute sample_day <$> [0; 1; 2; 10; 11; 12; 30].

(** Three samples, one minute apart, with a bump in the middle. *)
Definition bump_times : list Z := minute sample_day <$> [0; 1; 2].
Definition bump_values : list Q := inject_Z <$> [0; 1; 0].

(** The sample series as a group of the script: one source, one property. *)
Definition sample_group : dict string (list (cell (L:=SpecLib.lib))) :=
  [("source_id", replicate 6 (Str "sensor"));
   ("datetime", Date <$> sample_times);
   ("property_name", replicate 6 (Str "heating_temperature"));
   ("temperature", Num <$> (sample_values : list (float (NumLib:=SpecLib.lib))))].

(** The same group with a second source for the last sample. *)
Definition mixed_group : dict string (list (cell (L:=SpecLib.lib))) :=
  [("source_id", replicate 5 (Str "sensor") ++ [Str "backup"]);
   ("datetime", Date <$> sample_times);
   ("property_name", replicate 6 (Str "heating_temperature"));
   ("temperature", Num <$> (sample_values : list (float (NumLib:=SpecLib.lib))))].

(** Step five minutes, linear fit, originals kept, no maximum gap. *)
Definition sample_arguments : arguments :=
  {| spline_order := 1; timedelta := 5; max_interval := None;
     keep_old := true; interpolation_mode := "interp1d" |}.

(** The group after one pass of the loop: minute 5 is the one new row. *)
Definition sample_resampled : dict string (list (cell (L:=SpecLib.lib))) :=
  [("source_id",
    replicate 3 (Str "sensor") ++ [Str "interpolation"] ++ replicate 3 (Str "sensor"));
   ("datetime", Date <$> (minute sample_day <$> [0; 1; 2; 5; 10; 11; 12]));
   ("property_name", replicate 7 (Str "heating_temperature"));
   ("temperature",
    Num <$> (inject_Z <$> [0; 1; 2; 5; 10; 11; 12] : list (float (NumLib:=SpecLib.lib))))].

(** A table with columns of three lengths; the last one is constant. *)
Definition ragged_table : dict string (list Z) :=
  [("0", seqZ 0 8); ("1", Z.opp <$> seqZ 0 10); ("2", [7; 7; 7]); ("3", [])].

(** Four rows of two properties, 7 and 8, and the groups they fall into. *)
Definition split_table : dict string (list Z) :=
  [("0", [0; 1; 2; 3]); ("1", [0; -1; -2; -3]); ("2", [7; 7; 8; 8])].

Definition split_groups : dict Z (dict string (list Z)) :=
  [(7, [("0", [0; 1]); ("1", [0; -1]); ("2", [7; 7])]);
   (8, [("0", [2; 3]); ("1", [-2; -3]); ("2", [8; 8])])].

(** Groups of which the first lacks the column ["1"]. *)
Definition uneven_groups : dict Z (dict string (list Z)) :=
  [(7, [("0", [0; 1]); ("2", [7; 7])]);
   (8, [("0", [2; 3]); ("1", [-2; -3]); ("2", [8; 8])])].

(** An order on the entries of the sample tables: datetimes by time,
    strings by the order of their characters. *)
Definition cell_le (a b : cell (L:=SpecLib.lib)) : Prop :=
  match a, b with
  | Date s, Date t => s ≤ t
  | Str s, Str t => String.compare s t ≠ Gt
  | _, _ => True
  end.

#[export] Instance cell_le_dec : RelDecision cell_le.
Proof. intros [] []; simpl; apply _. Defined.

(** ASCII text for the concrete files: [str.isspace] on the ASCII
    characters (tab to carriage return, the four separators, the space), the
    comma and the line feed. *)
Definition ascii_isspace (c : Ascii.ascii) : bool :=
  let n := Ascii.nat_of_ascii c in
  ((9 <=? n)%nat && (n <=? 13)%nat) || ((28 <=? n)%nat && (n <=? 31)%nat)
  || (n =? 32)%nat.

Definition ascii_comma : Ascii.ascii := Ascii.ascii_of_nat 44.
Definition ascii_newline : Ascii.ascii := Ascii.ascii_of_nat 10.

Definition text (s : string) : list Ascii.ascii := String.list_ascii_of_string s.

(** A file of two columns and two lines of data, and its table. *)
Definition csv_names : list (list Ascii.ascii) := [text "a"; text "b"].
Definition csv_rows : list (list (list Ascii.ascii)) :=
  [[text "x"; text "1"]; [text "y"; text "2"]].
Definition csv_table : dict (list Ascii.ascii) (list (list Ascii.ascii)) :=
  [(text "a", [text "x"; text "y"]); (text "b", [text "1"; text "2"])].

(** The same table with the second column cut short. *)
Definition csv_ragged : dict (list Ascii.ascii) (list (list Ascii.ascii)) :=
  [(text "a", [text "x"; text "y"]); (text "b", [text "1"])].

(** A store that holds the sample series. *)
Definition sample_store : gmap positive (pyobj (L:=SpecLib.lib)) :=
  <[1%positive := ObjDatetimes sample_times]>
    (<[2%positive := ObjFloats (sample_values : list (float (NumLib:=SpecLib.lib)))]> ∅).

(** * Properties *)

(** ** Outcomes and list indexing *)

Lemma getitem_first_Ok {A} (l : list A) x :
  getitem_first l = Ok x ↔ head l = Some x.
Proof. unfold getitem_first. destruct (head l); split; congruence. Qed.

Lemma getitem_last_Ok {A} (l : list A) x :
  getitem_last l = Ok x ↔ last l = Some x.
Proof. unfold getitem_last. destruct (last l); split; congruence. Qed.

Lemma bind_Ok {A B} (m : res A) (f : A → res B) b :
  m ≫= f = Ok b ↔ ∃ a, m = Ok a ∧ f a = Ok b.
Proof.
  destruct m as [a| |]; simpl; split; try done.
  - eauto.
  - by intros (a' & [= <-] & ?).
  - by intros (? & ? & ?).
  - by intros (? & ? & ?).
Qed.

Lemma StronglySorted_lookup_le (l : list Z) i j x y :
  StronglySorted Z.le l → l !! i = Some x → l !! j = Some y → (i ≤ j)%nat →
  x ≤ y.
Proof.
  intros Hs. revert i j. induction Hs as [|a l Hs IH Hall]; intros i j Hi Hj Hij.
  - done.
  - destruct i as [|i], j as [|j]; simplify_eq/=; try lia.
    + rewrite Forall_forall in Hall. apply Hall. eapply list_elem_of_lookup_2; eauto.
    + eapply IH; eauto with lia.
Qed.

Lemma Sorted_le_lookup (l : list Z) i j x y :
  Sorted Z.le l → l !! i = Some x → l !! j = Some y → (i ≤ j)%nat → x ≤ y.
Proof.
  intros Hs. apply StronglySorted_lookup_le.
  apply Sorted_StronglySorted; [|done]. intros a b c. apply Z.le_trans.
Qed.

Lemma Sorted_le_bounds (l : list Z) x0 xl x :
  Sorted Z.le l → head l = Some x0 → last l = Some xl → x ∈ l → x0 ≤ x ≤ xl.
Proof.
  intros Hs H0 Hl Hin. apply list_elem_of_lookup in Hin as [i Hi].
  rewrite head_lookup in H0. rewrite last_lookup in Hl.
  pose proof (lookup_lt_Some _ _ _ Hi).
  split.
  - eapply (Sorted_le_lookup l 0 i); eauto with lia.
  - eapply (Sorted_le_lookup l i (pred (length l))); eauto with lia.
Qed.

(** ** Segmentation *)

Lemma segment_fold_keep times mi s ivs l :
  (∀ i, i ∈ l → nth i times 0 - nth (i - 1) times 0 ≤ mi) →
  foldl (segment_step times mi) (Some s, ivs) l = (Some s, ivs).
Proof.
  induction l as [|i l IH]; intros Hgap; [done|].
  simpl. rewrite bool_decide_eq_true_2 by (apply Hgap; left).
  apply IH. intros j Hj. apply Hgap. by right.
Qed.

Lemma sorted_gap_le_span times t0 tl i :
  Sorted Z.le times → head times = Some t0 → last times = Some tl →
  (1 ≤ i < length times)%nat →
  nth i times 0 - nth (i - 1) times 0 ≤ tl - t0.
Proof.
  intros Hs H0 Hl Hi.
  destruct (lookup_lt_is_Some_2 times i) as [x Hx]; [lia|].
  destruct (lookup_lt_is_Some_2 times (i - 1)) as [y Hy]; [lia|].
  rewrite (nth_lookup_Some _ _ _ _ Hx), (nth_lookup_Some _ _ _ _ Hy).
  rewrite last_lookup in Hl. rewrite head_lookup in H0.
  pose proof (Sorted_le_lookup _ _ _ _ _ Hs Hx Hl ltac:(lia)).
  pose proof (Sorted_le_lookup _ _ _ _ _ Hs H0 Hy ltac:(lia)).
  lia.
Qed.

Lemma segment_loop_whole times mi t0 tl :
  Sorted Z.le times → head times = Some t0 → last times = Some tl →
  (2 ≤ length times)%nat → tl - t0 ≤ mi →
  segment_loop times mi = (Some t0, []).
Proof.
  intros Hs H0 Hl Hlen Hspan. unfold segment_loop.
  replace (length times - 1)%nat with (S (length times - 2)) by lia.
  cbn [seq foldl].
  assert (Hgap : ∀ i, (1 ≤ i < length times)%nat →
                      nth i times 0 - nth (i - 1) times 0 ≤ mi).
  { intros i Hi. etrans; [by eapply sorted_gap_le_span|done]. }
  unfold segment_step at 2. rewrite bool_decide_eq_true_2 by (apply Hgap; lia).
  replace (nth (1 - 1) times 0) with t0.
  2:{ destruct times; simplify_eq/=; done. }
  apply segment_fold_keep. intros i Hi. apply Hgap.
  apply elem_of_seq in Hi. lia.
Qed.

Lemma of_minutes_Ok m :
  Datetime.valid_delta (m * 60000000) → Datetime.of_minutes m = Ok (m * 60000000).
Proof.
  intros Hv. unfold Datetime.of_minutes. cbv zeta.
  by rewrite bool_decide_eq_true_2.
Qed.

(** C1.  The claim expects the two intervals [0,2] and [10,12] for samples at
    minutes 0, 1, 2, 10, 11, 12 and a maximum gap of five minutes.  The run
    that is still open when the input ends is never appended: the code
    returns the single interval [0,2]. *)
Theorem identifyTimeIntervals_drops_open_run (base : Z) :
  identifyTimeIntervals (minute base <$> [0; 1; 2; 10; 11; 12]) (Some 5)
  = Ok [(minute base 0, minute base 2)].
Proof.
  unfold identifyTimeIntervals. rewrite of_minutes_Ok by (by vm_compute).
  cbn [mbind res_bind]. unfold segment_loop, minute. cbn [fmap list_fmap length seq foldl Nat.sub].
  unfold segment_step. cbn [nth Nat.sub].
  repeat (first [rewrite bool_decide_eq_true_2 by lia
                |rewrite bool_decide_eq_false_2 by lia]; cbv beta iota).
  cbn [app getitem_first head mbind res_bind].
  rewrite bool_decide_eq_false_2; [done|].
  intros [=]. lia.
Qed.

(** C7, against the claim as stated: a single sample with a maximum gap set
    yields no interval at all, and a maximum gap beyond the range of
    [timedelta] raises. *)
Lemma identifyTimeIntervals_single_sample_empty :
  Sorted Z.le [sample_day] ∧
  sample_day - sample_day < 5 * 60000000 ∧
  identifyTimeIntervals [sample_day] (Some 5) = Ok [] ∧
  identifyTimeIntervals [sample_day] (Some 5) ≠ Ok [(sample_day, sample_day)] ∧
  identifyTimeIntervals [sample_day; minute sample_day 1] (Some (10 ^ 20))
  = Raise OverflowError.
Proof. split; [repeat constructor|]. by vm_compute. Qed.

(** C7, amended.  For a sorted non-empty list, [identifyTimeIntervals]
    returns exactly the interval from the first to the last timestamp when
    the maximum gap is unset, and also when the list has at least two
    elements and the maximum gap is a representable [timedelta] that is at
    least the span of the series. *)
Theorem identifyTimeIntervals_whole_span (times : list Z)
    (max_interval : option Z) (t0 tl : Z) :
  Sorted Z.le times → head times = Some t0 → last times = Some tl →
  (max_interval = None ∨
   ∃ m, max_interval = Some m ∧ (2 ≤ length times)%nat ∧
        Datetime.valid_delta (m * 60000000) ∧ tl - t0 ≤ m * 60000000) →
  identifyTimeIntervals times max_interval = Ok [(t0, tl)].
Proof.
  intros Hs H0 Hl Hcase. unfold identifyTimeIntervals.
  apply getitem_first_Ok in H0 as H0'. apply getitem_last_Ok in Hl as Hl'.
  destruct Hcase as [->|(m & -> & Hlen & Hv & Hspan)].
  - by rewrite H0', Hl'.
  - rewrite of_minutes_Ok by done. cbn [mbind res_bind].
    rewrite (segment_loop_whole times _ t0 tl) by done.
    rewrite H0'. cbn [mbind res_bind].
    rewrite bool_decide_eq_true_2 by done. by rewrite Hl'.
Qed.

(** The sample series with a maximum gap of fifteen minutes is one interval. *)
Lemma identifyTimeIntervals_whole_span_witness :
  identifyTimeIntervals (minute sample_day <$> [0; 1; 2; 10; 11; 12]) (Some 15)
  = Ok [(minute sample_day 0, minute sample_day 12)].
Proof.
  apply identifyTimeIntervals_whole_span.
  - repeat constructor; by vm_compute.
  - reflexivity.
  - reflexivity.
  - right. exists 15. split; [reflexivity|]. split; [rewrite length_fmap; simpl; lia|].
    split; by vm_compute.
Defined.

(** ** Intervals of the segmentation are ordered and disjoint *)


Lemma Sorted_le_nth_succ (times : list Z) k :
  Sorted Z.le times → (S k < length times)%nat →
  nth k times 0 ≤ nth (S k) times 0.
Proof.
  intros Hs Hk.
  destruct (lookup_lt_is_Some_2 times k) as [x Hx]; [lia|].
  destruct (lookup_lt_is_Some_2 times (S k)) as [y Hy]; [lia|].
  rewrite (nth_lookup_Some _ _ _ _ Hx), (nth_lookup_Some _ _ _ _ Hy).
  eapply Sorted_le_lookup; eauto with lia.
Qed.

Lemma segment_step_inv times mi k st :
  Sorted Z.le times → (S k < length times)%nat →
  segment_inv times mi k st →
  segment_inv times mi (S k) (segment_step times mi st (S k)).
Proof.
  intros Hs Hk. destruct st as [start ivs]. unfold segment_inv, segment_step.
  replace (S k - 1)%nat with k by lia.
  pose proof (Sorted_le_nth_succ times k Hs Hk) as Hle.
  cbn [fst snd]. intros (Hord & Hwf & Hopen).
  case_bool_decide as Hgap; destruct start as [s|]; cbn [fst snd].
  - destruct Hopen as (? & ? & ?). split_and!; [done..|lia|done].
  - split_and!; [done|done|lia|lia|done].
  - destruct Hopen as (Hmi & Hsk & Hends). split_and!.
    + apply StronglySorted_app_2; [|done|repeat constructor].
      intros t t' Ht Ht'. apply list_elem_of_singleton in Ht' as ->.
      rewrite Forall_forall in Hends. by apply Hends.
    + apply Forall_app. split; [done|]. by repeat constructor.
    + apply Forall_app. split.
      * eapply Forall_impl; [exact Hends|]. intros t Ht. simpl in *. lia.
      * repeat constructor. simpl. lia.
  - split_and!; [done..|].
    eapply Forall_impl; [exact Hopen|]. intros t Ht. simpl in *. lia.
Qed.

Lemma segment_fold_inv times mi : ∀ n k st,
  Sorted Z.le times → (k + n < length times)%nat →
  segment_inv times mi k st →
  segment_inv times mi (k + n)
    (foldl (segment_step times mi) st (seq (S k) n)).
Proof.
  induction n as [|n IH]; intros k st Hs Hk Hinv.
  - by rewrite Nat.add_0_r.
  - cbn [seq foldl]. replace (k + S n)%nat with (S k + n)%nat by lia.
    apply IH; [done|lia|]. apply segment_step_inv; [done|lia|done].
Qed.

Lemma segment_loop_ordered times mi :
  Sorted Z.le times →
  StronglySorted before (segment_loop times mi).2 ∧
  Forall (λ t : interval, t.1 ≤ t.2) (segment_loop times mi).2.
Proof.
  intros Hs. unfold segment_loop.
  destruct times as [|t0 times']; [by split; constructor|].
  set (times := t0 :: times').
  pose proof (segment_fold_inv times mi (length times - 1) 0 (None, []) Hs) as H.
  destruct H as (? & ? & _); [simpl; lia|by split_and!; constructor|done].
Qed.

Lemma identifyTimeIntervals_ordered times max_interval ivs :
  Sorted Z.le times →
  identifyTimeIntervals times max_interval = Ok ivs →
  StronglySorted before ivs ∧ Forall (λ t : interval, t.1 ≤ t.2) ivs.
Proof.
  intros Hs. unfold identifyTimeIntervals.
  assert (∀ t0 tl, head times = Some t0 → last times = Some tl →
    StronglySorted before [(t0, tl)] ∧
    Forall (λ t : interval, t.1 ≤ t.2) [(t0, tl)]) as Hone.
  { intros t0 tl H0 Hl. split; repeat constructor. simpl.
    eapply (Sorted_le_bounds times t0 tl tl); eauto.
    by eapply last_Some_elem_of. }
  destruct max_interval as [m|].
  - intros H. apply bind_Ok in H as (mi & _ & H).
    pose proof (segment_loop_ordered times mi Hs) as Hord.
    destruct (segment_loop times mi) as [start intervals].
    apply bind_Ok in H as (t0 & H0 & H). apply getitem_first_Ok in H0.
    case_bool_decide.
    + apply bind_Ok in H as (tl & Hl & [= <-]). apply getitem_last_Ok in Hl. eauto.
    + by simplify_eq.
  - intros H. apply bind_Ok in H as (t0 & H0 & H).
    apply bind_Ok in H as (tl & Hl & [= <-]).
    apply getitem_first_Ok in H0. apply getitem_last_Ok in Hl. eauto.
Qed.

(** Two intervals of the segmentation that share a point are the same. *)
Lemma identifyTimeIntervals_disjoint times max_interval ivs t t' x :
  Sorted Z.le times →
  identifyTimeIntervals times max_interval = Ok ivs →
  t ∈ ivs → t' ∈ ivs → in_interval t x = true → in_interval t' x = true →
  t = t'.
Proof.
  intros Hs Hivs Ht Ht' Hx Hx'.
  destruct (identifyTimeIntervals_ordered _ _ _ Hs Hivs) as [Hord Hwf].
  unfold in_interval in *.
  apply andb_true_iff in Hx as [Hx1 Hx2]. apply andb_true_iff in Hx' as [Hx1' Hx2'].
  apply bool_decide_eq_true in Hx1, Hx2, Hx1', Hx2'.
  clear Hivs Hs Hwf. induction Hord as [|a l Hord IH Hall]; [by apply elem_of_nil in Ht|].
  rewrite Forall_forall in Hall. unfold before in Hall.
  apply elem_of_cons in Ht as [->|Ht]; apply elem_of_cons in Ht' as [->|Ht'].
  - done.
  - specialize (Hall _ Ht'). lia.
  - specialize (Hall _ Ht). lia.
  - by apply IH.
Qed.

(** ** Grid construction *)

Lemma add_Ok x d y : Datetime.add x d = Ok y → y = x + d ∧ Datetime.valid y.
Proof.
  unfold Datetime.add, Datetime.valid. case_bool_decide; intros [=]. by subst.
Qed.

Lemma grid_loop_sorted fuel x_vals d xl : ∀ acc g,
  0 < d → last x_vals = Some xl →
  Sorted Z.lt acc → Forall (λ x, x ≤ xl) acc →
  grid_loop fuel acc x_vals d = Ok g →
  Sorted Z.lt g ∧ Forall (λ x, x ≤ xl) g ∧ ∃ more, g = acc ++ more.
Proof.
  induction fuel as [|fuel IH]; intros acc g Hd Hxl Hs Hall Hrun; [done|].
  cbn [grid_loop] in Hrun.
  apply bind_Ok in Hrun as (cur & Hcur & Hrun).
  apply bind_Ok in Hrun as (nxt & Hnxt & Hrun).
  apply bind_Ok in Hrun as (xl' & Hxl' & Hrun).
  apply getitem_last_Ok in Hxl'. assert (xl' = xl) as -> by congruence.
  apply getitem_last_Ok in Hcur. apply add_Ok in Hnxt as [-> _].
  case_bool_decide as Hle.
  - apply IH in Hrun as (Hs' & Hall' & more & ->); try done.
    + split_and!; [done..|]. exists ((cur + d) :: more). by rewrite <-app_assoc.
    + apply Sorted_snoc; [done|]. apply last_Some in Hcur as [l' ->].
      constructor. lia.
    + apply Forall_app. split; [done|]. by constructor.
  - simplify_eq. split_and!; [done..|]. exists []. by rewrite app_nil_r.
Qed.


Lemma grid_loop_terminates x_vals d xl : ∀ fuel acc cur,
  0 < d → last x_vals = Some xl → last acc = Some cur →
  (grid_fuel cur xl d ≤ fuel)%nat →
  grid_loop fuel acc x_vals d ≠ Diverge.
Proof.
  unfold grid_fuel.
  induction fuel as [|fuel IH]; intros acc cur Hd Hxl Hcur Hfuel; [lia|].
  cbn [grid_loop]. unfold getitem_last. rewrite Hcur, Hxl. cbn [mbind res_bind].
  unfold Datetime.add. case_bool_decide; [|done]. cbn [mbind res_bind].
  case_bool_decide as Hle; [|done].
  apply (IH _ (cur + d)); [done..|by rewrite last_snoc|].
  assert (1 ≤ (xl - cur) / d) by (apply Z.div_le_lower_bound; lia).
  replace (xl - (cur + d)) with ((xl - cur) + (-1) * d) by lia.
  rewrite Z.div_add by lia. lia.
Qed.

(** Without overflow the loop returns. *)
Lemma grid_loop_returns x_vals d xl : ∀ fuel acc cur,
  0 < d → last x_vals = Some xl → last acc = Some cur →
  0 ≤ cur ≤ xl → xl + d ≤ Datetime.max_us →
  (grid_fuel cur xl d ≤ fuel)%nat →
  ∃ g, grid_loop fuel acc x_vals d = Ok g.
Proof.
  unfold grid_fuel.
  induction fuel as [|fuel IH]; intros acc cur Hd Hxl Hcur H0 Hmax Hfuel; [lia|].
  cbn [grid_loop]. unfold getitem_last. rewrite Hcur, Hxl. cbn [mbind res_bind].
  unfold Datetime.add. rewrite bool_decide_eq_true_2 by lia.
  cbn [mbind res_bind]. case_bool_decide as Hle; [|eauto].
  apply (IH _ (cur + d)); [done..|by rewrite last_snoc|lia|done|].
  assert (1 ≤ (xl - cur) / d) by (apply Z.div_le_lower_bound; lia).
  replace (xl - (cur + d)) with ((xl - cur) + (-1) * d) by lia.
  rewrite Z.div_add by lia. lia.
Qed.

(** [sorted(list(set(l)))] is strictly increasing and has the elements of [l]. *)
Lemma elem_of_sorted_datetimes l x : x ∈ sorted_datetimes l ↔ x ∈ l.
Proof.
  unfold sorted_datetimes. rewrite merge_sort_Permutation.
  apply elem_of_remove_dups.
Qed.

Lemma Sorted_le_NoDup_lt (l : list Z) : Sorted Z.le l → NoDup l → Sorted Z.lt l.
Proof.
  induction 1 as [|a l Hs IH Hhd]; intros Hnd; [constructor|].
  apply NoDup_cons in Hnd as [Hnotin Hnd].
  constructor; [by apply IH|].
  destruct Hhd as [|b l Hab]; constructor.
  assert (a ≠ b) by (intros ->; apply Hnotin; left).
  lia.
Qed.

Lemma sorted_datetimes_Sorted l : Sorted Z.lt (sorted_datetimes l).
Proof.
  unfold sorted_datetimes. apply Sorted_le_NoDup_lt.
  - apply (Sorted_merge_sort Z.le).
  - rewrite merge_sort_Permutation. apply NoDup_remove_dups.
Qed.

Lemma Sorted_lt_StronglySorted (l : list Z) : Sorted Z.lt l → StronglySorted Z.lt l.
Proof. apply Sorted_StronglySorted. intros a b c. apply Z.lt_trans. Qed.

Lemma Sorted_lt_NoDup (l : list Z) : Sorted Z.lt l → NoDup l.
Proof.
  intros Hs. apply Sorted_lt_StronglySorted in Hs.
  induction Hs as [|a l Hs IH Hall]; constructor; [|done].
  intros Hin. rewrite Forall_forall in Hall. specialize (Hall _ Hin). lia.
Qed.

Lemma Sorted_lt_head_min (l : list Z) x0 :
  Sorted Z.lt l → x0 ∈ l → (∀ y, y ∈ l → x0 ≤ y) → head l = Some x0.
Proof.
  intros Hs Hin Hmin. apply Sorted_lt_StronglySorted in Hs.
  destruct Hs as [|a l Hs Hall]; [by apply elem_of_nil in Hin|].
  simpl. f_equal. apply elem_of_cons in Hin as [->|Hin]; [done|].
  rewrite Forall_forall in Hall. specialize (Hall _ Hin).
  specialize (Hmin a ltac:(left)). lia.
Qed.

Lemma count_occ_once (l : list Z) x :
  NoDup l → x ∈ l → count_occ Z.eq_dec l x = 1%nat.
Proof.
  intros Hnd Hin. apply NoDup_ListNoDup in Hnd.
  apply (proj1 (NoDup_count_occ' Z.eq_dec l) Hnd). by apply list_elem_of_In.
Qed.

(** ** Masks *)

Lemma mapM_cons_Ok {A B} (f : A → res B) x l vs :
  mapM f (x :: l) = Ok vs ↔
  ∃ v vs', f x = Ok v ∧ mapM f l = Ok vs' ∧ vs = v :: vs'.
Proof.
  cbn [mapM]. split.
  - intros H. apply bind_Ok in H as (v & Hv & H).
    apply bind_Ok in H as (vs' & Hvs & [= <-]). eauto.
  - intros (v & vs' & -> & Hvs & ->). cbn [mbind res_bind].
    change (mapM f l ≫= (λ k, mret (v :: k)) = Ok (v :: vs')).
    by rewrite Hvs.
Qed.

Lemma mapM_Ok_all {A B} (f : A → res B) l :
  (∀ x, x ∈ l → ok (f x) = true) → ∃ vs, mapM f l = Ok vs.
Proof.
  induction l as [|x l IH]; intros Hall; [by exists []|].
  destruct IH as [vs Hvs]; [intros; apply Hall; by right|].
  specialize (Hall x ltac:(left)). destruct (f x) as [v| |] eqn:Hv; try done.
  exists (v :: vs). apply mapM_cons_Ok. eauto.
Qed.

Lemma elem_of_select {A} (mask : list bool) (arr : list A) x :
  x ∈ select mask arr → x ∈ arr.
Proof.
  revert arr. induction mask as [|b mask IH]; intros [|a arr]; simpl;
    try (by intros ?%elem_of_nil).
  destruct b; rewrite ?elem_of_cons; intros; intuition auto.
Qed.

Lemma mask_select_Ok {A} (mask : list bool) (arr : list A) :
  length mask = length arr → mask_select mask arr = Ok (select mask arr).
Proof. intros H. unfold mask_select. by rewrite decide_True. Qed.

Lemma length_mask_assign {A} (mask : list bool) (vals arr : list A) :
  length (mask_assign mask vals arr) = length arr.
Proof.
  revert vals arr. induction mask as [|[] mask IH]; intros vals [|a arr]; simpl;
    try done.
  - destruct vals; simpl; by rewrite IH.
  - by rewrite IH.
Qed.

(** [arr[mask] = f(xs[mask])]: a selected index receives the value of [f] at
    its abscissa, every other index keeps its entry. *)
Lemma mask_assign_lookup {A B} (f : B → res A) : ∀ (mask : list bool) (xs : list B)
    (arr vals : list A) (i : nat) (x : B) (b : bool),
  length arr = length xs →
  mapM f (select mask xs) = Ok vals →
  xs !! i = Some x → mask !! i = Some b →
  if b then ∃ v, f x = Ok v ∧ mask_assign mask vals arr !! i = Some v
  else mask_assign mask vals arr !! i = arr !! i.
Proof.
  intros mask.
  induction mask as [|c mask IH]; intros xs arr vals i x b Hlen Hvals Hx Hb;
    [done|].
  destruct xs as [|x' xs]; [done|]. destruct arr as [|a arr]; [done|].
  simpl in Hlen. cbn [select] in Hvals. destruct c.
  - apply mapM_cons_Ok in Hvals as (v & vs' & Hv & Hvs & ->).
    destruct i as [|i]; simplify_eq/=; [eauto|].
    eapply IH; eauto with lia.
  - destruct i as [|i]; simplify_eq/=; [done|].
    eapply IH; eauto with lia.
Qed.

(** ** The loop over the intervals *)

Section fit_loop.
Context {L : NumLib}.
Context (x_vals : list Z) (y_vals : list float) (x_interp : list Z).
Context (order : Z) (mode : string).

Local Abbreviation values := (interval_values x_vals y_vals x_interp order mode).
Local Abbreviation step_of := (fit_interval x_vals y_vals x_interp order mode).
Local Abbreviation loop := (fit_intervals x_vals y_vals x_interp order mode).
Local Abbreviation covered_in := (covered x_vals y_vals x_interp order mode).
Local Abbreviation value_in := (fitted_value x_vals y_vals order mode).


(** A fit that raises [ValueError] leaves everything as it was. *)
Lemma fit_interval_skip st t :
  values t = Raise ValueError → step_of st t = Ok st.
Proof.
  intros H. unfold fit_interval, try_interval. by rewrite H.
Qed.

Lemma fit_interval_Ok st t st' :
  step_of st t = Ok st' →
  (values t = Raise ValueError ∧ st' = st) ∨
  (∃ vals, values t = Ok vals ∧
     y_interp st' = mask_assign (in_interval t <$> x_interp) vals (y_interp st) ∧
     valid_inds_interp st' =
       zip_with orb (valid_inds_interp st) (in_interval t <$> x_interp)).
Proof.
  unfold fit_interval, try_interval.
  destruct (values t) as [vals|e|] eqn:Hv; cbn [mbind res_bind except_ValueError].
  - intros [= <-]. right. eauto.
  - destruct e; try done. intros [= <-]. by left.
  - done.
Qed.

Lemma interval_values_Ok t vals :
  values t = Ok vals →
  ∃ func, interval_fit x_vals y_vals order mode t = Ok func ∧
    mapM (curve_call func)
      (select (in_interval t <$> x_interp) (timestamp <$> x_interp)) = Ok vals.
Proof.
  unfold interval_values. intros H.
  apply bind_Ok in H as (func & Hf & H). exists func. split; [done|].
  rewrite mask_select_Ok in H by (by rewrite !length_fmap). done.
Qed.

(** The effect of one interval on one grid index. *)
Lemma fit_interval_index st t st' i x b :
  sized x_interp st → step_of st t = Ok st' →
  x_interp !! i = Some x → valid_inds_interp st !! i = Some b →
  sized x_interp st' ∧
  valid_inds_interp st' !! i
    = Some (b || (in_interval t x && fitted x_vals y_vals x_interp order mode t)) ∧
  if in_interval t x && fitted x_vals y_vals x_interp order mode t
  then ∃ v, y_interp st' !! i = Some v ∧ value_in [t] x v
  else y_interp st' !! i = y_interp st !! i.
Proof.
  intros [Hly Hlv] Hstep Hx Hb. unfold fitted.
  apply fit_interval_Ok in Hstep as [[Hv ->]|(vals & Hv & Hy & Hm)].
  - rewrite Hv. cbn [ok]. rewrite andb_false_r, orb_false_r. done.
  - rewrite Hv. cbn [ok]. rewrite andb_true_r.
    apply interval_values_Ok in Hv as (func & Hfit & Hvals).
    split_and!.
    + split.
      * by rewrite Hy, length_mask_assign.
      * rewrite Hm, length_zip_with, length_fmap. lia.
    + rewrite Hm. rewrite lookup_zip_with, Hb. cbn [mbind option_bind].
      by rewrite list_lookup_fmap, Hx.
    + pose proof (mask_assign_lookup (curve_call func)
        (in_interval t <$> x_interp) (timestamp <$> x_interp)
        (y_interp st) vals i (timestamp x) (in_interval t x)) as Hlk.
      rewrite length_fmap in Hlk. specialize (Hlk Hly Hvals).
      rewrite !list_lookup_fmap, Hx in Hlk. specialize (Hlk eq_refl eq_refl).
      rewrite Hy. destruct (in_interval t x) eqn:Hin; [|done].
      destruct Hlk as (v & Hcall & Hlook). exists v. split; [done|].
      exists t, func. split_and!; [by left|done..].
Qed.

Lemma value_in_cons t ts x v : value_in ts x v → value_in (t :: ts) x v.
Proof.
  intros (t' & func & Hin & ?). exists t', func. split; [by right|done].
Qed.

Lemma value_in_head t ts x v : value_in [t] x v → value_in (t :: ts) x v.
Proof.
  intros (t' & func & Hin & ?). exists t', func.
  apply list_elem_of_singleton in Hin as ->. split; [by left|done].
Qed.

Lemma covered_cons t ts x :
  covered_in (t :: ts) x
  = in_interval t x && fitted x_vals y_vals x_interp order mode t
    || covered_in ts x.
Proof. reflexivity. Qed.

(** The state after the loop, index by index. *)
Lemma fit_intervals_index : ∀ ts st st' i x b,
  sized x_interp st → loop st ts = Ok st' →
  x_interp !! i = Some x → valid_inds_interp st !! i = Some b →
  sized x_interp st' ∧
  valid_inds_interp st' !! i = Some (b || covered_in ts x) ∧
  if covered_in ts x
  then ∃ v, y_interp st' !! i = Some v ∧ value_in ts x v
  else y_interp st' !! i = y_interp st !! i.
Proof.
  induction ts as [|t ts IH]; intros st st' i x b Hsz Hloop Hx Hb.
  - simplify_eq/=. by rewrite orb_false_r.
  - cbn [fit_intervals] in Hloop.
    apply bind_Ok in Hloop as (st1 & Hstep & Hloop).
    destruct (fit_interval_index _ _ _ _ _ _ Hsz Hstep Hx Hb)
      as (Hsz1 & Hb1 & Hy1).
    destruct (IH _ _ _ _ _ Hsz1 Hloop Hx Hb1) as (Hsz' & Hb' & Hy').
    split; [done|]. rewrite covered_cons.
    split; [by rewrite Hb', orb_assoc|].
    destruct (covered_in ts x).
    + rewrite orb_true_r. destruct Hy' as (v & Hv & Hval).
      exists v. split; [done|]. by apply value_in_cons.
    + rewrite orb_false_r. rewrite Hy'.
      destruct (in_interval t x && _); [|done].
      destruct Hy1 as (v & Hv & Hval). exists v. split; [done|].
      by apply value_in_head.
Qed.

Lemma fit_intervals_sized : ∀ ts st st',
  sized x_interp st → loop st ts = Ok st' → sized x_interp st'.
Proof.
  induction ts as [|t ts IH]; intros st st' Hsz Hloop; [by simplify_eq/=|].
  cbn [fit_intervals] in Hloop.
  apply bind_Ok in Hloop as (st1 & Hstep & Hloop).
  apply (IH st1); [|done]. destruct Hsz as [Hly Hlv].
  apply fit_interval_Ok in Hstep as [[_ ->]|(vals & _ & Hy & Hm)]; [done|].
  split.
  - by rewrite Hy, length_mask_assign.
  - rewrite Hm, length_zip_with, length_fmap. lia.
Qed.

(** The loop runs to its end when no interval raises anything but
    [ValueError]. *)
Lemma fit_intervals_returns : ∀ ts st,
  (∀ t, t ∈ ts → ok (values t) = true ∨ values t = Raise ValueError) →
  ∃ st', loop st ts = Ok st'.
Proof.
  induction ts as [|t ts IH]; intros st Hall; [by exists st|].
  cbn [fit_intervals]. unfold fit_interval at 1, try_interval.
  destruct (Hall t ltac:(left)) as [Hok|Hve].
  - destruct (values t) as [vals| |]; try done.
    cbn [mbind res_bind except_ValueError].
    apply IH. intros t' Ht'. apply Hall. by right.
  - rewrite Hve. cbn [mbind res_bind except_ValueError].
    apply IH. intros t' Ht'. apply Hall. by right.
Qed.

End fit_loop.

(** ** The datetime branch as a whole *)

(** What a run of the datetime branch that returns has computed. *)
Lemma interpolate_datetime_Ok {L : NumLib} fuel x_vals y_vals order delta
    keep_old mode max_interval r :
  interpolate_datetime fuel x_vals y_vals order delta keep_old mode max_interval
  = Ok r →
  build_grid fuel x_vals delta keep_old = Ok (r_x_interp r) ∧
  identifyTimeIntervals x_vals max_interval = Ok (r_time_intervals r) ∧
  interp1d (timestamp <$> x_vals) y_vals 1 = Ok (r_linear r) ∧
  length (r_y_interp r) = length (r_x_interp r) ∧
  length (r_covered r) = length (r_x_interp r) ∧
  ∀ i x, r_x_interp r !! i = Some x →
    let c := covered x_vals y_vals (r_x_interp r) order mode
               (r_time_intervals r) x in
    r_covered r !! i = Some c ∧
    ∃ v, r_y_interp r !! i = Some v ∧
      if c then fitted_value x_vals y_vals order mode (r_time_intervals r) x v
      else curve_call (r_linear r) (timestamp x) = Ok v.
Proof.
  unfold interpolate_datetime. intros H.
  apply bind_Ok in H as (x_interp & Hgrid & H).
  apply bind_Ok in H as (ivs & Hivs & H).
  apply bind_Ok in H as (st & Hloop & H).
  apply bind_Ok in H as (lin & Hlin & H).
  set (st0 := {| y_interp := replicate (length x_interp) np_zero;
                 valid_inds := replicate (length x_vals) false;
                 valid_inds_interp := replicate (length x_interp) false |})
    in Hloop.
  assert (sized x_interp st0) as Hsz0.
  { split; simpl; by rewrite length_replicate. }
  pose proof (fit_intervals_sized _ _ _ _ _ _ _ _ Hsz0 Hloop) as [Hly Hlv].
  rewrite mask_select_Ok in H by (by rewrite !length_fmap).
  cbn [mbind res_bind] in H.
  apply (bind_Ok (mapM _ _)) in H as (vals & Hvals & [= <-]). cbn [r_x_interp r_time_intervals
    r_covered r_linear r_y_interp].
  split_and!; [done..|by rewrite length_mask_assign|done|].
  intros i x Hx. cbv zeta.
  set (c := covered x_vals y_vals x_interp order mode ivs x).
  assert (valid_inds_interp st0 !! i = Some false) as Hb0.
  { simpl. apply lookup_replicate_2. by eapply lookup_lt_Some. }
  destruct (fit_intervals_index _ _ _ _ _ _ _ _ _ _ _ Hsz0 Hloop Hx Hb0)
    as (_ & Hb & Hy).
  rewrite orb_false_l in Hb. fold c in Hb, Hy. split; [done|].
  pose proof (mask_assign_lookup (curve_call lin)
    (negb <$> valid_inds_interp st) (timestamp <$> x_interp) (y_interp st)
    vals i (timestamp x) (negb c)) as Hlk.
  rewrite length_fmap in Hlk. specialize (Hlk Hly Hvals).
  rewrite !list_lookup_fmap, Hx, Hb in Hlk. specialize (Hlk eq_refl eq_refl).
  destruct c; cbn [negb] in Hlk.
  - destruct Hy as (v & Hv & Hval). exists v. by rewrite Hlk.
  - destruct Hlk as (v & Hcall & Hv). eauto.
Qed.

(** The branch returns when the grid and the segmentation are built, no
    interval raises anything but [ValueError], and the global linear fit
    exists and has a value at every grid point. *)
Lemma interpolate_datetime_returns {L : NumLib} fuel x_vals y_vals order delta
    keep_old mode max_interval x_interp ivs lin :
  build_grid fuel x_vals delta keep_old = Ok x_interp →
  identifyTimeIntervals x_vals max_interval = Ok ivs →
  (∀ t, t ∈ ivs →
     fitted x_vals y_vals x_interp order mode t = true ∨
     interval_values x_vals y_vals x_interp order mode t = Raise ValueError) →
  interp1d (timestamp <$> x_vals) y_vals 1 = Ok lin →
  (∀ x, x ∈ x_interp → ok (curve_call lin (timestamp x)) = true) →
  ∃ r, interpolate_datetime fuel x_vals y_vals order delta keep_old mode
         max_interval = Ok r.
Proof.
  intros Hgrid Hivs Hall Hlin Hcall. unfold interpolate_datetime.
  rewrite Hgrid, Hivs. cbn [mbind res_bind].
  match goal with |- context [fit_intervals _ _ _ _ _ ?st0 _] =>
    destruct (fit_intervals_returns x_vals y_vals x_interp order mode ivs st0 Hall)
      as [st Hst]; pose proof (fit_intervals_sized x_vals y_vals x_interp order
        mode ivs st0 st) as Hsz end.
  rewrite Hst, Hlin. cbn [mbind res_bind].
  destruct Hsz as [_ Hlv]; [split; simpl; by rewrite length_replicate|done|].
  rewrite mask_select_Ok by (by rewrite !length_fmap). cbn [mbind res_bind].
  destruct (mapM_Ok_all (curve_call lin)
    (select (negb <$> valid_inds_interp st) (timestamp <$> x_interp)))
    as [vals Hvals].
  { intros u Hu. apply elem_of_select in Hu.
    apply list_elem_of_fmap in Hu as (x & -> & Hx). by apply Hcall. }
  rewrite Hvals. cbn [mbind res_bind]. eauto.
Qed.

(** ** Provenance *)

Lemma elem_of_enumerate {A} (l : list A) i x :
  (i, x) ∈ zip (seq 0 (length l)) l ↔ l !! i = Some x.
Proof.
  rewrite elem_of_lookup_zip_with. split.
  - intros (j & i' & x' & [= -> ->] & Hseq & Hx).
    apply lookup_seq in Hseq as [-> _]. done.
  - intros Hx. exists i, i, x. split_and!; [done| |done].
    apply lookup_seq. split; [done|]. by eapply lookup_lt_Some.
Qed.

(** An index is reported as interpolated exactly when its grid point is not
    an original abscissa. *)
Lemma elem_of_interpolated_indices {A} `{EqDecision A} (x_interp x_vals : list A)
    (i : nat) :
  i ∈ interpolated_indices x_interp x_vals ↔
  ∃ x, x_interp !! i = Some x ∧ x ∉ x_vals.
Proof.
  unfold interpolated_indices. rewrite list_elem_of_fmap. split.
  - intros ([j x] & -> & Hin). apply list_elem_of_filter in Hin as [Hnot Hin].
    apply elem_of_enumerate in Hin. eauto.
  - intros (x & Hx & Hnot). exists (i, x). split; [done|].
    apply list_elem_of_filter. split; [done|]. by apply elem_of_enumerate.
Qed.

(** ** interpolate *)

Lemma interpolate_Datetimes_Ok {L : NumLib} fuel xs y_vals order delta keep_old
    mode max_interval out :
  interpolate fuel (Datetimes xs) y_vals order delta keep_old mode max_interval
  = Ok out →
  ∃ r, interpolate_datetime fuel xs y_vals order delta keep_old mode max_interval
       = Ok r ∧
       out = (Datetimes (r_x_interp r), r_y_interp r,
              interpolated_indices (r_x_interp r) xs).
Proof.
  unfold interpolate. case_decide; [|done]. intros Hrun.
  apply bind_Ok in Hrun as (r & Hr & [= <-]). eauto.
Qed.

Lemma interval_fit_raises {L : NumLib} x_vals y_vals x_interp order mode t e :
  interval_fit x_vals y_vals order mode t = Raise e →
  interval_values x_vals y_vals x_interp order mode t = Raise e.
Proof. intros H. unfold interval_values. by rewrite H. Qed.

Lemma mapM_Ok_lookup {A B} (f : A → res B) : ∀ l vs i x,
  mapM f l = Ok vs → l !! i = Some x → ∃ v, f x = Ok v ∧ vs !! i = Some v.
Proof.
  induction l as [|a l IH]; intros vs i x Hm Hx; [done|].
  apply mapM_cons_Ok in Hm as (v & vs' & Hv & Hvs & ->).
  destruct i as [|i]; simplify_eq/=; eauto.
Qed.

Lemma mapM_Ok_length {A B} (f : A → res B) : ∀ l vs,
  mapM f l = Ok vs → length vs = length l.
Proof.
  induction l as [|a l IH]; intros vs Hm.
  - by injection Hm as <-.
  - apply mapM_cons_Ok in Hm as (v & vs' & Hv & Hvs & ->). simpl. f_equal. eauto.
Qed.

(** C8.  For a sorted datetime series and a strictly positive step: the
    loop that builds the grid terminates; it returns a grid unless datetime
    arithmetic overflows, which it cannot when the last timestamp plus the
    step is a valid datetime; and every grid that is returned is strictly
    increasing, starts at the first timestamp, never exceeds the last one
    and, with [keep_old], contains every original timestamp exactly once.
    The abscissae that [interpolate] returns are such a grid. *)
Theorem build_grid_invariant {L : NumLib} (x_vals : list Z) (d : Z)
    (keep_old : bool) (x0 xl : Z) :
  Sorted Z.le x_vals → 0 < d → head x_vals = Some x0 → last x_vals = Some xl →
  (∀ fuel, (grid_fuel x0 xl d ≤ fuel)%nat →
     build_grid (F:=float) fuel x_vals (Timedelta d) keep_old ≠ Diverge) ∧
  (∀ fuel, (grid_fuel x0 xl d ≤ fuel)%nat →
     0 ≤ x0 → xl + d ≤ Datetime.max_us →
     ∃ g, build_grid (F:=float) fuel x_vals (Timedelta d) keep_old = Ok g) ∧
  (∀ fuel g, build_grid (F:=float) fuel x_vals (Timedelta d) keep_old = Ok g →
     Sorted Z.lt g ∧ head g = Some x0 ∧ Forall (λ x, x ≤ xl) g ∧
     (keep_old = true → ∀ x, x ∈ x_vals → count_occ Z.eq_dec g x = 1%nat)) ∧
  (∀ fuel y_vals order mode max_interval gx gy inds,
     interpolate fuel (Datetimes x_vals) y_vals order (Timedelta d) keep_old mode
       max_interval = Ok (gx, gy, inds) →
     ∃ g, gx = Datetimes g ∧
          build_grid (F:=float) fuel x_vals (Timedelta d) keep_old = Ok g).
Proof.
  intros Hs Hd H0 Hl. unfold build_grid.
  apply getitem_first_Ok in H0 as H0'. rewrite H0'. cbn [mbind res_bind].
  assert (x0 ≤ xl) as H0l.
  { eapply (Sorted_le_bounds x_vals x0 xl xl); eauto.
    by eapply last_Some_elem_of. }
  split_and!.
  - intros fuel Hfuel.
    pose proof (grid_loop_terminates x_vals d xl fuel [x0] x0 Hd Hl eq_refl Hfuel).
    by destruct (grid_loop fuel [x0] x_vals d).
  - intros fuel Hfuel Hx0 Hmax.
    destruct (grid_loop_returns x_vals d xl fuel [x0] x0) as [g Hg]; try done.
    rewrite Hg. eauto.
  - intros fuel g Hrun.
    apply bind_Ok in Hrun as (base & Hbase & [= <-]).
    apply (grid_loop_sorted _ _ _ xl) in Hbase as (Hsb & Hallb & more & ->);
      [|done..|repeat constructor|by repeat constructor].
    destruct keep_old.
    + split_and!.
      * apply sorted_datetimes_Sorted.
      * apply Sorted_lt_head_min; [apply sorted_datetimes_Sorted|..].
        -- apply elem_of_sorted_datetimes. set_solver.
        -- intros y Hy. rewrite elem_of_sorted_datetimes in Hy.
           apply elem_of_app in Hy as [Hy|Hy].
           ++ apply Sorted_lt_StronglySorted in Hsb.
              simpl in Hsb. apply StronglySorted_inv in Hsb as [_ Hall].
              apply elem_of_cons in Hy as [->|Hy]; [done|].
              rewrite Forall_forall in Hall. specialize (Hall _ Hy). lia.
           ++ pose proof (Sorted_le_bounds _ _ _ _ Hs H0 Hl Hy). lia.
      * apply Forall_forall. intros y Hy. rewrite elem_of_sorted_datetimes in Hy.
        apply elem_of_app in Hy as [Hy|Hy].
        -- rewrite Forall_forall in Hallb. by apply Hallb.
        -- pose proof (Sorted_le_bounds _ _ _ _ Hs H0 Hl Hy). lia.
      * intros _ x Hx. apply count_occ_once.
        -- apply Sorted_lt_NoDup, sorted_datetimes_Sorted.
        -- apply elem_of_sorted_datetimes. set_solver.
    + split_and!; [done|done|done|done].
  - intros fuel y_vals order mode max_interval gx gy inds Hrun.
    apply interpolate_Datetimes_Ok in Hrun as (r & Hr & [= -> _ _]).
    destruct (interpolate_datetime_Ok _ _ _ _ _ _ _ _ _ Hr) as (Hgrid & _).
    exists (r_x_interp r). split; [done|].
    unfold build_grid in Hgrid. by rewrite H0' in Hgrid.
Qed.

(** C3.  On a datetime axis [interpolate] returns once the grid and the
    segmentation are built, no interval raises anything but [ValueError],
    and the global linear fit exists (it needs at least two samples) and has
    a value at every grid point.  Whenever [interpolate] returns, the values
    have the length of the grid; on a datetime axis every grid index has a
    value, the coverage mask left by the interval loop is set exactly at the
    grid points that lie in a fitted interval, and an index that is not
    covered carries the value of the global linear fit at its grid point. *)
Theorem interpolate_every_grid_point_valued {L : NumLib} fuel x_vals y_vals
    order delta keep_old mode max_interval :
  (∀ xs g ivs lin,
     x_vals = Datetimes xs →
     mode ∈ ["bspline"; "interp1d"; "univ"] →
     build_grid fuel xs delta keep_old = Ok g →
     identifyTimeIntervals xs max_interval = Ok ivs →
     (∀ t, t ∈ ivs →
        fitted xs y_vals g order mode t = true ∨
        interval_values xs y_vals g order mode t = Raise ValueError) →
     interp1d (timestamp <$> xs) y_vals 1 = Ok lin →
     (∀ x, x ∈ g → ok (curve_call lin (timestamp x)) = true) →
     ∃ gy, interpolate fuel x_vals y_vals order delta keep_old mode max_interval
           = Ok (Datetimes g, gy, interpolated_indices g xs)) ∧
  (∀ gx gy inds,
     interpolate fuel x_vals y_vals order delta keep_old mode max_interval
     = Ok (gx, gy, inds) →
     length gy = axis_length gx ∧
     ∀ xs, x_vals = Datetimes xs →
       ∃ r, interpolate_datetime fuel xs y_vals order delta keep_old mode
              max_interval = Ok r ∧
         gx = Datetimes (r_x_interp r) ∧ gy = r_y_interp r ∧
         interp1d (timestamp <$> xs) y_vals 1 = Ok (r_linear r) ∧
         ∀ i x, r_x_interp r !! i = Some x →
           let c := covered xs y_vals (r_x_interp r) order mode
                      (r_time_intervals r) x in
           r_covered r !! i = Some c ∧
           ∃ v, gy !! i = Some v ∧
                (c = false → curve_call (r_linear r) (timestamp x) = Ok v)).
Proof.
  split.
  - intros xs g ivs lin -> Hmode Hgrid Hivs Hall Hlin Hcall.
    destruct (interpolate_datetime_returns fuel xs y_vals order delta keep_old
                mode max_interval g ivs lin Hgrid Hivs Hall Hlin Hcall)
      as [r Hr].
    destruct (interpolate_datetime_Ok _ _ _ _ _ _ _ _ _ Hr) as (Hgrid' & _).
    assert (r_x_interp r = g) as Hg by congruence.
    exists (r_y_interp r). unfold interpolate.
    rewrite decide_True by done. rewrite Hr. cbn [mbind res_bind].
    by rewrite Hg.
  - intros gx gy inds Hrun. destruct x_vals as [xs|xs].
    + apply interpolate_Datetimes_Ok in Hrun as (r & Hr & [= -> -> ->]).
      destruct (interpolate_datetime_Ok _ _ _ _ _ _ _ _ _ Hr)
        as (_ & _ & Hlin & Hly & _ & Hidx).
      split; [done|]. intros xs' [= <-]. exists r. split_and!; [done..|].
      intros i x Hx. destruct (Hidx i x Hx) as (Hc & v & Hv & Hval).
      cbv zeta. split; [done|]. exists v. split; [done|].
      intros Hfalse. by rewrite Hfalse in Hval.
    + split; [|done]. unfold interpolate in Hrun. case_decide; [|done].
      apply bind_Ok in Hrun as (x0 & _ & Hrun).
      apply bind_Ok in Hrun as ([g y] & Hnum & [= <- <- <-]).
      unfold interpolate_numeric in Hnum. destruct max_interval; [done|].
      apply bind_Ok in Hnum as (x0' & _ & Hnum).
      apply bind_Ok in Hnum as (xl & _ & Hnum).
      apply bind_Ok in Hnum as (grid & _ & Hnum).
      apply bind_Ok in Hnum as (x_interp & _ & Hnum).
      apply bind_Ok in Hnum as (func & _ & Hnum).
      apply bind_Ok in Hnum as (y' & Hy & [= <- <-]).
      simpl. by eapply mapM_Ok_length.
Qed.

(** C2, amended.  Every output point whose abscissa equals an original one is
    tagged Original (its index is not in [inds_interp]).  Its value is not a
    copy of the original value: it is the value at that abscissa of a curve
    fitted to samples that include the original one, namely the fit of the
    interval that contains it, or the global linear fit (on a numeric axis:
    the single fit of the whole series).  It equals the original value when
    that curve passes through the sample. *)
Theorem original_points_tagged_and_refitted {L : NumLib} fuel x_vals y_vals
    order delta keep_old mode max_interval gx gy inds :
  interpolate fuel x_vals y_vals order delta keep_old mode max_interval
  = Ok (gx, gy, inds) →
  match x_vals, gx with
  | Datetimes xs, Datetimes g =>
      ∃ ivs lin,
        identifyTimeIntervals xs max_interval = Ok ivs ∧
        interp1d (timestamp <$> xs) y_vals 1 = Ok lin ∧
        ∀ i x, g !! i = Some x → x ∈ xs →
          (i ∉ inds) ∧
          ∃ v, gy !! i = Some v ∧
            (fitted_value xs y_vals order mode ivs x v ∨
             curve_call lin (timestamp x) = Ok v)
  | Numbers xs, Numbers g =>
      ∃ func,
        fit mode xs y_vals order = Ok func ∧
        ∀ i x, g !! i = Some x → x ∈ xs →
          (i ∉ inds) ∧ ∃ v, gy !! i = Some v ∧ curve_call func x = Ok v
  | _, _ => False
  end.
Proof.
  intros Hrun. destruct x_vals as [xs|xs].
  - apply interpolate_Datetimes_Ok in Hrun as (r & Hr & [= -> -> ->]).
    destruct (interpolate_datetime_Ok _ _ _ _ _ _ _ _ _ Hr)
      as (_ & Hivs & Hlin & _ & _ & Hidx).
    exists (r_time_intervals r), (r_linear r). split_and!; [done..|].
    intros i x Hx Hin. split.
    + rewrite elem_of_interpolated_indices. intros (x' & Hx' & Hnot).
      by simplify_eq.
    + destruct (Hidx i x Hx) as (_ & v & Hv & Hval). exists v. split; [done|].
      destruct (covered _ _ _ _ _ _ _); eauto.
  - unfold interpolate in Hrun. case_decide; [|done].
    apply bind_Ok in Hrun as (x0 & _ & Hrun).
    apply bind_Ok in Hrun as ([g y] & Hnum & [= <- <- <-]).
    unfold interpolate_numeric in Hnum. destruct max_interval; [done|].
    apply bind_Ok in Hnum as (x0' & _ & Hnum).
    apply bind_Ok in Hnum as (xl & _ & Hnum).
    apply bind_Ok in Hnum as (grid & _ & Hnum).
    apply bind_Ok in Hnum as (x_interp & _ & Hnum).
    apply bind_Ok in Hnum as (func & Hfit & Hnum).
    apply bind_Ok in Hnum as (y' & Hy & [= <- <-]).
    exists func. split; [done|]. intros i x Hx Hin. split.
    + rewrite elem_of_interpolated_indices. intros (x' & Hx' & Hnot).
      by simplify_eq.
    + destruct (mapM_Ok_lookup _ _ _ _ _ Hy Hx) as (v & Hv & Hlook). eauto.
Qed.

(** C5, amended.  In a sorted datetime series, an interval of the
    segmentation whose fit raises [ValueError] is skipped: the loop state is
    left as it was, and whenever [interpolate] returns, the grid points
    inside that interval are not marked as covered and carry the value of the
    global linear fit.  The call does return when, in addition, no other
    interval raises anything but [ValueError] and the global linear fit
    exists and has a value at every grid point; it does not return when the
    global linear fit is itself infeasible. *)
Theorem infeasible_interval_skipped {L : NumLib} fuel x_vals y_vals order delta
    keep_old mode max_interval x_interp ivs t :
  Sorted Z.le x_vals →
  build_grid fuel x_vals delta keep_old = Ok x_interp →
  identifyTimeIntervals x_vals max_interval = Ok ivs →
  t ∈ ivs →
  interval_fit x_vals y_vals order mode t = Raise ValueError →
  (∀ st, fit_interval x_vals y_vals x_interp order mode st t = Ok st) ∧
  (∀ r, interpolate_datetime fuel x_vals y_vals order delta keep_old mode
          max_interval = Ok r →
     ∀ i x, x_interp !! i = Some x → in_interval t x = true →
       r_covered r !! i = Some false ∧
       ∃ v, curve_call (r_linear r) (timestamp x) = Ok v ∧
            r_y_interp r !! i = Some v) ∧
  (∀ lin,
     (∀ t', t' ∈ ivs →
        fitted x_vals y_vals x_interp order mode t' = true ∨
        interval_values x_vals y_vals x_interp order mode t' = Raise ValueError) →
     interp1d (timestamp <$> x_vals) y_vals 1 = Ok lin →
     (∀ x, x ∈ x_interp → ok (curve_call lin (timestamp x)) = true) →
     ∃ r, interpolate_datetime fuel x_vals y_vals order delta keep_old mode
            max_interval = Ok r) ∧
  (∀ e, interp1d (timestamp <$> x_vals) y_vals 1 = Raise e →
     ∀ r, interpolate_datetime fuel x_vals y_vals order delta keep_old mode
            max_interval ≠ Ok r).
Proof.
  intros Hs Hgrid Hivs Ht Hfit.
  pose proof (interval_fit_raises _ _ x_interp _ _ _ _ Hfit) as Hvals.
  split_and!.
  - intros st. by apply fit_interval_skip.
  - intros r Hr i x Hx Hin.
    destruct (interpolate_datetime_Ok _ _ _ _ _ _ _ _ _ Hr)
      as (Hgrid' & Hivs' & _ & _ & _ & Hidx).
    rewrite Hgrid in Hgrid'. injection Hgrid' as Hgx.
    rewrite Hivs in Hivs'. injection Hivs' as Hgi.
    rewrite <-Hgx in Hidx. destruct (Hidx i x Hx) as (Hc & v & Hv & Hval).
    rewrite <-Hgi in Hc, Hval.
    assert (covered x_vals y_vals x_interp order mode ivs x = false) as Hcov.
    { unfold covered. apply not_true_is_false. intros Hex.
      apply existsb_exists in Hex as (t' & Ht' & Hboth).
      apply andb_true_iff in Hboth as [Hin' Hfitted].
      apply list_elem_of_In in Ht'.
      assert (t' = t) as -> by (by eapply identifyTimeIntervals_disjoint).
      unfold fitted in Hfitted. by rewrite Hvals in Hfitted. }
    rewrite Hcov in Hc, Hval. eauto.
  - intros lin Hall Hlin Hcall. by eapply interpolate_datetime_returns.
  - intros e He r Hr.
    destruct (interpolate_datetime_Ok _ _ _ _ _ _ _ _ _ Hr)
      as (_ & _ & Hlin & _). congruence.
Qed.

(** C10.  On a numeric axis [interpolate] raises [AssertionError] whenever
    [max_interval] is set. *)
Theorem interpolate_numeric_axis_rejects_max_interval {L : NumLib} fuel
    (x_vals : list float) y_vals order delta keep_old mode (m : Z) :
  x_vals ≠ [] →
  interpolate fuel (Numbers x_vals) y_vals order delta keep_old mode (Some m)
  = Raise AssertionError.
Proof.
  intros Hne. unfold interpolate. case_decide; [|done].
  destruct x_vals as [|x0 xs]; [done|]. reflexivity.
Qed.

(** ** A series of one sample *)

Lemma sorted_datetimes_pair x0 : sorted_datetimes ([x0] ++ [x0]) = [x0].
Proof.
  unfold sorted_datetimes. cbn [app remove_dups].
  destruct (decide_rel elem_of x0 [x0]) as [_|Hn]; [reflexivity|].
  exfalso. apply Hn. by left.
Qed.

Lemma build_grid_single {F} fuel x0 d keep_old g :
  0 < d → build_grid (F:=F) fuel [x0] (Timedelta d) keep_old = Ok g → g = [x0].
Proof.
  intros Hd. unfold build_grid. cbn [getitem_first head mbind res_bind].
  destruct fuel as [|fuel]; [done|]. cbn [grid_loop getitem_last last mbind res_bind].
  unfold Datetime.add. case_bool_decide; [|done]. cbn [mbind res_bind].
  rewrite bool_decide_eq_false_2 by lia. cbn [mbind res_bind].
  intros [= <-]. destruct keep_old; [apply sorted_datetimes_pair|done].
Qed.

Lemma identifyTimeIntervals_single x0 max_interval ivs t :
  identifyTimeIntervals [x0] max_interval = Ok ivs → t ∈ ivs → t = (x0, x0).
Proof.
  unfold identifyTimeIntervals. destruct max_interval as [m|].
  - destruct (Datetime.of_minutes m); [|done..].
    cbn. intros [= <-]. by intros ?%elem_of_nil.
  - cbn. intros [= <-]. by intros ->%list_elem_of_singleton.
Qed.

(** With fuel for one round the grid of one sample is built, unless the
    first addition of the step leaves the range of [datetime]. *)
Lemma build_grid_single_cases {F} fuel x0 d keep_old :
  0 < d →
  build_grid (F:=F) (S fuel) [x0] (Timedelta d) keep_old = Ok [x0] ∨
  build_grid (F:=F) (S fuel) [x0] (Timedelta d) keep_old = Raise OverflowError.
Proof.
  intros Hd. unfold build_grid.
  cbn [getitem_first head mbind res_bind grid_loop getitem_last last].
  unfold Datetime.add. case_bool_decide; [left|by right].
  cbn [mbind res_bind]. rewrite bool_decide_eq_false_2 by lia.
  cbn [mbind res_bind]. destruct keep_old; [|done].
  by rewrite sorted_datetimes_pair.
Qed.

Lemma identifyTimeIntervals_single_cases x0 max_interval :
  identifyTimeIntervals [x0] max_interval = Ok [(x0, x0)] ∨
  identifyTimeIntervals [x0] max_interval = Ok [] ∨
  identifyTimeIntervals [x0] max_interval = Raise OverflowError.
Proof.
  unfold identifyTimeIntervals. destruct max_interval as [m|]; [|by left].
  right. unfold Datetime.of_minutes. cbv zeta.
  case_bool_decide; [left|by right]. reflexivity.
Qed.

(** C6, amended.  For a datetime series of exactly one sample and a positive
    step, the global linear fit is attempted on the single sample like on
    any other series.  If [interpolate] returns, that fit has succeeded, and
    the output is the single point at the sample's timestamp, tagged
    Original, whose value is the value there of the interval's fit or of the
    linear fit.  If the linear fit of a single sample raises, and the fit of
    the interval returns or raises, [interpolate] raises an exception: the
    call ends, and it ends without a result. *)
Theorem interpolate_single_sample {L : NumLib} fuel x0 y0 order d keep_old mode
    max_interval :
  0 < d →
  (∀ gx gy inds,
     interpolate fuel (Datetimes [x0]) [y0] order (Timedelta d) keep_old mode
       max_interval = Ok (gx, gy, inds) →
     gx = Datetimes [x0] ∧ inds = [] ∧
     ∃ lin v, interp1d [timestamp x0] [y0] 1 = Ok lin ∧ gy = [v] ∧
       (curve_call lin (timestamp x0) = Ok v ∨
        ∃ func, interval_fit [x0] [y0] order mode (x0, x0) = Ok func ∧
                curve_call func (timestamp x0) = Ok v)) ∧
  (∀ e, interp1d [timestamp x0] [y0] 1 = Raise e →
     interval_values [x0] [y0] [x0] order mode (x0, x0) ≠ Diverge →
     ∃ e', interpolate (S fuel) (Datetimes [x0]) [y0] order (Timedelta d)
             keep_old mode max_interval = Raise e').
Proof.
  intros Hd. split.
  { intros gx gy inds Hrun.
    apply interpolate_Datetimes_Ok in Hrun as (r & Hr & [= -> -> ->]).
    destruct (interpolate_datetime_Ok _ _ _ _ _ _ _ _ _ Hr)
      as (Hgrid & Hivs & Hlin & Hly & _ & Hidx).
    apply build_grid_single in Hgrid; [|done]. rewrite Hgrid in *.
    split; [done|]. split.
    { apply elem_of_nil_inv. intros i.
      rewrite elem_of_interpolated_indices. intros (x & Hx & Hnot).
      apply Hnot. destruct i; simplify_eq/=. by left. }
    destruct (Hidx 0%nat x0 eq_refl) as (_ & v & Hv & Hval).
    exists (r_linear r), v. split; [done|]. split.
    { destruct (r_y_interp r) as [|v' [|? ?]]; simplify_eq/=. done. }
    destruct (covered _ _ _ _ _ _ _); [right|by left].
    destruct Hval as (t & func & Ht & _ & Hfit & Hcall).
    apply (identifyTimeIntervals_single _ _ _ _ Hivs) in Ht as ->. eauto. }
  intros e He Hends. unfold interpolate.
  case_decide as Hmode; [|by eexists]. unfold interpolate_datetime.
  destruct (build_grid_single_cases (F:=float) fuel x0 d keep_old Hd)
    as [-> | ->]; [|by eexists].
  cbn [mbind res_bind].
  destruct (identifyTimeIntervals_single_cases x0 max_interval)
    as [-> |[-> | ->]]; [| |by eexists]; cbn [mbind res_bind fit_intervals].
  - unfold fit_interval, try_interval.
    destruct (interval_values [x0] [y0] [x0] order mode (x0, x0))
      as [vals|e0|]; [| |done].
    + cbn [mbind res_bind except_ValueError fmap list_fmap].
      rewrite He. by eexists.
    + destruct e0; cbn [mbind res_bind except_ValueError fmap list_fmap];
        try (by eexists).
      rewrite He. by eexists.
  - cbn [fmap list_fmap]. rewrite He. by eexists.
Qed.

(** ** Steps that are not positive, and empty input *)

Lemma grid_loop_zero_step x_vals xl : ∀ fuel acc cur,
  last x_vals = Some xl → last acc = Some cur → Datetime.valid cur → cur ≤ xl →
  grid_loop fuel acc x_vals 0 = Diverge.
Proof.
  induction fuel as [|fuel IH]; intros acc cur Hxl Hcur Hv Hle; [done|].
  cbn [grid_loop]. unfold getitem_last. rewrite Hcur, Hxl. cbn [mbind res_bind].
  unfold Datetime.add, Datetime.valid in *. rewrite Z.add_0_r.
  rewrite bool_decide_eq_true_2 by done. cbn [mbind res_bind].
  rewrite bool_decide_eq_true_2 by done.
  apply (IH _ cur); [done|by rewrite last_snoc|done..].
Qed.

Lemma grid_loop_negative_step x_vals xl d : ∀ fuel acc cur,
  d < 0 → last x_vals = Some xl → last acc = Some cur →
  cur ≤ xl → cur ≤ Datetime.max_us →
  (S (Z.to_nat (cur / - d)) ≤ fuel)%nat →
  grid_loop fuel acc x_vals d = Raise OverflowError.
Proof.
  induction fuel as [|fuel IH]; intros acc cur Hd Hxl Hcur Hle Hmax Hfuel; [lia|].
  cbn [grid_loop]. unfold getitem_last. rewrite Hcur, Hxl. cbn [mbind res_bind].
  unfold Datetime.add. case_bool_decide as Hin; [|done]. cbn [mbind res_bind].
  rewrite bool_decide_eq_true_2 by lia.
  apply (IH _ (cur + d)); [done..|by rewrite last_snoc|lia|lia|].
  assert (1 ≤ cur / - d) by (apply Z.div_le_lower_bound; lia).
  replace (cur + d) with (cur + (-1) * (- d)) by lia.
  rewrite Z.div_add by lia. lia.
Qed.

(** C4, amended.  There is no validation of the step or of the input and no
    InvalidConfiguration error.  With a valid interpolation mode: an empty
    input makes [interpolate] raise [IndexError]; on a sorted non-empty
    datetime series a zero step makes the grid loop run forever, and a
    negative step makes it run until datetime arithmetic leaves the
    representable range and raises [OverflowError]. *)
Theorem interpolate_unvalidated_configuration {L : NumLib} y_vals order
    keep_old mode max_interval :
  mode ∈ ["bspline"; "interp1d"; "univ"] →
  (∀ fuel delta,
     interpolate fuel (Datetimes []) y_vals order delta keep_old mode max_interval
     = Raise IndexError ∧
     interpolate fuel (Numbers []) y_vals order delta keep_old mode max_interval
     = Raise IndexError) ∧
  (∀ fuel x_vals x0 xl,
     Sorted Z.le x_vals → head x_vals = Some x0 → last x_vals = Some xl →
     Datetime.valid x0 →
     interpolate fuel (Datetimes x_vals) y_vals order (Timedelta 0) keep_old mode
       max_interval = Diverge) ∧
  (∀ fuel x_vals x0 xl d,
     Sorted Z.le x_vals → head x_vals = Some x0 → last x_vals = Some xl →
     Datetime.valid x0 → d < 0 → (S (Z.to_nat (x0 / - d)) ≤ fuel)%nat →
     interpolate fuel (Datetimes x_vals) y_vals order (Timedelta d) keep_old mode
       max_interval = Raise OverflowError).
Proof.
  intros Hmode.
  assert (∀ x_vals x0 xl, Sorted Z.le x_vals → head x_vals = Some x0 →
            last x_vals = Some xl → x0 ≤ xl) as Hbound.
  { intros x_vals x0 xl Hs H0 Hl.
    eapply (Sorted_le_bounds x_vals x0 xl xl); eauto. by eapply last_Some_elem_of. }
  split_and!.
  - intros fuel delta. unfold interpolate. rewrite !decide_True by done.
    split; reflexivity.
  - intros fuel x_vals x0 xl Hs H0 Hl Hv.
    unfold interpolate. rewrite decide_True by done.
    unfold interpolate_datetime, build_grid.
    apply getitem_first_Ok in H0 as H0'. rewrite H0'. cbn [mbind res_bind].
    rewrite (grid_loop_zero_step x_vals xl fuel [x0] x0); eauto.
  - intros fuel x_vals x0 xl d Hs H0 Hl Hv Hd Hfuel.
    unfold interpolate. rewrite decide_True by done.
    unfold interpolate_datetime, build_grid.
    apply getitem_first_Ok in H0 as H0'. rewrite H0'. cbn [mbind res_bind].
    rewrite (grid_loop_negative_step x_vals xl d fuel [x0] x0); eauto.
    destruct Hv. done.
Qed.

(** ** The object store: what a call leaves of the caller's objects *)

Section store_frame.
Context {L : NumLib}.
Implicit Types h : gmap positive pyobj.

Lemma keeps_ret {A} (h0 : gmap positive pyobj) (a : A) (Q : A → Prop) : Q a → keeps h0 (ret_h a) Q.
Proof. intros HQ h Hsub. split; [done|]. by intros a' [= <-]. Qed.

Lemma keeps_lift {A} (h0 : gmap positive pyobj) (r : res A) (Q : A → Prop) :
  (∀ a, r = Ok a → Q a) → keeps h0 (lift r) Q.
Proof. intros HQ h Hsub. split; [done|]. exact HQ. Qed.

Lemma keeps_bind {A B} (h0 : gmap positive pyobj) (m : M A) (f : A → M B) (Q : A → Prop)
    (R : B → Prop) :
  keeps h0 m Q → (∀ a, Q a → keeps h0 (f a) R) → keeps h0 (bind_h m f) R.
Proof.
  intros Hm Hf h Hsub. unfold bind_h.
  destruct (Hm h Hsub) as [Hsub' HQ].
  destruct (m h) as [[a|e|] h']; simpl in *; [|done..].
  apply Hf; [by apply HQ|done].
Qed.

Lemma keeps_weaken {A} (h0 : gmap positive pyobj) (m : M A) (Q R : A → Prop) :
  keeps h0 m Q → (∀ a, Q a → R a) → keeps h0 m R.
Proof.
  intros Hm HQR h Hsub. destruct (Hm h Hsub) as [? HQ]. split; [done|].
  intros a Ha. by apply HQR, HQ.
Qed.

(** A new object is none of the caller's. *)
Lemma keeps_alloc (h0 : gmap positive pyobj) o : keeps h0 (alloc o) (λ l, h0 !! l = None).
Proof.
  intros h Hsub. unfold alloc. cbn [fst snd].
  assert (h !! fresh (dom h) = None) as Hfresh.
  { apply not_elem_of_dom. apply is_fresh. }
  assert (h0 !! fresh (dom h) = None) as Hfresh0.
  { destruct (h0 !! fresh (dom h)) as [o'|] eqn:Ho; [|done].
    eapply lookup_weaken in Ho; [|exact Hsub]. congruence. }
  split.
  - by apply insert_subseteq_r.
  - by intros l [= <-].
Qed.

Lemma keeps_load (h0 : gmap positive pyobj) l : keeps h0 (load l) (λ _, True).
Proof. intros h Hsub. unfold load. by destruct (h !! l). Qed.

(** A change in place of an object that is not the caller's. *)
Lemma keeps_store (h0 : gmap positive pyobj) l o : h0 !! l = None → keeps h0 (store l o) (λ _, True).
Proof.
  intros Hl h Hsub. unfold store. cbn [fst snd]. split; [|done].
  by apply insert_subseteq_r.
Qed.

Lemma keeps_load_datetimes (h0 : gmap positive pyobj) l : keeps h0 (load_datetimes l) (λ _, True).
Proof.
  eapply keeps_bind; [apply keeps_load|]. intros [ | | ] _;
    first [by apply keeps_ret | by apply keeps_lift].
Qed.

Lemma keeps_load_floats (h0 : gmap positive pyobj) l : keeps h0 (load_floats l) (λ _, True).
Proof.
  eapply keeps_bind; [apply keeps_load|]. intros [ | | ] _;
    first [by apply keeps_ret | by apply keeps_lift].
Qed.

Lemma keeps_load_intervals (h0 : gmap positive pyobj) l : keeps h0 (load_intervals l) (λ _, True).
Proof.
  eapply keeps_bind; [apply keeps_load|]. intros [ | | ] _;
    first [by apply keeps_ret | by apply keeps_lift].
Qed.

Lemma keeps_getitem (h0 : gmap positive pyobj) l i : keeps h0 (getitem_h l i) (λ _, True).
Proof.
  eapply keeps_bind; [apply keeps_load_datetimes|]. intros xs _.
  destruct (xs !! i); first [by apply keeps_ret | by apply keeps_lift].
Qed.

(** Steps that only read the store or compute. *)
Local Ltac reads :=
  repeat (eapply (keeps_bind _ _ _ (λ _, True));
          [first [apply keeps_load_datetimes
                 |apply keeps_load_floats
                 |apply keeps_load_intervals
                 |apply keeps_getitem
                 |apply keeps_load
                 |by apply keeps_lift]|intros ? _]).

Lemma keeps_segment_loop (h0 : gmap positive pyobj) times mi intervals : ∀ indices start,
  h0 !! intervals = None →
  keeps h0 (segment_loop_h times mi intervals start indices) (λ _, True).
Proof.
  induction indices as [|i rest IH]; intros start Hfresh.
  - by apply keeps_ret.
  - cbn [segment_loop_h]. reads.
    case_bool_decide; destruct start; try by apply IH.
    reads. eapply keeps_bind; [by apply keeps_store|]. intros _ _.
    by apply IH.
Qed.

Lemma keeps_identifyTimeIntervals (h0 : gmap positive pyobj) times max_interval :
  keeps h0 (identifyTimeIntervals_h times max_interval) (λ _, True).
Proof.
  unfold identifyTimeIntervals_h. destruct max_interval as [m|].
  - reads. eapply keeps_bind; [apply keeps_alloc|]. intros intervals Hfresh.
    reads. eapply keeps_bind; [by apply keeps_segment_loop|]. intros start _.
    reads. case_bool_decide.
    + reads. eapply keeps_weaken; [apply keeps_alloc|done].
    + by apply keeps_ret.
  - reads. eapply keeps_weaken; [apply keeps_alloc|done].
Qed.

Lemma keeps_grid_loop (h0 : gmap positive pyobj) x_interp x_vals d : ∀ fuel,
  h0 !! x_interp = None →
  keeps h0 (grid_loop_h fuel x_interp x_vals d) (λ _, True).
Proof.
  induction fuel as [|fuel IH]; intros Hfresh.
  - by apply keeps_lift.
  - cbn [grid_loop_h]. reads. case_bool_decide.
    + eapply keeps_bind; [by apply keeps_store|]. intros _ _. by apply IH.
    + by apply keeps_ret.
Qed.

Lemma keeps_build_grid (h0 : gmap positive pyobj) fuel x_vals delta keep_old :
  keeps h0 (build_grid_h fuel x_vals delta keep_old) (λ l, h0 !! l = None).
Proof.
  unfold build_grid_h. reads.
  eapply keeps_bind; [apply keeps_alloc|]. intros x_interp Hfresh.
  eapply keeps_bind.
  { destruct delta; [by apply keeps_grid_loop|by apply keeps_lift]. }
  intros _ _. destruct keep_old.
  - reads. apply keeps_alloc.
  - by apply keeps_ret.
Qed.

Lemma keeps_fit_intervals (h0 : gmap positive pyobj) x_vals y_vals x_interp order mode y_interp :
  ∀ ts masks,
  h0 !! y_interp = None →
  keeps h0 (fit_intervals_h x_vals y_vals x_interp order mode y_interp masks ts)
    (λ _, True).
Proof.
  induction ts as [|t rest IH]; intros masks Hfresh.
  - by apply keeps_ret.
  - cbn [fit_intervals_h]. reads.
    destruct (interval_values _ _ _ _ _ _) as [vals|e|].
    + reads. eapply keeps_bind; [by apply keeps_store|]. intros _ _.
      by apply IH.
    + destruct e; first [by apply IH | by apply keeps_lift].
    + by apply keeps_lift.
Qed.

Lemma keeps_interpolate_datetime (h0 : gmap positive pyobj) fuel x_vals y_vals order delta keep_old
    mode max_interval :
  keeps h0 (interpolate_datetime_h fuel x_vals y_vals order delta keep_old mode
              max_interval) (λ _, True).
Proof.
  unfold interpolate_datetime_h.
  eapply keeps_bind; [apply keeps_build_grid|]. intros x_interp _.
  reads. eapply keeps_bind; [apply keeps_alloc|]. intros y_interp Hfresh.
  reads. eapply keeps_bind; [apply keeps_identifyTimeIntervals|]. intros ts _.
  reads. eapply keeps_bind; [by apply keeps_fit_intervals|]. intros masks _.
  reads. eapply keeps_bind; [by apply keeps_store|]. intros _ _.
  reads. by apply keeps_ret.
Qed.

Lemma keeps_interpolate (h0 : gmap positive pyobj) fuel x_vals y_vals order delta keep_old mode
    max_interval :
  keeps h0 (interpolate_h fuel x_vals y_vals order delta keep_old mode
              max_interval) (λ _, True).
Proof.
  unfold interpolate_h. case_decide; [|by apply keeps_lift].
  reads. match goal with |- keeps _ (if ?b then _ else _) _ => destruct b end.
  - apply keeps_interpolate_datetime.
  - reads. match goal with |- keeps _ (let '(_, _) := ?p in _) _ =>
             destruct p end.
    by apply keeps_ret.
Qed.

End store_frame.

(** ** The object store: the same results as the first model *)

Section store_refinement.
Context {L : NumLib}.
Implicit Types h : gmap positive pyobj.

Lemma simulates_bind {A B A' B'} (r : res A) (m : M B) (f : A → res A')
    (g : B → M B') h (post : A → B → gmap positive pyobj → Prop)
    (post' : A' → B' → gmap positive pyobj → Prop) :
  simulates r (m h) post →
  (∀ a b h', post a b h' → simulates (f a) (g b h') post') →
  simulates (r ≫= f) (bind_h m g h) post'.
Proof.
  intros Hm Hg. unfold bind_h. destruct r as [a|e|]; cbn [mbind res_bind].
  - destruct Hm as (b & h' & -> & Hpost). by apply Hg.
  - simpl in Hm. destruct (m h) as [[b|e'|] h']; simpl in *; by simplify_eq.
  - simpl in Hm. destruct (m h) as [[b|e'|] h']; simpl in *; by simplify_eq.
Qed.

Lemma simulates_ret {A B} (a : A) (b : B) h
    (post : A → B → gmap positive pyobj → Prop) :
  post a b h → simulates (Ok a) (ret_h b h) post.
Proof. intros Hpost. simpl. eauto. Qed.

Lemma simulates_weaken {A B} (r : res A) (p : res B * gmap positive pyobj)
    (post post' : A → B → gmap positive pyobj → Prop) :
  simulates r p post → (∀ a b h', post a b h' → post' a b h') →
  simulates r p post'.
Proof.
  intros Hs Himp. destruct r as [a|e|]; simpl in *; [|done..].
  destruct Hs as (b & h' & -> & Hpost). eauto.
Qed.

(** With equal results on both sides the outcomes are equal. *)
Lemma simulates_outcome {A} (r : res A) (p : res A * gmap positive pyobj)
    (post : A → A → gmap positive pyobj → Prop) :
  simulates r p post → (∀ a b h', post a b h' → a = b) → p.1 = r.
Proof.
  intros Hs Heq. destruct r as [a|e|]; simpl in *; [|done..].
  destruct Hs as (b & h' & -> & Hpost). simpl. f_equal. symmetry. eauto.
Qed.

Lemma load_datetimes_eq l xs h :
  h !! l = Some (ObjDatetimes xs) → load_datetimes l h = (Ok xs, h).
Proof. intros Hl. unfold load_datetimes, bind_h, load. by rewrite Hl. Qed.

Lemma load_floats_eq l ys h :
  h !! l = Some (ObjFloats ys) → load_floats l h = (Ok ys, h).
Proof. intros Hl. unfold load_floats, bind_h, load. by rewrite Hl. Qed.

Lemma load_intervals_eq l ts h :
  h !! l = Some (ObjIntervals ts) → load_intervals l h = (Ok ts, h).
Proof. intros Hl. unfold load_intervals, bind_h, load. by rewrite Hl. Qed.

Lemma bind_h_eq {A B} (m : M A) (f : A → M B) h a h' :
  m h = (Ok a, h') → bind_h m f h = f a h'.
Proof. intros Hm. unfold bind_h. by rewrite Hm. Qed.

Lemma getitem_h_eq l xs i h :
  h !! l = Some (ObjDatetimes xs) → (i < length xs)%nat →
  getitem_h l i h = (Ok (nth i xs 0), h).
Proof.
  intros Hl Hi. unfold getitem_h.
  rewrite (bind_h_eq _ _ _ _ _ (load_datetimes_eq _ _ _ Hl)).
  destruct (lookup_lt_is_Some_2 xs i Hi) as [x Hx].
  by rewrite Hx, (nth_lookup_Some _ _ _ _ Hx).
Qed.

Lemma segment_loop_h_eq times mi intervals xs : ∀ indices start ivs h,
  h !! times = Some (ObjDatetimes xs) →
  h !! intervals = Some (ObjIntervals ivs) →
  Forall (λ i, (1 ≤ i < length xs)%nat) indices →
  segment_loop_h times mi intervals start indices h
  = (Ok (foldl (segment_step xs mi) (start, ivs) indices).1,
     <[intervals :=
         ObjIntervals (foldl (segment_step xs mi) (start, ivs) indices).2]> h).
Proof.
  induction indices as [|i rest IH]; intros start ivs h Ht Hi Hall.
  - cbn. by rewrite insert_id.
  - apply Forall_cons in Hall as [Hrange Hall].
    assert (times ≠ intervals) as Hne by (intros ->; congruence).
    cbn [segment_loop_h foldl].
    rewrite (bind_h_eq _ _ _ _ _ (getitem_h_eq _ _ i _ Ht ltac:(lia))).
    rewrite (bind_h_eq _ _ _ _ _ (getitem_h_eq _ _ (i - 1) _ Ht ltac:(lia))).
    unfold segment_step at 2 4. case_bool_decide; destruct start as [s|].
    + by apply IH.
    + by apply IH.
    + rewrite (bind_h_eq _ _ _ _ _ (load_intervals_eq _ _ _ Hi)).
      unfold bind_h at 1, store.
      rewrite (IH None (ivs ++ [(s, nth (i - 1) xs 0)]));
        [|by rewrite lookup_insert_ne|by rewrite lookup_insert_eq|done].
      by rewrite insert_insert_eq.
    + by apply IH.
Qed.

Lemma fresh_lookup h : h !! fresh (dom h) = None.
Proof. apply not_elem_of_dom, is_fresh. Qed.

Lemma simulates_identifyTimeIntervals times xs max_interval h :
  h !! times = Some (ObjDatetimes xs) →
  simulates (identifyTimeIntervals xs max_interval)
    (identifyTimeIntervals_h times max_interval h)
    (λ ivs l h', h ⊆ h' ∧ h' !! l = Some (ObjIntervals ivs)).
Proof.
  intros Ht. unfold identifyTimeIntervals, identifyTimeIntervals_h.
  pose proof (fresh_lookup h) as Hfresh.
  destruct max_interval as [m|].
  - destruct (Datetime.of_minutes m) as [mi|e|]; [|done..].
    cbn [mbind res_bind]. unfold bind_h at 1, lift at 1.
    unfold bind_h at 1, alloc at 1.
    set (l0 := fresh (dom h)) in *. set (h1 := <[l0 := ObjIntervals []]> h).
    assert (h ⊆ h1) as Hsub1 by (by apply insert_subseteq).
    assert (h1 !! times = Some (ObjDatetimes xs)) as Ht1
      by (by eapply lookup_weaken).
    rewrite (bind_h_eq _ _ _ _ _ (load_datetimes_eq _ _ _ Ht1)).
    rewrite (bind_h_eq _ _ _ _ _
      (segment_loop_h_eq times mi l0 xs (seq 1 (length xs - 1)) None [] h1 Ht1
         ltac:(by apply lookup_insert_eq)
         ltac:(apply Forall_forall; intros i Hi%elem_of_seq; lia))).
    fold (segment_loop xs mi).
    destruct (segment_loop xs mi) as [start ivs]. cbn [fst snd].
    set (h2 := <[l0 := ObjIntervals ivs]> h1).
    assert (h ⊆ h2) as Hsub2.
    { unfold h2, h1. rewrite insert_insert_eq. by apply insert_subseteq. }
    assert (h2 !! times = Some (ObjDatetimes xs)) as Ht2
      by exact (lookup_weaken _ _ _ _ Ht Hsub2).
    rewrite (bind_h_eq _ _ _ _ _ (load_datetimes_eq _ _ _ Ht2)).
    unfold bind_h at 1, lift at 1.
    destruct (getitem_first xs) as [t0|e|]; [|done..]. cbn [mbind res_bind].
    case_bool_decide.
    + rewrite (bind_h_eq _ _ _ _ _ (load_datetimes_eq _ _ _ Ht2)).
      unfold bind_h at 1, lift at 1.
      destruct (getitem_last xs) as [tl|e|]; [|done..]. cbn [mbind res_bind].
      unfold alloc. eexists _, _. split; [done|]. split.
      * etrans; [exact Hsub2|]. apply insert_subseteq, fresh_lookup.
      * apply lookup_insert_eq.
    + eexists _, _. split; [done|]. split; [done|]. apply lookup_insert_eq.
  - rewrite (bind_h_eq _ _ _ _ _ (load_datetimes_eq _ _ _ Ht)).
    unfold bind_h at 1, lift at 1.
    destruct (getitem_first xs) as [t0|e|]; [|done..]. cbn [mbind res_bind].
    rewrite (bind_h_eq _ _ _ _ _ (load_datetimes_eq _ _ _ Ht)).
    unfold bind_h at 1, lift at 1.
    destruct (getitem_last xs) as [tl|e|]; [|done..]. cbn [mbind res_bind].
    unfold alloc. eexists _, _. split; [done|]. split.
    + by apply insert_subseteq.
    + apply lookup_insert_eq.
Qed.

Lemma simulates_grid_loop x_interp x_vals xs d : ∀ fuel g h,
  h !! x_interp = Some (ObjDatetimes g) →
  h !! x_vals = Some (ObjDatetimes xs) →
  x_interp ≠ x_vals →
  simulates (grid_loop fuel g xs d) (grid_loop_h fuel x_interp x_vals d h)
    (λ g' _ h', h' = <[x_interp := ObjDatetimes g']> h).
Proof.
  induction fuel as [|fuel IH]; intros g h Hg Hx Hne; [done|].
  cbn [grid_loop grid_loop_h].
  rewrite (bind_h_eq _ _ _ _ _ (load_datetimes_eq _ _ _ Hg)).
  unfold bind_h at 1, lift at 1.
  destruct (getitem_last g) as [cur|e|]; [|done..]. cbn [mbind res_bind].
  unfold bind_h at 1, lift at 1.
  destruct (Datetime.add cur d) as [nxt|e|]; [|done..]. cbn [mbind res_bind].
  rewrite (bind_h_eq _ _ _ _ _ (load_datetimes_eq _ _ _ Hx)).
  unfold bind_h at 1, lift at 1.
  destruct (getitem_last xs) as [xl|e|]; [|done..]. cbn [mbind res_bind].
  case_bool_decide.
  - unfold bind_h at 1, store.
    eapply simulates_weaken.
    + apply IH; [by apply lookup_insert_eq|by rewrite lookup_insert_ne|done].
    + intros g' _ h' ->. by rewrite insert_insert_eq.
  - simpl. eexists _, _. split; [done|]. by rewrite insert_id.
Qed.

Lemma simulates_build_grid fuel x_vals xs delta keep_old h :
  h !! x_vals = Some (ObjDatetimes xs) →
  simulates (build_grid fuel xs delta keep_old)
    (build_grid_h fuel x_vals delta keep_old h)
    (λ g l h', h ⊆ h' ∧ h' !! l = Some (ObjDatetimes g) ∧ h !! l = None).
Proof.
  intros Hx. unfold build_grid, build_grid_h.
  rewrite (bind_h_eq _ _ _ _ _ (load_datetimes_eq _ _ _ Hx)).
  unfold bind_h at 1, lift at 1.
  destruct (getitem_first xs) as [x0|e|]; [|done..]. cbn [mbind res_bind].
  unfold bind_h at 1, alloc at 1.
  pose proof (fresh_lookup h) as Hfresh.
  set (l0 := fresh (dom h)) in *. set (h1 := <[l0 := ObjDatetimes [x0]]> h).
  assert (h ⊆ h1) as Hsub1 by (by apply insert_subseteq).
  assert (l0 ≠ x_vals) as Hne by (intros ->; congruence).
  eapply (simulates_bind _ _ _ _ _
            (λ g (_ : unit) h', h' = <[l0 := ObjDatetimes g]> h1)).
  { destruct delta as [d|r]; [|done].
    apply simulates_grid_loop; [by apply lookup_insert_eq| |done].
    by eapply lookup_weaken. }
  intros g _ h' ->. unfold h1. rewrite insert_insert_eq.
  set (h2 := <[l0 := ObjDatetimes g]> h).
  assert (h ⊆ h2) as Hsub2 by (by apply insert_subseteq).
  destruct keep_old.
  - rewrite (bind_h_eq _ _ _ _ _
      (load_datetimes_eq l0 g h2 ltac:(by apply lookup_insert_eq))).
    rewrite (bind_h_eq _ _ _ _ _
      (load_datetimes_eq x_vals xs h2 ltac:(by eapply lookup_weaken))).
    unfold alloc. simpl. eexists _, _. split; [done|].
    pose proof (fresh_lookup h2) as Hfresh2. split_and!.
    + etrans; [exact Hsub2|]. by apply insert_subseteq.
    + apply lookup_insert_eq.
    + destruct (h !! fresh (dom h2)) as [o|] eqn:Ho; [|done].
      eapply lookup_weaken in Ho; [|exact Hsub2]. congruence.
  - apply simulates_ret. split_and!; [done|by apply lookup_insert_eq|done].
Qed.

Lemma simulates_fit_intervals x_vals xs ys x_interp g order mode ly :
  ∀ ts st h,
  h !! x_vals = Some (ObjDatetimes xs) →
  h !! x_interp = Some (ObjDatetimes g) →
  h !! ly = Some (ObjFloats (y_interp st)) →
  simulates (fit_intervals xs ys g order mode st ts)
    (fit_intervals_h x_vals ys x_interp order mode ly
       (valid_inds st, valid_inds_interp st) ts h)
    (λ st' masks h',
       h' = <[ly := ObjFloats (y_interp st')]> h ∧
       masks = (valid_inds st', valid_inds_interp st')).
Proof.
  induction ts as [|t rest IH]; intros st h Hx Hg Hy.
  - simpl. eexists _, _. split; [done|]. by rewrite insert_id.
  - assert (ly ≠ x_vals) as Hne1 by (intros ->; congruence).
    assert (ly ≠ x_interp) as Hne2 by (intros ->; congruence).
    cbn [fit_intervals fit_intervals_h].
    rewrite (bind_h_eq _ _ _ _ _ (load_datetimes_eq _ _ _ Hx)).
    rewrite (bind_h_eq _ _ _ _ _ (load_datetimes_eq _ _ _ Hg)).
    unfold fit_interval, try_interval.
    destruct (interval_values xs ys g order mode t) as [vals|e|];
      cbn [mbind res_bind except_ValueError fst snd].
    + rewrite (bind_h_eq _ _ _ _ _ (load_floats_eq _ _ _ Hy)).
      unfold bind_h at 1, store.
      eapply simulates_weaken.
      * apply (IH {| y_interp := mask_assign (in_interval t <$> g) vals (y_interp st);
                     valid_inds := zip_with orb (valid_inds st) (in_interval t <$> xs);
                     valid_inds_interp :=
                       zip_with orb (valid_inds_interp st) (in_interval t <$> g) |});
          [by rewrite lookup_insert_ne..|by apply lookup_insert_eq].
      * intros st' masks h' [-> ->]. by rewrite insert_insert_eq.
    + destruct e; try done. by apply IH.
    + done.
Qed.

Lemma res_bind_assoc {A B C} (m : res A) (f : A → res B) (k : B → res C) :
  (m ≫= f) ≫= k = m ≫= (λ a, f a ≫= k).
Proof. by destruct m. Qed.

Lemma simulates_interpolate_datetime fuel x_vals y_vals xs ys order delta
    keep_old mode max_interval h :
  h !! x_vals = Some (ObjDatetimes xs) →
  h !! y_vals = Some (ObjFloats ys) →
  simulates
    (interpolate_datetime fuel xs ys order delta keep_old mode max_interval
     ≫= λ r, Ok (Datetimes (r_x_interp r), r_y_interp r,
                 interpolated_indices (r_x_interp r) xs))
    (interpolate_datetime_h fuel x_vals y_vals order delta keep_old mode
       max_interval h)
    (λ a b _, a = b).
Proof.
  intros Hx Hy. unfold interpolate_datetime, interpolate_datetime_h.
  rewrite res_bind_assoc.
  eapply simulates_bind; [by apply simulates_build_grid|].
  intros g lx h1 (Hsub1 & Hlx & _). cbn beta.
  rewrite (bind_h_eq _ _ _ _ _ (load_datetimes_eq _ _ _ Hlx)).
  unfold bind_h at 1, alloc at 1.
  pose proof (fresh_lookup h1) as Hfresh.
  set (ly := fresh (dom h1)) in *.
  set (h2 := <[ly := ObjFloats (replicate (length g) np_zero)]> h1).
  assert (h1 ⊆ h2) as Hsub2 by (by apply insert_subseteq).
  assert (h2 !! x_vals = Some (ObjDatetimes xs)) as Hx2.
  { eapply lookup_weaken; [|exact Hsub2]. by eapply lookup_weaken. }
  assert (h2 !! y_vals = Some (ObjFloats ys)) as Hy2.
  { eapply lookup_weaken; [|exact Hsub2]. by eapply lookup_weaken. }
  rewrite (bind_h_eq _ _ _ _ _ (load_datetimes_eq _ _ _ Hx2)).
  rewrite (bind_h_eq _ _ _ _ _ (load_floats_eq _ _ _ Hy2)).
  rewrite res_bind_assoc.
  eapply simulates_bind; [by apply simulates_identifyTimeIntervals|].
  intros ivs li h3 (Hsub3 & Hli). cbn beta.
  rewrite (bind_h_eq _ _ _ _ _ (load_intervals_eq _ _ _ Hli)).
  rewrite res_bind_assoc.
  set (st0 := {| y_interp := replicate (length g) np_zero;
                 valid_inds := replicate (length xs) false;
                 valid_inds_interp := replicate (length g) false |}).
  assert (h3 !! x_vals = Some (ObjDatetimes xs)) as Hx3
    by exact (lookup_weaken _ _ _ _ Hx2 Hsub3).
  assert (h3 !! lx = Some (ObjDatetimes g)) as Hlx3.
  { eapply lookup_weaken; [|exact Hsub3]. by eapply lookup_weaken. }
  assert (h3 !! ly = Some (ObjFloats (y_interp st0))) as Hly3.
  { eapply lookup_weaken; [|exact Hsub3]. apply lookup_insert_eq. }
  eapply simulates_bind.
  { exact (simulates_fit_intervals x_vals xs ys lx g order mode ly ivs st0 h3
             Hx3 Hlx3 Hly3). }
  intros st masks h4 [-> ->]. cbn beta. cbn [fst snd].
  assert (ly ≠ x_vals) as Hne by (intros Heq; rewrite Heq in Hly3; congruence).
  unfold bind_h at 1, lift at 1.
  destruct (interp1d (timestamp <$> xs) ys 1) as [func|e|]; [|done..].
  cbn [mbind res_bind]. unfold bind_h at 1, lift at 1.
  destruct (mask_select _ _) as [sel|e|]; [|done..].
  cbn [mbind res_bind]. unfold bind_h at 1, lift at 1.
  destruct (mapM (curve_call func) sel) as [vals|e|]; [|done..].
  cbn [mbind res_bind].
  rewrite (bind_h_eq _ _ _ _ _
    (load_floats_eq ly (y_interp st) _ ltac:(by apply lookup_insert_eq))).
  unfold bind_h at 1, store. rewrite insert_insert_eq.
  rewrite (bind_h_eq _ _ _ _ _
    (load_floats_eq ly _ _ ltac:(by apply lookup_insert_eq))).
  rewrite (bind_h_eq _ _ _ _ _
    (load_datetimes_eq x_vals xs _ ltac:(by rewrite lookup_insert_ne))).
  simpl. eauto.
Qed.

(** Started on references to the same lists, the second writing of
    [interpolate] has the outcome of the first: the same result, the same
    exception, or no result for the same fuel. *)
Lemma interpolate_h_outcome fuel x_vals y_vals (xs : axis) ys order delta
    keep_old mode max_interval h :
  h !! x_vals = Some (axis_object xs) →
  h !! y_vals = Some (ObjFloats ys) →
  (interpolate_h fuel x_vals y_vals order delta keep_old mode max_interval h).1
  = interpolate fuel xs ys order delta keep_old mode max_interval.
Proof.
  intros Hx Hy. unfold interpolate_h, interpolate.
  case_decide; [|done].
  unfold bind_h at 1, load at 1. rewrite Hx.
  destruct xs as [l|l]; cbn [axis_object] in *.
  - destruct l as [|x0 l].
    + reflexivity.
    + unfold bind_h at 1, lift at 1. cbn [first_is_datetime].
      eapply simulates_outcome.
      * by apply simulates_interpolate_datetime.
      * done.
  - destruct l as [|x0 l].
    + reflexivity.
    + unfold bind_h at 1, lift at 1. cbn [first_is_datetime].
      rewrite (bind_h_eq _ _ _ _ _ (load_floats_eq _ _ _ Hx)).
      rewrite (bind_h_eq _ _ _ _ _ (load_floats_eq _ _ _ Hy)).
      cbn [getitem_first head mbind res_bind].
      unfold bind_h, lift.
      by destruct (interpolate_numeric _ _ _ _ _ _ _) as [[gx gy]|e|].
Qed.

End store_refinement.

(** C9.  Every object of the store in which a call starts, the caller's
    [x_vals] and [y_vals] and the [times] list among them, is the same
    sequence when the call ends, whether it returns or raises. *)
Theorem inputs_unchanged {L : NumLib} (h : gmap positive pyobj) :
  (∀ fuel x_vals y_vals order delta keep_old mode max_interval,
     let h' := (interpolate_h fuel x_vals y_vals order delta keep_old mode
                  max_interval h).2 in
     h ⊆ h' ∧
     (∀ xs, h !! x_vals = Some xs → h' !! x_vals = Some xs) ∧
     (∀ ys, h !! y_vals = Some ys → h' !! y_vals = Some ys)) ∧
  (∀ times max_interval,
     let h' := (identifyTimeIntervals_h times max_interval h).2 in
     h ⊆ h' ∧ (∀ xs, h !! times = Some xs → h' !! times = Some xs)).
Proof.
  split.
  - intros fuel x_vals y_vals order delta keep_old mode max_interval h'.
    destruct (keeps_interpolate h fuel x_vals y_vals order delta keep_old mode
                max_interval h) as [Hsub _]; [done|].
    fold h' in Hsub. split_and!; [done|..]; intros o Ho;
      by eapply lookup_weaken.
  - intros times max_interval h'.
    destruct (keeps_identifyTimeIntervals h times max_interval h) as [Hsub _];
      [done|].
    fold h' in Hsub. split; [done|]. intros o Ho. by eapply lookup_weaken.
Qed.

(** * Concrete series *)

Section concrete.
Import SpecLib.
Local Existing Instance lib.

(** C2, against the claim as stated: with [keep_old] set and the smoothing
    fit, the three original timestamps are all in the output and tagged
    Original, and every one of them carries the value 1/3 of the fitted line
    instead of its original value 0, 1, 0. *)
Lemma smoothing_fit_changes_original_values :
  interpolate 10 (Datetimes bump_times) bump_values 1 (Timedelta one_minute)
    true "univ" None
  = Ok (Datetimes bump_times, [1 # 3; 1 # 3; 1 # 3]%Q, []) ∧
  ¬ (∀ gx gy inds,
       interpolate 10 (Datetimes bump_times) bump_values 1
         (Timedelta one_minute) true "univ" None = Ok (Datetimes gx, gy, inds) →
       ∀ i j x y, gx !! i = Some x → bump_times !! j = Some x →
         bump_values !! j = Some y → (i ∉ inds) ∧ gy !! i = Some y).
Proof.
  assert (interpolate 10 (Datetimes bump_times) bump_values 1
            (Timedelta one_minute) true "univ" None
          = Ok (Datetimes bump_times, [1 # 3; 1 # 3; 1 # 3]%Q, [])) as Hrun
    by reflexivity.
  split; [done|]. intros Hclaim.
  destruct (Hclaim _ _ _ Hrun 0%nat 0%nat (minute sample_day 0) 0%Q
              eq_refl eq_refl eq_refl) as [_ Hval].
  discriminate Hval.
Qed.

(** The sample series, step one minute: the six original points keep their
    tag and carry values of the fits. *)
Lemma original_points_tagged_and_refitted_witness :
  interpolate 20 (Datetimes sample_times) sample_values 1 (Timedelta one_minute)
    false "interp1d" (Some 5)
  = Ok (Datetimes sample_grid, sample_line, [3; 4; 5; 6; 7; 8; 9]%nat) ∧
  ∃ ivs lin,
    identifyTimeIntervals sample_times (Some 5) = Ok ivs ∧
    interp1d (timestamp <$> sample_times) sample_values 1 = Ok lin ∧
    ∀ i x, sample_grid !! i = Some x → x ∈ sample_times →
      (i ∉ [3; 4; 5; 6; 7; 8; 9]%nat) ∧
      ∃ v, sample_line !! i = Some v ∧
        (fitted_value sample_times sample_values 1 "interp1d" ivs x v ∨
         curve_call lin (timestamp x) = Ok v).
Proof.
  assert (interpolate 20 (Datetimes sample_times) sample_values 1
            (Timedelta one_minute) false "interp1d" (Some 5)
          = Ok (Datetimes sample_grid, sample_line, [3; 4; 5; 6; 7; 8; 9]%nat))
    as Hrun by reflexivity.
  split; [exact Hrun|].
  exact (original_points_tagged_and_refitted _ _ _ _ _ _ _ _ _ _ _ Hrun).
Defined.

(** The sample series, step one minute, maximum gap five minutes: the call
    returns and every one of the thirteen grid points has a value. *)
Lemma interpolate_every_grid_point_valued_witness :
  build_grid (F:=Q) 20 sample_times (Timedelta one_minute) false = Ok sample_grid ∧
  identifyTimeIntervals sample_times (Some 5)
  = Ok [(minute sample_day 0, minute sample_day 2)] ∧
  (∃ gy, interpolate 20 (Datetimes sample_times) sample_values 1
           (Timedelta one_minute) false "interp1d" (Some 5)
         = Ok (Datetimes sample_grid, gy,
               interpolated_indices sample_grid sample_times)) ∧
  length sample_line = length sample_grid ∧
  ∃ r, Datetimes sample_grid = Datetimes (r_x_interp r) ∧
       interp1d (timestamp <$> sample_times) sample_values 1 = Ok (r_linear r).
Proof.
  assert (build_grid (F:=Q) 20 sample_times (Timedelta one_minute) false
          = Ok sample_grid) as Hgrid by reflexivity.
  assert (identifyTimeIntervals sample_times (Some 5)
          = Ok [(minute sample_day 0, minute sample_day 2)]) as Hivs
    by reflexivity.
  destruct (interpolate_every_grid_point_valued (L:=lib) 20
              (Datetimes sample_times) sample_values 1 (Timedelta one_minute)
              false "interp1d" (Some 5)) as [Hreturns Hvalued].
  split_and!; [exact Hgrid|exact Hivs|..].
  - apply (Hreturns sample_times sample_grid
             [(minute sample_day 0, minute sample_day 2)]
             (PiecewiseLinear (zip (seconds <$> sample_times) sample_values))
             eq_refl ltac:(right; left) Hgrid Hivs).
    + intros t Ht. apply list_elem_of_singleton in Ht as ->. by left.
    + reflexivity.
    + intros x Hx. unfold sample_grid in Hx.
      repeat (apply elem_of_cons in Hx as [->|Hx]; [reflexivity|]).
      apply elem_of_nil in Hx. destruct Hx.
  - exact (proj1 (Hvalued (Datetimes sample_grid) sample_line
                    [3; 4; 5; 6; 7; 8; 9]%nat eq_refl)).
  - destruct (proj2 (Hvalued (Datetimes sample_grid) sample_line
                       [3; 4; 5; 6; 7; 8; 9]%nat eq_refl) sample_times eq_refl)
      as (r & _ & Hgx & _ & Hlin & _).
    exists r. split; [exact Hgx|exact Hlin].
Defined.

(** C4, against the claim as stated: an empty input raises [IndexError],
    and with a zero step the call never returns, whatever the fuel; neither
    signals an invalid configuration. *)
Lemma no_invalid_configuration_error :
  interpolate 10 (Datetimes []) [] 1 (Timedelta one_minute) true "interp1d" None
  = Raise IndexError ∧
  (∀ fuel,
     interpolate fuel (Datetimes sample_times) sample_values 1 (Timedelta 0)
       true "interp1d" None = Diverge) ∧
  (Raise IndexError : res (axis * list float * list nat))
    ≠ Raise (OtherException "InvalidConfiguration") ∧
  (Diverge : res (axis * list float * list nat))
    ≠ Raise (OtherException "InvalidConfiguration").
Proof.
  split_and!; [reflexivity| |done|done].
  intros fuel. unfold interpolate. rewrite decide_True by (right; left).
  unfold interpolate_datetime, build_grid. cbn [sample_times fmap list_fmap
    getitem_first head mbind res_bind].
  rewrite (grid_loop_zero_step _ (minute sample_day 12) fuel
             [minute sample_day 0] (minute sample_day 0)); [done|done|done|..].
  - by vm_compute.
  - by vm_compute.
Qed.

(** Empty input, a zero step and a step of minus 100000 days on the sample
    series. *)
Lemma interpolate_unvalidated_configuration_witness :
  "interp1d" ∈ ["bspline"; "interp1d"; "univ"] ∧
  interpolate 5 (Datetimes []) sample_values 1 (Timedelta one_minute) true
    "interp1d" None = Raise IndexError ∧
  interpolate 5 (Datetimes sample_times) sample_values 1 (Timedelta 0) true
    "interp1d" None = Diverge ∧
  interpolate 8 (Datetimes sample_times) sample_values 1
    (Timedelta (- 100000 * 86400 * 1000000)) true "interp1d" None
  = Raise OverflowError.
Proof.
  assert ("interp1d" ∈ ["bspline"; "interp1d"; "univ"]) as Hmode
    by (right; left).
  destruct (interpolate_unvalidated_configuration (L:=lib) sample_values 1 true
              "interp1d" None Hmode) as (Hempty & Hzero & Hneg).
  assert (Sorted Z.le sample_times) as Hs by (repeat constructor; by vm_compute).
  assert (Datetime.valid (minute sample_day 0)) as Hv by (by vm_compute).
  split_and!.
  - exact Hmode.
  - exact (proj1 (Hempty 5%nat (Timedelta one_minute))).
  - exact (Hzero 5%nat sample_times _ _ Hs eq_refl eq_refl Hv).
  - apply (Hneg 8%nat sample_times _ _ _ Hs eq_refl eq_refl Hv).
    + by vm_compute.
    + vm_compute. lia.
Defined.

(** C5, against the claim as stated: a series of one sample has the single
    interval from that sample to itself, with one point where degree 1 needs
    two.  The interval is skipped, and then the global linear fit of the
    same single sample raises: the call fails. *)
Lemma single_point_interval_call_fails :
  identifyTimeIntervals [sample_day] None = Ok [(sample_day, sample_day)] ∧
  interval_fit [sample_day] [7%Q] 1 "interp1d" (sample_day, sample_day)
  = Raise ValueError ∧
  (∀ st, fit_interval [sample_day] [7%Q] [sample_day] 1 "interp1d" st
           (sample_day, sample_day) = Ok st) ∧
  (∀ fuel, interpolate (S fuel) (Datetimes [sample_day]) [7%Q] 1
             (Timedelta one_minute) false "interp1d" None = Raise ValueError) ∧
  (∀ fuel out, interpolate fuel (Datetimes [sample_day]) [7%Q] 1
                 (Timedelta one_minute) false "interp1d" None ≠ Ok out).
Proof.
  assert (∀ fuel, interpolate (S fuel) (Datetimes [sample_day]) [7%Q] 1
             (Timedelta one_minute) false "interp1d" None = Raise ValueError)
    as Hraise by (intros fuel; reflexivity).
  split_and!; [reflexivity|reflexivity|by intros st|exact Hraise|].
  intros [|fuel] out; [done|]. by rewrite Hraise.
Qed.

(** The sample series under degree 3: the interval of three samples is
    skipped and its grid points carry the values of the linear fit. *)
Lemma infeasible_interval_skipped_witness :
  Sorted Z.le sample_times ∧
  build_grid (F:=Q) 20 sample_times (Timedelta one_minute) false = Ok sample_grid ∧
  identifyTimeIntervals sample_times (Some 5)
  = Ok [(minute sample_day 0, minute sample_day 2)] ∧
  interval_fit sample_times sample_values 3 "interp1d"
    (minute sample_day 0, minute sample_day 2) = Raise ValueError ∧
  ∃ r, interpolate_datetime 20 sample_times sample_values 3
         (Timedelta one_minute) false "interp1d" (Some 5) = Ok r ∧
       r_covered r !! 1%nat = Some false ∧
       ∃ v, curve_call (r_linear r) (timestamp (minute sample_day 1)) = Ok v ∧
            r_y_interp r !! 1%nat = Some v.
Proof.
  assert (Sorted Z.le sample_times) as Hs by (repeat constructor; by vm_compute).
  assert (build_grid (F:=Q) 20 sample_times (Timedelta one_minute) false
          = Ok sample_grid) as Hgrid by reflexivity.
  assert (identifyTimeIntervals sample_times (Some 5)
          = Ok [(minute sample_day 0, minute sample_day 2)]) as Hivs
    by reflexivity.
  assert (interval_fit sample_times sample_values 3 "interp1d"
            (minute sample_day 0, minute sample_day 2) = Raise ValueError)
    as Hfit by reflexivity.
  split_and!; [exact Hs|exact Hgrid|exact Hivs|exact Hfit|].
  destruct (infeasible_interval_skipped (L:=lib) 20 sample_times sample_values 3
              (Timedelta one_minute) false "interp1d" (Some 5) sample_grid
              [(minute sample_day 0, minute sample_day 2)]
              (minute sample_day 0, minute sample_day 2) Hs Hgrid Hivs
              ltac:(left) Hfit) as (_ & Hfill & Hret & _).
  destruct (Hret (PiecewiseLinear (zip (seconds <$> sample_times) sample_values)))
    as [r Hr].
  - intros t' Ht'. apply list_elem_of_singleton in Ht' as ->. by right.
  - reflexivity.
  - intros x Hx. unfold sample_grid in Hx.
    repeat (apply elem_of_cons in Hx as [->|Hx]; [reflexivity|]).
    apply elem_of_nil in Hx. destruct Hx.
  - exists r. split; [exact Hr|].
    exact (Hfill r Hr 1%nat (minute sample_day 1) eq_refl eq_refl).
Defined.

(** C6, against the claim as stated: for one sample and [keep_old] set the
    call raises [ValueError], from the linear fit of the single sample, and
    returns no output point. *)
Lemma single_sample_call_fails :
  (∀ fuel, interpolate (S fuel) (Datetimes [sample_day]) [7%Q] 0
             (Timedelta one_minute) true "interp1d" None = Raise ValueError) ∧
  interp1d [timestamp sample_day] [7%Q] 1 = Raise ValueError ∧
  (∀ fuel, interpolate fuel (Datetimes [sample_day]) [7%Q] 0
             (Timedelta one_minute) true "interp1d" None
           ≠ Ok (Datetimes [sample_day], [7%Q], [])).
Proof.
  assert (∀ fuel, interpolate (S fuel) (Datetimes [sample_day]) [7%Q] 0
             (Timedelta one_minute) true "interp1d" None = Raise ValueError)
    as Hraise by (intros fuel; reflexivity).
  split_and!; [exact Hraise|reflexivity|].
  intros [|fuel]; [done|]. by rewrite Hraise.
Qed.

(** One sample: the fit of the interval, of order 0, returns the sample's
    value; the linear fit raises [ValueError], which ends the call. *)
Lemma interpolate_single_sample_witness :
  0 < one_minute ∧
  interp1d [timestamp sample_day] [7%Q] 1 = Raise ValueError ∧
  interval_values [sample_day] [7%Q] [sample_day] 0 "interp1d"
    (sample_day, sample_day) ≠ Diverge ∧
  ∃ e', interpolate 6 (Datetimes [sample_day]) [7%Q] 0 (Timedelta one_minute)
          true "interp1d" None = Raise e'.
Proof.
  assert (0 < one_minute) as Hd by (by vm_compute).
  assert (interp1d [timestamp sample_day] [7%Q] 1 = Raise ValueError) as Hlin
    by reflexivity.
  assert (interval_values [sample_day] [7%Q] [sample_day] 0 "interp1d"
            (sample_day, sample_day) ≠ Diverge) as Hends.
  { assert (interval_values [sample_day] [7%Q] [sample_day] 0 "interp1d"
              (sample_day, sample_day) = Ok [7%Q]) as ->
      by reflexivity.
    discriminate. }
  split_and!; [exact Hd|exact Hlin|exact Hends|].
  exact (proj2 (interpolate_single_sample (L:=lib) 5 sample_day 7%Q 0
                  one_minute true "interp1d" None Hd) ValueError Hlin Hends).
Defined.

(** The grid of step three minutes over the sample series, originals kept. *)
Lemma build_grid_invariant_witness :
  Sorted Z.le sample_times ∧ 0 < 3 * one_minute ∧
  ∃ g, build_grid (F:=Q) 20 sample_times (Timedelta (3 * one_minute)) true = Ok g ∧
       Sorted Z.lt g ∧ head g = Some (minute sample_day 0) ∧
       Forall (λ x, x ≤ minute sample_day 12) g ∧
       count_occ Z.eq_dec g (minute sample_day 10) = 1%nat.
Proof.
  assert (Sorted Z.le sample_times) as Hs by (repeat constructor; by vm_compute).
  assert (0 < 3 * one_minute) as Hd by (by vm_compute).
  split_and!; [exact Hs|exact Hd|].
  destruct (build_grid_invariant (L:=lib) sample_times (3 * one_minute) true
              (minute sample_day 0) (minute sample_day 12) Hs Hd eq_refl eq_refl)
    as (_ & Hret & Hprop & _).
  destruct (Hret 20%nat) as [g Hg].
  - vm_compute. lia.
  - by vm_compute.
  - by vm_compute.
  - exists g. destruct (Hprop _ _ Hg) as (Hsorted & Hhead & Hall & Honce).
    split_and!; [exact Hg|exact Hsorted|exact Hhead|exact Hall|].
    apply Honce; [reflexivity|]. unfold sample_times.
    cbn [fmap list_fmap]. do 3 right. left.
Defined.

(** The sample series in a store: both lists are there after the calls. *)
Lemma inputs_unchanged_witness :
  sample_store !! 1%positive = Some (ObjDatetimes sample_times) ∧
  sample_store !! 2%positive = Some (ObjFloats sample_values) ∧
  (interpolate_h 20 1 2 1 (Timedelta one_minute) true "interp1d" (Some 5)
     sample_store).2 !! 1%positive = Some (ObjDatetimes sample_times) ∧
  (interpolate_h 20 1 2 1 (Timedelta one_minute) true "interp1d" (Some 5)
     sample_store).2 !! 2%positive = Some (ObjFloats sample_values) ∧
  (identifyTimeIntervals_h 1 (Some 5) sample_store).2 !! 1%positive
  = Some (ObjDatetimes sample_times).
Proof.
  assert (sample_store !! 1%positive = Some (ObjDatetimes sample_times)) as Hx
    by reflexivity.
  assert (sample_store !! 2%positive = Some (ObjFloats sample_values)) as Hy
    by reflexivity.
  destruct (inputs_unchanged (L:=lib) sample_store) as [Hcall Hseg].
  destruct (Hcall 20%nat 1%positive 2%positive 1 (Timedelta one_minute) true
              "interp1d" (Some 5)) as (_ & Hkx & Hky).
  destruct (Hseg 1%positive (Some 5)) as (_ & Hkt).
  split_and!; [exact Hx|exact Hy|exact (Hkx _ Hx)|exact (Hky _ Hy)|exact (Hkt _ Hx)].
Defined.

(** Two numbers as the axis and a maximum gap. *)
Lemma interpolate_numeric_axis_rejects_max_interval_witness :
  [1%Q; 2%Q] ≠ [] ∧
  interpolate 5 (Numbers [1%Q; 2%Q]) [3%Q; 4%Q] 1 (Number 1%Q) true "interp1d"
    (Some 5) = Raise AssertionError.
Proof.
  assert ([1%Q; 2%Q] ≠ @nil Q) as Hne by done.
  split; [exact Hne|].
  exact (interpolate_numeric_axis_rejects_max_interval (L:=lib) 5 [1%Q; 2%Q]
           [3%Q; 4%Q] 1 (Number 1%Q) true "interp1d" 5 Hne).
Defined.

End concrete.

(** * Further properties of the segmentation *)

Lemma segment_step_run times mi k st :
  (S k < length times)%nat →
  run_inv times mi k st →
  run_inv times mi (S k) (segment_step times mi st (S k)).
Proof.
  intros Hk. destruct st as [start ivs]. unfold run_inv, segment_step.
  replace (S k - 1)%nat with k by lia. cbn [fst snd].
  destruct (lookup_lt_is_Some_2 times k) as [xk Hxk]; [lia|].
  rewrite (nth_lookup_Some _ _ 0 _ Hxk).
  intros [Hruns Hopen].
  case_bool_decide as Hgap; destruct start as [s|]; cbn [fst snd].
  - split; [done|]. destruct Hopen as (a & Ha & Hs & Hgaps).
    exists a. split_and!; [lia|done|]. intros i Hi.
    destruct (decide (i = k)) as [->|]; [|apply Hgaps; lia].
    by rewrite (nth_lookup_Some _ _ 0 _ Hxk).
  - split; [done|]. exists k. split_and!; [lia|done|]. intros i Hi.
    replace i with k by lia. by rewrite (nth_lookup_Some _ _ 0 _ Hxk).
  - split; [|done]. destruct Hopen as (a & Ha & Hs & Hgaps).
    apply Forall_app. split; [done|]. repeat constructor.
    exists a, k. cbn [fst snd]. split_and!; [lia|lia|done|done|done].
  - done.
Qed.

Lemma segment_fold_run times mi : ∀ n k st,
  (k + n < length times)%nat →
  run_inv times mi k st →
  run_inv times mi (k + n) (foldl (segment_step times mi) st (seq (S k) n)).
Proof.
  induction n as [|n IH]; intros k st Hk Hinv.
  - by rewrite Nat.add_0_r.
  - cbn [seq foldl]. replace (k + S n)%nat with (S k + n)%nat by lia.
    apply IH; [lia|]. apply segment_step_run; [lia|done].
Qed.

Lemma segment_loop_run times mi :
  times ≠ [] →
  run_inv times mi (length times - 1) (segment_loop times mi).
Proof.
  intros Hne. unfold segment_loop.
  assert (0 < length times)%nat by (destruct times; [done|simpl; lia]).
  apply (segment_fold_run times mi (length times - 1) 0 (None, []));
    [lia|]. split; [constructor|done].
Qed.

(** X1.  With a maximum gap set, every interval that [identifyTimeIntervals]
    returns joins two different samples of the list, and every gap between
    consecutive samples from the first to the second is at most the maximum
    gap: an interval never holds a single sample and never spans a gap that
    is too wide. *)
Theorem identifyTimeIntervals_runs (times : list Z) (m : Z) (ivs : list interval) :
  identifyTimeIntervals times (Some m) = Ok ivs →
  Forall (is_run times (m * 60000000)) ivs.
Proof.
  unfold identifyTimeIntervals. intros Hrun.
  apply bind_Ok in Hrun as (mi & Hmi & Hrun).
  assert (mi = m * 60000000) as ->.
  { unfold Datetime.of_minutes in Hmi. cbv zeta in Hmi.
    case_bool_decide; by simplify_eq. }
  destruct (decide (times = [])) as [->|Hne]; [done|].
  pose proof (segment_loop_run times (m * 60000000) Hne) as [Hruns Hopen].
  destruct (segment_loop times (m * 60000000)) as [start intervals].
  cbn [fst snd] in *.
  apply bind_Ok in Hrun as (t0 & H0 & Hrun). case_bool_decide as Hstart.
  - apply bind_Ok in Hrun as (tl & Hl & [= <-]). subst start.
    destruct Hopen as (a & Ha & Hs & Hgaps). repeat constructor.
    exists a, (length times - 1)%nat. cbn [fst snd].
    apply getitem_last_Ok in Hl. rewrite last_lookup in Hl.
    split_and!; [lia|lia|done| |done].
    by replace (length times - 1)%nat with (pred (length times)) by lia.
  - by simplify_eq.
Qed.

(** X2.  For a sorted list, the intervals that [identifyTimeIntervals] returns
    are in increasing order, each one starts no later than it ends and ends
    before the next one starts; two of them never share a point. *)
Theorem identifyTimeIntervals_ordered_disjoint (times : list Z)
    (max_interval : option Z) (ivs : list interval) :
  Sorted Z.le times →
  identifyTimeIntervals times max_interval = Ok ivs →
  StronglySorted before ivs ∧
  Forall (λ t : interval, t.1 ≤ t.2) ivs ∧
  ∀ t t' x, t ∈ ivs → t' ∈ ivs →
    in_interval t x = true → in_interval t' x = true → t = t'.
Proof.
  intros Hs Hivs.
  destruct (identifyTimeIntervals_ordered _ _ _ Hs Hivs) as [Hord Hwf].
  split_and!; [done..|]. intros t t' x. by eapply identifyTimeIntervals_disjoint.
Qed.

(** * Further properties of the grid *)

Lemma whole_steps_stop cur xl d : 0 < d → ¬ cur + d ≤ xl → whole_steps cur xl d = 0%nat.
Proof.
  intros Hd Hgt. unfold whole_steps.
  assert ((xl - cur) / d ≤ 0); [|lia].
  apply Z.lt_succ_r. apply Z.div_lt_upper_bound; lia.
Qed.

Lemma whole_steps_next cur xl d :
  0 < d → cur + d ≤ xl → whole_steps cur xl d = S (whole_steps (cur + d) xl d).
Proof.
  intros Hd Hle. unfold whole_steps.
  assert (1 ≤ (xl - cur) / d) by (apply Z.div_le_lower_bound; lia).
  replace (xl - (cur + d)) with ((xl - cur) + (-1) * d) by lia.
  rewrite Z.div_add by lia. lia.
Qed.

(** The loop appends the points one step apart that still fit below the
    last sample. *)
Lemma grid_loop_progression x_vals d xl : ∀ fuel acc cur g,
  0 < d → last x_vals = Some xl → last acc = Some cur →
  grid_loop fuel acc x_vals d = Ok g →
  g = acc ++ ((λ i : nat, cur + Z.of_nat i * d) <$> seq 1 (whole_steps cur xl d)).
Proof.
  induction fuel as [|fuel IH]; intros acc cur g Hd Hxl Hcur Hrun; [done|].
  cbn [grid_loop] in Hrun. unfold getitem_last in Hrun.
  rewrite Hcur, Hxl in Hrun. cbn [mbind res_bind] in Hrun.
  apply bind_Ok in Hrun as (nxt & Hnxt & Hrun).
  apply add_Ok in Hnxt as [-> _]. case_bool_decide as Hle.
  - apply (IH _ (cur + d)) in Hrun; [|done..|by rewrite last_snoc].
    rewrite Hrun, (whole_steps_next cur xl d) by done.
    rewrite <-app_assoc. f_equal. cbn [seq fmap list_fmap app]. f_equal; [lia|].
    rewrite <-(fmap_S_seq 1), <-list_fmap_compose. apply list_fmap_ext.
    intros _ i _. simpl. lia.
  - rewrite whole_steps_stop by done. simplify_eq. by rewrite app_nil_r.
Qed.

(** X4.  Without [keep_old] the grid of a datetime axis is the arithmetic
    progression from the first timestamp in steps of [delta], one point for
    every whole step that fits before the last timestamp; for a series whose
    first timestamp is not after its last, the last grid point is less than
    one step before the last timestamp. *)
Theorem build_grid_progression {F} fuel (x_vals : list Z) (d x0 xl : Z)
    (g : list Z) :
  0 < d → head x_vals = Some x0 → last x_vals = Some xl →
  build_grid (F:=F) fuel x_vals (Timedelta d) false = Ok g →
  g = progression x0 d (whole_steps x0 xl d) ∧
  length g = S (whole_steps x0 xl d) ∧
  (x0 ≤ xl →
   ∃ top, last g = Some top ∧ top ≤ xl ∧ xl < top + d).
Proof.
  intros Hd H0 Hl Hrun. unfold build_grid in Hrun.
  apply getitem_first_Ok in H0. rewrite H0 in Hrun. cbn [mbind res_bind] in Hrun.
  apply bind_Ok in Hrun as (base & Hbase & [= <-]).
  apply (grid_loop_progression _ _ xl _ _ x0) in Hbase; [|done..].
  assert (base = progression x0 d (whole_steps x0 xl d)) as ->.
  { rewrite Hbase. unfold progression. cbn [seq fmap list_fmap app].
    f_equal. lia. }
  split; [done|]. split.
  { unfold progression. by rewrite length_fmap, length_seq. }
  intros H0l. exists (x0 + Z.of_nat (whole_steps x0 xl d) * d).
  split.
  { unfold progression. rewrite seq_S, fmap_app. simpl. apply last_snoc. }
  unfold whole_steps. rewrite Z2Nat.id by (apply Z.div_pos; lia).
  pose proof (Z.mul_div_le (xl - x0) d Hd).
  pose proof (Z.mul_succ_div_gt (xl - x0) d Hd). lia.
Qed.

(** X5.  With [keep_old] the grid of a datetime axis holds exactly the points of
    that progression and the original timestamps, in strictly increasing
    order. *)
Theorem build_grid_keep_old {F} fuel (x_vals : list Z) (d x0 xl : Z)
    (g : list Z) :
  0 < d → head x_vals = Some x0 → last x_vals = Some xl →
  build_grid (F:=F) fuel x_vals (Timedelta d) true = Ok g →
  Sorted Z.lt g ∧
  ∀ x, x ∈ g ↔ x ∈ progression x0 d (whole_steps x0 xl d) ∨ x ∈ x_vals.
Proof.
  intros Hd H0 Hl Hrun. unfold build_grid in Hrun.
  apply getitem_first_Ok in H0. rewrite H0 in Hrun. cbn [mbind res_bind] in Hrun.
  apply bind_Ok in Hrun as (base & Hbase & [= <-]).
  apply (grid_loop_progression _ _ xl _ _ x0) in Hbase; [|done..].
  assert (base = progression x0 d (whole_steps x0 xl d)) as ->.
  { rewrite Hbase. unfold progression. cbn [seq fmap list_fmap app].
    f_equal. lia. }
  split; [apply sorted_datetimes_Sorted|].
  intros x. rewrite elem_of_sorted_datetimes. apply elem_of_app.
Qed.

(** * Further properties of interpolate *)

Lemma interpolated_indices_sorted_from {A} `{EqDecision A} (x_vals : list A) :
  ∀ (l : list A) (a : nat),
  StronglySorted lt
    (filter (λ ix : nat * A, ix.2 ∉ x_vals) (zip (seq a (length l)) l)).*1 ∧
  Forall (λ i, (a ≤ i < a + length l)%nat)
    (filter (λ ix : nat * A, ix.2 ∉ x_vals) (zip (seq a (length l)) l)).*1.
Proof.
  induction l as [|x l IH]; intros a; [by split; constructor|].
  destruct (IH (S a)) as [Hs Hall].
  assert (Forall (λ i, (a < i < a + length (x :: l))%nat)
    (filter (λ ix : nat * A, ix.2 ∉ x_vals) (zip (seq (S a) (length l)) l)).*1)
    as Hall'.
  { eapply Forall_impl; [exact Hall|]. intros i Hi. simpl in *. lia. }
  cbn [length seq zip zip_with]. rewrite filter_cons.
  destruct (decide _); cbn [fmap list_fmap fst].
  - split.
    + constructor; [done|]. eapply Forall_impl; [exact Hall'|]. simpl. lia.
    + constructor; [simpl; lia|].
      eapply Forall_impl; [exact Hall'|]. simpl. lia.
  - split; [done|]. eapply Forall_impl; [exact Hall'|]. simpl. lia.
Qed.

Lemma interpolated_indices_spec {A} `{EqDecision A} (x_interp x_vals : list A) :
  StronglySorted lt (interpolated_indices x_interp x_vals) ∧
  ∀ i, i ∈ interpolated_indices x_interp x_vals ↔
       ∃ x, x_interp !! i = Some x ∧ x ∉ x_vals.
Proof.
  split.
  - apply (interpolated_indices_sorted_from x_vals x_interp 0).
  - intros i. apply elem_of_interpolated_indices.
Qed.

(** X6.  The third result of [interpolate] lists, in strictly increasing order,
    exactly the indices of the returned abscissae that are not among the
    original ones; every other index is an original abscissa. *)
Theorem interpolate_tags {L : NumLib} fuel x_vals y_vals order delta keep_old
    mode max_interval gx gy inds :
  interpolate fuel x_vals y_vals order delta keep_old mode max_interval
  = Ok (gx, gy, inds) →
  StronglySorted lt inds ∧
  match x_vals, gx with
  | Datetimes xs, Datetimes g =>
      ∀ i, i ∈ inds ↔ ∃ x, g !! i = Some x ∧ x ∉ xs
  | Numbers xs, Numbers g =>
      ∀ i, i ∈ inds ↔ ∃ x, g !! i = Some x ∧ x ∉ xs
  | _, _ => False
  end.
Proof.
  intros Hrun. destruct x_vals as [xs|xs].
  - apply interpolate_Datetimes_Ok in Hrun as (r & _ & [= -> _ ->]).
    apply interpolated_indices_spec.
  - unfold interpolate in Hrun. case_decide; [|done].
    apply bind_Ok in Hrun as (x0 & _ & Hrun).
    apply bind_Ok in Hrun as ([g y] & _ & [= <- _ <-]).
    apply interpolated_indices_spec.
Qed.

Lemma build_grid_bounds {F} fuel (x_vals : list Z) d keep_old x0 xl g x :
  Sorted Z.le x_vals → 0 < d → head x_vals = Some x0 → last x_vals = Some xl →
  build_grid (F:=F) fuel x_vals (Timedelta d) keep_old = Ok g →
  x ∈ g → x0 ≤ x ≤ xl.
Proof.
  intros Hs Hd H0 Hl Hrun Hx. unfold build_grid in Hrun.
  apply getitem_first_Ok in H0 as H0'. rewrite H0' in Hrun.
  cbn [mbind res_bind] in Hrun.
  apply bind_Ok in Hrun as (base & Hbase & [= <-]).
  assert (x0 ≤ xl) as H0l.
  { eapply (Sorted_le_bounds x_vals x0 xl xl); eauto. by eapply last_Some_elem_of. }
  apply (grid_loop_sorted _ _ _ xl) in Hbase as (Hsb & Hallb & more & ->);
    [|done..|repeat constructor|by repeat constructor].
  assert (∀ y, y ∈ [x0] ++ more → x0 ≤ y ≤ xl) as Hbase.
  { intros y Hy. rewrite Forall_forall in Hallb. split; [|by apply Hallb].
    apply Sorted_lt_StronglySorted in Hsb. simpl in Hsb.
    apply StronglySorted_inv in Hsb as [_ Hall].
    apply elem_of_cons in Hy as [->|Hy]; [done|].
    rewrite Forall_forall in Hall. specialize (Hall _ Hy). lia. }
  destruct keep_old; [|by apply Hbase].
  rewrite elem_of_sorted_datetimes in Hx. apply elem_of_app in Hx as [Hx|Hx].
  - by apply Hbase.
  - by eapply Sorted_le_bounds.
Qed.

Lemma select_all {A} (n : nat) (l : list A) :
  length l = n → select (replicate n true) l = l.
Proof.
  revert n. induction l as [|a l IH]; intros [|n] Hn; simplify_eq/=; [done|].
  f_equal. by apply IH.
Qed.

Lemma in_interval_all (x_vals : list Z) x0 xl :
  Sorted Z.le x_vals → head x_vals = Some x0 → last x_vals = Some xl →
  in_interval (x0, xl) <$> x_vals = replicate (length x_vals) true.
Proof.
  intros Hs H0 Hl. apply list_eq. intros i.
  rewrite list_lookup_fmap. destruct (x_vals !! i) as [x|] eqn:Hx; simpl.
  - rewrite lookup_replicate_2 by (by eapply lookup_lt_Some). f_equal.
    pose proof (Sorted_le_bounds x_vals x0 xl x Hs H0 Hl
                  ltac:(by eapply list_elem_of_lookup_2)).
    unfold in_interval. simpl. rewrite !bool_decide_eq_true_2 by lia. done.
  - symmetry. apply lookup_replicate_None. by apply lookup_ge_None.
Qed.

(** On a sorted series the interval from the first to the last timestamp
    selects every sample: its fit is the fit of the whole series, and raises
    [IndexError] when the values do not match the timestamps in number. *)
Lemma interval_fit_whole {L : NumLib} (x_vals : list Z) y_vals order mode x0 xl :
  Sorted Z.le x_vals → head x_vals = Some x0 → last x_vals = Some xl →
  interval_fit x_vals y_vals order mode (x0, xl)
  = if decide (length x_vals = length y_vals)
    then fit mode (timestamp <$> x_vals) y_vals order
    else Raise IndexError.
Proof.
  intros Hs H0 Hl. unfold interval_fit. cbv zeta.
  rewrite (in_interval_all _ _ _ Hs H0 Hl).
  rewrite (mask_select_Ok _ (timestamp <$> x_vals))
    by (by rewrite length_replicate, length_fmap).
  cbn [mbind res_bind]. unfold mask_select. rewrite length_replicate.
  case_decide as Hlen; [|done]. cbn [mbind res_bind].
  rewrite select_all by (by rewrite length_fmap).
  by rewrite select_all.
Qed.

(** X7.  With [max_interval] unset, a sorted datetime series and a positive
    step, the output is all of one kind.  If the single interval is fitted,
    every returned value is the value, at its grid point, of the one fit of
    the whole series by the chosen method; otherwise that fit or its
    evaluation raised [ValueError], and every returned value is the value of
    the global linear fit.  In both cases the values match the timestamps in
    number. *)
Theorem interpolate_default_mode {L : NumLib} fuel (x_vals : list Z) y_vals
    order d keep_old mode g gy inds :
  Sorted Z.le x_vals → 0 < d →
  interpolate fuel (Datetimes x_vals) y_vals order (Timedelta d) keep_old mode
    None = Ok (Datetimes g, gy, inds) →
  length x_vals = length y_vals ∧
  ∃ x0 xl lin,
    head x_vals = Some x0 ∧ last x_vals = Some xl ∧
    interp1d (timestamp <$> x_vals) y_vals 1 = Ok lin ∧
    if fitted x_vals y_vals g order mode (x0, xl) then
      ∃ f, fit mode (timestamp <$> x_vals) y_vals order = Ok f ∧
        ∀ i x, g !! i = Some x →
          ∃ v, gy !! i = Some v ∧ curve_call f (timestamp x) = Ok v
    else
      ∀ i x, g !! i = Some x →
        ∃ v, gy !! i = Some v ∧ curve_call lin (timestamp x) = Ok v.
Proof.
  intros Hs Hd Hrun.
  apply interpolate_Datetimes_Ok in Hrun as (r & Hr & [= -> -> _]).
  destruct (interpolate_datetime_Ok _ _ _ _ _ _ _ _ _ Hr)
    as (Hgrid & Hivs & Hlin & _ & _ & Hidx).
  unfold identifyTimeIntervals in Hivs.
  apply bind_Ok in Hivs as (x0 & H0 & Hivs).
  apply bind_Ok in Hivs as (xl & Hl & [= Hivs]).
  apply getitem_first_Ok in H0. apply getitem_last_Ok in Hl.
  rewrite <-Hivs in Hidx.
  pose proof (interval_fit_whole x_vals y_vals order mode x0 xl Hs H0 Hl) as Hwhole.
  assert (∀ x, x ∈ r_x_interp r →
            covered x_vals y_vals (r_x_interp r) order mode [(x0, xl)] x
            = fitted x_vals y_vals (r_x_interp r) order mode (x0, xl)) as Hcov.
  { intros x Hx. unfold covered. cbn [existsb]. rewrite orb_false_r.
    pose proof (build_grid_bounds _ _ _ _ _ _ _ _ Hs Hd H0 Hl Hgrid Hx).
    unfold in_interval. simpl. by rewrite !bool_decide_eq_true_2 by lia. }
  assert (length x_vals = length y_vals) as Hlen.
  { destruct (decide (length x_vals = length y_vals)) as [|Hne]; [done|].
    exfalso.
    (* the loop would have raised [IndexError] *)
    revert Hr. unfold interpolate_datetime. rewrite Hgrid. cbn [mbind res_bind].
    unfold identifyTimeIntervals, getitem_first, getitem_last.
    rewrite H0, Hl. cbn [mbind res_bind fit_intervals].
    unfold fit_interval, try_interval, interval_values.
    by rewrite Hwhole. }
  split; [done|]. rewrite decide_True in Hwhole by done.
  exists x0, xl, (r_linear r). split_and!; [done..|].
  destruct (fitted x_vals y_vals (r_x_interp r) order mode (x0, xl)) eqn:Hfit.
  - unfold fitted in Hfit.
    destruct (interval_values x_vals y_vals (r_x_interp r) order mode (x0, xl))
      as [vals| |] eqn:Hvals; [|done..].
    apply interval_values_Ok in Hvals as (f & Hf & _).
    exists f. split; [congruence|]. intros i x Hx.
    destruct (Hidx i x Hx) as (_ & v & Hv & Hval).
    rewrite Hcov in Hval by (by eapply list_elem_of_lookup_2).
    destruct Hval as (t & func & Ht & _ & Hfunc & Hcall).
    apply list_elem_of_singleton in Ht as ->.
    exists v. split; [done|]. congruence.
  - intros i x Hx. destruct (Hidx i x Hx) as (_ & v & Hv & Hval).
    rewrite Hcov in Hval by (by eapply list_elem_of_lookup_2). eauto.
Qed.

Lemma interval_fit_mismatch {L : NumLib} (x_vals : list Z) y_vals order mode t :
  length x_vals ≠ length y_vals →
  interval_fit x_vals y_vals order mode t = Raise IndexError.
Proof.
  intros Hne. unfold interval_fit. cbv zeta.
  rewrite (mask_select_Ok _ (timestamp <$> x_vals)) by (by rewrite !length_fmap).
  cbn [mbind res_bind]. unfold mask_select.
  rewrite decide_False by (by rewrite length_fmap). done.
Qed.

(** X8.  Values that do not match the timestamps in number make [interpolate]
    raise [IndexError] as soon as the grid is built and at least one interval
    is identified (with [max_interval] unset that is every non-empty series):
    the exception comes from the masked selection inside the [try] block and
    is not the [ValueError] that the block catches. *)
Theorem interpolate_length_mismatch {L : NumLib} fuel (x_vals : list Z) y_vals
    order delta keep_old mode max_interval g t ivs :
  mode ∈ ["bspline"; "interp1d"; "univ"] →
  length x_vals ≠ length y_vals →
  build_grid fuel x_vals delta keep_old = Ok g →
  identifyTimeIntervals x_vals max_interval = Ok (t :: ivs) →
  interpolate fuel (Datetimes x_vals) y_vals order delta keep_old mode
    max_interval = Raise IndexError.
Proof.
  intros Hmode Hne Hgrid Hivs. unfold interpolate. rewrite decide_True by done.
  unfold interpolate_datetime. rewrite Hgrid, Hivs.
  cbn [mbind res_bind fit_intervals].
  unfold fit_interval, try_interval, interval_values.
  by rewrite interval_fit_mismatch.
Qed.

(** * Further concrete series *)

Section further_concrete.
Import SpecLib.
Local Existing Instance lib.

(** Maximum gap five minutes on the series with a late sample: both runs
    are returned, and each is a run of the series. *)
Lemma identifyTimeIntervals_runs_witness :
  identifyTimeIntervals long_times (Some 5)
  = Ok [(minute sample_day 0, minute sample_day 2);
        (minute sample_day 10, minute sample_day 12)] ∧
  Forall (is_run long_times (5 * 60000000))
    [(minute sample_day 0, minute sample_day 2);
     (minute sample_day 10, minute sample_day 12)].
Proof.
  split; [reflexivity|].
  apply (identifyTimeIntervals_runs long_times 5). reflexivity.
Defined.

(** The two runs of the same series are ordered and share no timestamp. *)
Lemma identifyTimeIntervals_ordered_disjoint_witness :
  Sorted Z.le long_times ∧
  StronglySorted before
    [(minute sample_day 0, minute sample_day 2);
     (minute sample_day 10, minute sample_day 12)].
Proof.
  assert (Sorted Z.le long_times) as Hs by (repeat constructor; by vm_compute).
  split; [exact Hs|].
  apply (identifyTimeIntervals_ordered_disjoint long_times (Some 5) _ Hs eq_refl).
Defined.

(** Step five minutes over the sample series: the grid is minutes 0, 5, 10. *)
Lemma build_grid_progression_witness :
  0 < 5 * one_minute ∧
  build_grid (F:=Q) 20 sample_times (Timedelta (5 * one_minute)) false
  = Ok (minute sample_day <$> [0; 5; 10]) ∧
  minute sample_day <$> [0; 5; 10]
  = progression (minute sample_day 0) (5 * one_minute) 2 ∧
  whole_steps (minute sample_day 0) (minute sample_day 12) (5 * one_minute)
  = 2%nat.
Proof.
  assert (0 < 5 * one_minute) as Hd by (by vm_compute).
  assert (build_grid (F:=Q) 20 sample_times (Timedelta (5 * one_minute)) false
          = Ok (minute sample_day <$> [0; 5; 10])) as Hgrid by reflexivity.
  split_and!; [exact Hd|exact Hgrid| |by vm_compute].
  exact (proj1 (build_grid_progression (F:=Q) 20 sample_times (5 * one_minute)
                  (minute sample_day 0) (minute sample_day 12) _
                  Hd eq_refl eq_refl Hgrid)).
Defined.

(** The same step with the originals kept: minute 5 is on the grid because
    it is a grid point, minute 11 because it is an original timestamp. *)
Lemma build_grid_keep_old_witness :
  0 < 5 * one_minute ∧
  build_grid (F:=Q) 20 sample_times (Timedelta (5 * one_minute)) true
  = Ok (minute sample_day <$> [0; 1; 2; 5; 10; 11; 12]) ∧
  Sorted Z.lt (minute sample_day <$> [0; 1; 2; 5; 10; 11; 12]).
Proof.
  assert (0 < 5 * one_minute) as Hd by (by vm_compute).
  assert (build_grid (F:=Q) 20 sample_times (Timedelta (5 * one_minute)) true
          = Ok (minute sample_day <$> [0; 1; 2; 5; 10; 11; 12])) as Hgrid
    by reflexivity.
  split_and!; [exact Hd|exact Hgrid|].
  exact (proj1 (build_grid_keep_old (F:=Q) 20 sample_times (5 * one_minute)
                  (minute sample_day 0) (minute sample_day 12) _
                  Hd eq_refl eq_refl Hgrid)).
Defined.

(** The sample series resampled every minute: the grid points of minutes 3
    to 9 are the tagged ones. *)
Lemma interpolate_tags_witness :
  interpolate 20 (Datetimes sample_times) sample_values 1
    (Timedelta one_minute) false "interp1d" (Some 5)
  = Ok (Datetimes sample_grid, sample_line, [3; 4; 5; 6; 7; 8; 9]%nat) ∧
  StronglySorted lt [3; 4; 5; 6; 7; 8; 9]%nat.
Proof.
  assert (interpolate 20 (Datetimes sample_times) sample_values 1
            (Timedelta one_minute) false "interp1d" (Some 5)
          = Ok (Datetimes sample_grid, sample_line, [3; 4; 5; 6; 7; 8; 9]%nat))
    as Hrun by reflexivity.
  split; [exact Hrun|].
  exact (proj1 (interpolate_tags (L:=lib) _ _ _ _ _ _ _ _ _ _ _ Hrun)).
Defined.

(** The sample series resampled every five minutes with the originals kept
    and no maximum gap: one fit of the whole series gives all seven values. *)
Lemma interpolate_default_mode_witness :
  Sorted Z.le sample_times ∧ 0 < 5 * one_minute ∧
  interpolate 20 (Datetimes sample_times) sample_values 1
    (Timedelta (5 * one_minute)) true "interp1d" None
  = Ok (Datetimes (minute sample_day <$> [0; 1; 2; 5; 10; 11; 12]),
        inject_Z <$> [0; 1; 2; 5; 10; 11; 12], [3%nat]) ∧
  length sample_times = length sample_values.
Proof.
  assert (Sorted Z.le sample_times) as Hs by (repeat constructor; by vm_compute).
  assert (0 < 5 * one_minute) as Hd by (by vm_compute).
  assert (interpolate 20 (Datetimes sample_times) sample_values 1
            (Timedelta (5 * one_minute)) true "interp1d" None
          = Ok (Datetimes (minute sample_day <$> [0; 1; 2; 5; 10; 11; 12]),
                inject_Z <$> [0; 1; 2; 5; 10; 11; 12], [3%nat])) as Hrun
    by reflexivity.
  split_and!; [exact Hs|exact Hd|exact Hrun|].
  exact (proj1 (interpolate_default_mode (L:=lib) _ _ _ _ _ _ _ _ _ _
                  Hs Hd Hrun)).
Defined.

(** Six timestamps and three values: the call raises [IndexError]. *)
Lemma interpolate_length_mismatch_witness :
  length sample_times ≠ length bump_values ∧
  interpolate 20 (Datetimes sample_times) bump_values 1
    (Timedelta one_minute) false "interp1d" None = Raise IndexError.
Proof.
  assert (length sample_times ≠ length bump_values) as Hne by (by vm_compute).
  split; [exact Hne|].
  apply (interpolate_length_mismatch (L:=lib) 20 sample_times bump_values 1
           (Timedelta one_minute) false "interp1d" None sample_grid
           (minute sample_day 0, minute sample_day 12) []);
    [right; left|exact Hne|reflexivity|reflexivity].
Defined.

End further_concrete.

(** * The closed runs are all returned *)

Lemma segment_step_closed times mi k st :
  closed_inv times mi k st →
  closed_inv times mi (S k) (segment_step times mi st (S k)).
Proof.
  destruct st as [start ivs]. unfold closed_inv, segment_step.
  replace (S k - 1)%nat with k by lia. cbn [fst snd].
  intros [Hall Hopen].
  assert (∀ a b, closed_run times mi a b → (b < S k)%nat →
            nth (S k) times 0 - nth k times 0 ≤ mi →
            (nth a times 0, nth b times 0) ∈ ivs) as Hkeep.
  { intros a b Hrun Hb Hgap. apply Hall; [done|].
    destruct (decide (b = k)) as [->|]; [|lia].
    destruct Hrun as (_ & _ & _ & _ & Hwide). done. }
  case_bool_decide as Hgap; destruct start as [s|]; cbn [fst snd].
  - split; [intros a b Hrun Hb; by apply Hkeep|].
    destruct Hopen as (a & Ha & Hs & Hgaps & Hleft).
    exists a. split_and!; [lia|done| |done]. intros i Hi.
    destruct (decide (i = k)) as [->|]; [done|apply Hgaps; lia].
  - split; [intros a b Hrun Hb; by apply Hkeep|].
    exists k. split_and!; [lia|done| |].
    + intros i Hi. by replace i with k by lia.
    + destruct Hopen as [->|Hwide]; [by left|by right].
  - destruct Hopen as (a & Ha & -> & Hgaps & Hleft). split; [|by right].
    intros a' b (Hab & Hb & Hin & Hleft' & Hwide) Hbk.
    apply elem_of_app. destruct (decide (b = k)) as [->|].
    + right. apply list_elem_of_singleton. f_equal.
      destruct (decide (a' = a)) as [->|Hne]; [done|]. exfalso.
      destruct (decide (a' < a)%nat).
      * destruct Hleft as [->|Hleft]; [lia|]. apply Hleft.
        replace a with (S (a - 1)) at 1 by lia. apply Hin. lia.
      * destruct Hleft' as [->|Hleft']; [lia|]. apply Hleft'.
        replace a' with (S (a' - 1)) at 1 by lia. apply Hgaps. lia.
    + left. apply Hall; [|lia]. by split_and!.
  - split; [|by right].
    intros a b (Hab & Hb & Hin & Hleft & Hwide) Hbk.
    apply Hall; [by split_and!|]. destruct (decide (b = k)) as [->|]; [|lia].
    exfalso. destruct Hopen as [->|Hopen]; [lia|]. apply Hopen.
    replace k with (S (k - 1)) at 1 by lia. apply Hin. lia.
Qed.

Lemma segment_fold_closed times mi : ∀ n k st,
  closed_inv times mi k st →
  closed_inv times mi (k + n) (foldl (segment_step times mi) st (seq (S k) n)).
Proof.
  induction n as [|n IH]; intros k st Hinv.
  - by rewrite Nat.add_0_r.
  - cbn [seq foldl]. replace (k + S n)%nat with (S k + n)%nat by lia.
    apply IH. by apply segment_step_closed.
Qed.

Lemma segment_loop_closed times mi :
  closed_inv times mi (length times - 1) (segment_loop times mi).
Proof.
  unfold segment_loop.
  apply (segment_fold_closed times mi (length times - 1) 0 (None, [])).
  split; [|by left]. intros a b _ Hb. lia.
Qed.

(** X3.  With a maximum gap set, every run of at least two samples that is
    closed by a gap wider than the maximum is among the returned intervals,
    unless the result is the single interval from the first to the last
    sample; on a sorted series with a non-negative maximum gap it is always
    among them.  The only run that can be left out is the one still open at
    the end of the series. *)
Theorem identifyTimeIntervals_closed_runs (times : list Z) (m : Z)
    (ivs : list interval) (a b : nat) :
  identifyTimeIntervals times (Some m) = Ok ivs →
  closed_run times (m * 60000000) a b →
  ((nth a times 0, nth b times 0) ∈ ivs ∨
   ∃ x0 xl, head times = Some x0 ∧ last times = Some xl ∧ ivs = [(x0, xl)]) ∧
  (Sorted Z.le times → 0 ≤ m → (nth a times 0, nth b times 0) ∈ ivs).
Proof.
  unfold identifyTimeIntervals. intros Hrun Hab.
  apply bind_Ok in Hrun as (mi & Hmi & Hrun).
  assert (mi = m * 60000000) as ->.
  { unfold Datetime.of_minutes in Hmi. cbv zeta in Hmi.
    case_bool_decide; by simplify_eq. }
  pose proof (segment_loop_closed times (m * 60000000)) as [Hall Hopen].
  destruct (segment_loop times (m * 60000000)) as [start intervals].
  cbn [fst snd] in Hall, Hopen.
  apply bind_Ok in Hrun as (x0 & H0 & Hrun). apply getitem_first_Ok in H0.
  assert ((nth a times 0, nth b times 0) ∈ intervals) as Hin.
  { apply Hall; [done|]. destruct Hab as (_ & Hb & _). lia. }
  case_bool_decide as Hover; [|simplify_eq; split; [by left|done]].
  apply bind_Ok in Hrun as (xl & Hl & [= <-]). apply getitem_last_Ok in Hl.
  split; [right; by exists x0, xl|]. intros Hs Hm. exfalso. subst start.
  destruct Hopen as (a0 & Ha0 & Hx0 & Hgaps & _).
  destruct Hab as (Hlt & Hb & _ & _ & Hwide). apply Hwide.
  destruct (decide (a0 ≤ b)%nat); [apply Hgaps; lia|].
  (* the samples up to the start of the open run all equal the first one *)
  assert (∀ i x, (i ≤ a0)%nat → times !! i = Some x → x = x0) as Heq.
  { intros i x Hi Hx.
    destruct (lookup_lt_is_Some_2 times a0) as [y Hy]; [lia|].
    rewrite (nth_lookup_Some _ _ 0 _ Hy) in Hx0. subst y.
    pose proof (Sorted_le_lookup times i a0 x x0 Hs Hx Hy Hi).
    assert (times !! 0%nat = Some x0) as H0' by (by destruct times; simplify_eq/=).
    pose proof (Sorted_le_lookup times 0 i x0 x Hs H0' Hx ltac:(lia)). lia. }
  destruct (lookup_lt_is_Some_2 times b) as [xb Hxb]; [lia|].
  destruct (lookup_lt_is_Some_2 times (S b)) as [xb' Hxb']; [lia|].
  rewrite (nth_lookup_Some _ _ 0 _ Hxb), (nth_lookup_Some _ _ 0 _ Hxb').
  rewrite (Heq b xb), (Heq (S b) xb') by (done || lia). lia.
Qed.

(** Maximum gap five minutes on the series with a late sample: the run of
    minutes 10 to 12 is closed by the gap to minute 30 and is returned. *)
Lemma identifyTimeIntervals_closed_runs_witness :
  closed_run long_times (5 * 60000000) 3 5 ∧
  Sorted Z.le long_times ∧
  (minute sample_day 10, minute sample_day 12)
  ∈ [(minute sample_day 0, minute sample_day 2);
     (minute sample_day 10, minute sample_day 12)].
Proof.
  assert (closed_run long_times (5 * 60000000) 3 5) as Hrun.
  { split_and!; [lia|simpl; lia| |right; by vm_compute|by vm_compute].
    intros i Hi. assert (i = 3 ∨ i = 4)%nat as [-> | ->] by lia; by vm_compute. }
  assert (Sorted Z.le long_times) as Hs by (repeat constructor; by vm_compute).
  split_and!; [exact Hrun|exact Hs|].
  exact (proj2 (identifyTimeIntervals_closed_runs long_times 5 _ 3 5
                  eq_refl Hrun) Hs ltac:(lia)).
Defined.

(** * Tables of columns *)

Section dict_lemmas.
Context {K V : Type} `{EqDecision K}.
Implicit Types (d : dict K V) (k : K) (v : V).

Lemma dict_get_set d k v : dict_get (dict_set d k v) k = Some v.
Proof.
  induction d as [|[k' v'] d IH]; simpl.
  - by rewrite decide_True.
  - destruct (decide (k = k')) as [->|Hne]; simpl.
    + by rewrite decide_True.
    + by rewrite decide_False.
Qed.

Lemma dict_get_set_ne d k k' v :
  k ≠ k' → dict_get (dict_set d k v) k' = dict_get d k'.
Proof.
  intros Hne. induction d as [|[k0 v0] d IH]; simpl.
  - by rewrite decide_False.
  - destruct (decide (k = k0)) as [->|Hne0]; simpl.
    + destruct (decide (k' = k0)); [congruence|done].
    + destruct (decide (k' = k0)); done.
Qed.

Lemma dict_get_Some d k v : dict_get d k = Some v → (k, v) ∈ d.
Proof.
  induction d as [|[k' v'] d IH]; simpl; [done|].
  destruct (decide (k = k')) as [->|Hne].
  - intros [= ->]. by left.
  - intros Hd. right. by apply IH.
Qed.

Lemma dict_get_None d k : dict_get d k = None ↔ k ∉ d.*1.
Proof.
  induction d as [|[k' v'] d IH]; simpl.
  - split; [intros _; apply not_elem_of_nil|done].
  - rewrite not_elem_of_cons. destruct (decide (k = k')) as [->|Hne].
    + split; [done|]. by intros [? _].
    + rewrite IH. tauto.
Qed.

Lemma dict_get_NoDup d k v : NoDup d.*1 → (k, v) ∈ d → dict_get d k = Some v.
Proof.
  induction d as [|[k' v'] d IH]; simpl; [by intros _ ?%elem_of_nil|].
  intros [Hk Hd]%NoDup_cons [[= -> ->]|Hin]%elem_of_cons.
  - by rewrite decide_True.
  - rewrite decide_False; [by apply IH|]. intros ->. apply Hk.
    apply list_elem_of_fmap. by exists (k', v).
Qed.

Lemma dict_set_keys d k v :
  (dict_set d k v).*1 = if decide (k ∈ d.*1) then d.*1 else d.*1 ++ [k].
Proof.
  induction d as [|[k' v'] d IH]; [done|]. csimpl.
  destruct (decide (k = k')) as [->|Hne]; csimpl.
  - rewrite decide_True; [done|by left].
  - rewrite IH. destruct (decide (k ∈ d.*1)) as [Hin|Hout].
    + rewrite decide_True; [done|by right].
    + rewrite decide_False; [done|]. by intros [?|?]%elem_of_cons.
Qed.

Lemma dict_set_keys_in d k v : is_Some (dict_get d k) → (dict_set d k v).*1 = d.*1.
Proof.
  intros Hk. rewrite dict_set_keys, decide_True; [done|].
  destruct (decide (k ∈ d.*1)) as [|Hout]; [done|].
  apply dict_get_None in Hout. rewrite Hout in Hk. by destruct Hk.
Qed.

Lemma dict_set_new d k v : k ∉ d.*1 → dict_set d k v = d ++ [(k, v)].
Proof.
  induction d as [|[k' v'] d IH]; simpl; [done|].
  intros [Hne Hout]%not_elem_of_cons. rewrite decide_False by done.
  by rewrite IH.
Qed.

Lemma dict_set_set d k v v' : dict_set (dict_set d k v) k v' = dict_set d k v'.
Proof.
  induction d as [|[k0 v0] d IH]; simpl.
  - by rewrite decide_True.
  - destruct (decide (k = k0)) as [->|Hne]; simpl.
    + by rewrite decide_True.
    + rewrite decide_False by done. by rewrite IH.
Qed.

Lemma dict_getitem_Ok d k v : dict_getitem d k = Ok v ↔ dict_get d k = Some v.
Proof. unfold dict_getitem. destruct (dict_get d k); split; congruence. Qed.

End dict_lemmas.

(** A list with exactly one distinct value is a non-empty constant list. *)
Lemma remove_dups_one {A} `{EqDecision A} (l : list A) :
  length (remove_dups l) = 1%nat ↔
  ∃ x, remove_dups l = [x] ∧ l ≠ [] ∧ ∀ y, y ∈ l → y = x.
Proof.
  split.
  - intros Hlen. destruct (remove_dups l) as [|x [|? ?]] eqn:Hl; try done.
    exists x. split_and!; [done| |].
    + intros ->. done.
    + intros y Hy. apply elem_of_remove_dups in Hy. rewrite Hl in Hy.
      by apply list_elem_of_singleton in Hy.
  - intros (x & -> & _). done.
Qed.

Lemma remove_dups_constant {A} `{EqDecision A} (l : list A) x :
  l ≠ [] → (∀ y, y ∈ l → y = x) → remove_dups l = [x].
Proof.
  induction l as [|a l IH]; intros Hne Hall; [done|].
  assert (a = x) as -> by (apply Hall; by left).
  cbn [remove_dups]. destruct (decide_rel _ _ _) as [Hin|Hout].
  - apply IH; [by intros ->; apply elem_of_nil in Hin|].
    intros y Hy. apply Hall. by right.
  - destruct l as [|b l]; [done|]. destruct Hout.
    assert (b = x) as -> by (apply Hall; right; by left). by left.
Qed.

Lemma padData_Ok {V} `{EqDecision V} (data data' : dict string (list V))
    (pad_to_len_of pad_len_of : string) :
  padData data pad_to_len_of pad_len_of = Ok data' →
  ∃ val col target,
    dict_get data pad_len_of = Some col ∧ col ≠ [] ∧ (∀ y, y ∈ col → y = val) ∧
    dict_get data pad_to_len_of = Some target ∧
    data' = dict_set data pad_len_of (replicate (length target) val).
Proof.
  unfold padData. intros Hrun.
  apply bind_Ok in Hrun as (col & Hcol & Hrun). rewrite Hcol in Hrun.
  apply dict_getitem_Ok in Hcol.
  case_decide as Hone; [|done].
  apply remove_dups_one in Hone as (val & Hval & Hne & Hall).
  cbn [mbind res_bind] in Hrun.
  rewrite Hval in Hrun. cbn [mbind res_bind getitem_first head] in Hrun.
  apply bind_Ok in Hrun as (target & Htarget & [= <-]).
  apply dict_getitem_Ok in Htarget.
  by exists val, col, target.
Qed.

Lemma padData_two_values {V} `{EqDecision V} (data : dict string (list V))
    (pad_to_len_of pad_len_of : string) col x y :
  dict_get data pad_len_of = Some col → x ∈ col → y ∈ col → x ≠ y →
  padData data pad_to_len_of pad_len_of = Raise AssertionError.
Proof.
  intros Hcol Hx Hy Hxy. unfold padData, dict_getitem. rewrite Hcol.
  cbn [mbind res_bind]. case_decide as Hone; [|done].
  apply remove_dups_one in Hone as (val & _ & _ & Hall).
  destruct Hxy. by rewrite (Hall x), (Hall y).
Qed.

(** X9.  A call of [padData] that returns was given a column [pad_len_of] that is
    not empty and holds one value throughout; the column is replaced by as
    many copies of that value as the column [pad_to_len_of] has entries, and
    the keys, their order and every other column are as before. *)
Theorem padData_returns {V} `{EqDecision V} (data data' : dict string (list V))
    (pad_to_len_of pad_len_of : string) :
  padData data pad_to_len_of pad_len_of = Ok data' →
  ∃ val col target,
    dict_get data pad_len_of = Some col ∧ col ≠ [] ∧ (∀ y, y ∈ col → y = val) ∧
    dict_get data pad_to_len_of = Some target ∧
    dict_get data' pad_len_of = Some (replicate (length target) val) ∧
    (∀ k, k ≠ pad_len_of → dict_get data' k = dict_get data k) ∧
    data'.*1 = data.*1.
Proof.
  intros (val & col & target & Hcol & Hne & Hall & Htarget & ->)%padData_Ok.
  exists val, col, target. split_and!; try done.
  - apply dict_get_set.
  - intros k Hk. by apply dict_get_set_ne.
  - by apply dict_set_keys_in.
Qed.

(** X10.  [padData] raises [AssertionError] exactly when the column to pad exists
    and is empty or holds two different values. *)
Theorem padData_AssertionError {V} `{EqDecision V} (data : dict string (list V))
    (pad_to_len_of pad_len_of : string) :
  padData data pad_to_len_of pad_len_of = Raise AssertionError ↔
  ∃ col, dict_get data pad_len_of = Some col ∧
         (col = [] ∨ ∃ x y, x ∈ col ∧ y ∈ col ∧ x ≠ y).
Proof.
  unfold padData, dict_getitem.
  destruct (dict_get data pad_len_of) as [col|] eqn:Hcol; cbn [mbind res_bind].
  2:{ split; [done|]. by intros (? & ? & _). }
  case_decide as Hone.
  - apply remove_dups_one in Hone as (val & Hval & Hne & Hall).
    rewrite Hval. cbn [mbind res_bind getitem_first head]. split.
    + by destruct (dict_get data pad_to_len_of).
    + intros (? & [= <-] & [->|(x & y & Hx & Hy & Hxy)]); [done|].
      destruct Hxy. by rewrite (Hall x), (Hall y).
  - split; [intros _|done]. exists col. split; [done|].
    destruct col as [|x col]; [by left|right].
    destruct (decide (Forall (eq x) col)) as [Hall|Hdiff].
    + destruct Hone. erewrite (remove_dups_constant (x :: col) x); [done..|].
      intros y [->|Hy]%elem_of_cons; [done|].
      rewrite Forall_forall in Hall. symmetry. by apply Hall.
    + apply not_Forall_Exists in Hdiff; [|apply _].
      apply Exists_exists in Hdiff as (y & Hy & Hxy).
      exists x, y. split_and!; [by left|by right|done].
Qed.

(** X11.  Padding the same column again changes nothing, unless the column that
    gives the length is empty: then the first call has emptied the padded
    column and the second call fails its assertion. *)
Theorem padData_again {V} `{EqDecision V} (data data' : dict string (list V))
    (pad_to_len_of pad_len_of : string) :
  pad_to_len_of ≠ pad_len_of →
  padData data pad_to_len_of pad_len_of = Ok data' →
  ∃ target, dict_get data pad_to_len_of = Some target ∧
    padData data' pad_to_len_of pad_len_of
    = if decide (target = []) then Raise AssertionError else Ok data'.
Proof.
  intros Hne Hrun. unfold padData in Hrun.
  apply bind_Ok in Hrun as (col & Hcol & Hrun). rewrite Hcol in Hrun.
  case_decide as Hone; [|done].
  apply remove_dups_one in Hone as (val & Hval & _ & _).
  cbn [mbind res_bind] in Hrun.
  rewrite Hval in Hrun. cbn [mbind res_bind getitem_first head] in Hrun.
  apply bind_Ok in Hrun as (target & Htarget & [= <-]).
  apply dict_getitem_Ok in Htarget. exists target. split; [done|].
  unfold padData, dict_getitem. rewrite dict_get_set. cbn [mbind res_bind].
  rewrite dict_get_set_ne, Htarget by done.
  destruct target as [|t target].
  { rewrite (decide_True _ _ eq_refl). by cbn. }
  rewrite (decide_False (P:=t :: target = [])) by done.
  rewrite (remove_dups_constant _ val); [|done|].
  2:{ intros y Hy. by apply elem_of_replicate in Hy as [-> _]. }
  rewrite decide_True by done. cbn [mbind res_bind getitem_first head].
  by rewrite dict_set_set.
Qed.

(** * The loop over the groups *)

Section group_lemmas.
Context {L : NumLib}.

Lemma dates_Ok (col : list cell) xs : dates col = Ok xs → col = Date <$> xs.
Proof.
  unfold dates. revert xs. induction col as [|c col IH]; intros xs Hd.
  - by injection Hd as <-.
  - apply mapM_cons_Ok in Hd as (t & xs' & Ht & Hxs & ->).
    destruct c; simplify_eq/=. f_equal. by apply IH.
Qed.

Lemma nums_Ok (col : list cell) ys : nums col = Ok ys → col = Num <$> ys.
Proof.
  unfold nums. revert ys. induction col as [|c col IH]; intros ys Hd.
  - by injection Hd as <-.
  - apply mapM_cons_Ok in Hd as (t & ys' & Ht & Hys & ->).
    destruct c; simplify_eq/=. f_equal. by apply IH.
Qed.

Lemma dates_fmap xs : dates (Date <$> xs) = Ok xs.
Proof.
  unfold dates. induction xs as [|x xs IH]; [done|].
  apply mapM_cons_Ok. by exists x, xs.
Qed.

Lemma nums_fmap ys : nums (Num <$> ys) = Ok ys.
Proof.
  unfold nums. induction ys as [|y ys IH]; [done|].
  apply mapM_cons_Ok. by exists y, ys.
Qed.

(** The tagging loop writes inside the column as long as every index is
    inside: it never raises then. *)
Lemma tag_interpolated_Ok (inds : list nat) : ∀ (d : dict string (list cell)) col,
  dict_get d "source_id" = Some col →
  Forall (λ i, i < length col)%nat inds →
  tag_interpolated d inds
  = Ok (dict_set d "source_id"
          (foldl (λ c i, <[i:=Str "interpolation"]> c) col inds)).
Proof.
  unfold tag_interpolated.
  induction inds as [|i inds IH]; intros d col Hcol Hall.
  - simpl. f_equal. clear -Hcol. induction d as [|[k v] d IH]; [done|].
    simpl in *. destruct (decide ("source_id" = k)) as [<-|]; [congruence|].
    f_equal. by apply IH.
  - apply Forall_cons in Hall as [Hi Hall]. cbn [for_each foldl]. cbv beta.
    rewrite (proj2 (dict_getitem_Ok d _ _) Hcol). cbn [mbind res_bind].
    unfold setitem. rewrite decide_True by done. cbn [mbind res_bind].
    erewrite IH; [by rewrite dict_set_set|apply dict_get_set|].
    by rewrite length_insert.
Qed.

Lemma tagged_lookup {A} (t : A) (inds : list nat) : ∀ (col : list A) i a,
  col !! i = Some a →
  foldl (λ c i, <[i:=t]> c) col inds !! i
  = Some (if decide (i ∈ inds) then t else a).
Proof.
  induction inds as [|j inds IH]; intros col i a Hi.
  - by rewrite decide_False by apply not_elem_of_nil.
  - cbn [foldl]. destruct (decide (i = j)) as [->|Hne].
    + rewrite (IH _ j t) by (apply list_lookup_insert_eq; by eapply lookup_lt_Some).
      rewrite (decide_True (P:=j ∈ j :: inds)) by (by left).
      by destruct (decide (j ∈ inds)).
    + rewrite (IH _ i a) by (by rewrite list_lookup_insert_ne).
      destruct (decide (i ∈ inds)) as [Hin|Hout].
      * rewrite decide_True; [done|by right].
      * rewrite decide_False; [done|]. by intros [?|?]%elem_of_cons.
Qed.

Lemma tagged_length {A} (t : A) (inds : list nat) : ∀ col : list A,
  length (foldl (λ c i, <[i:=t]> c) col inds) = length col.
Proof.
  induction inds as [|j inds IH]; intros col; [done|].
  cbn [foldl]. by rewrite IH, length_insert.
Qed.

End group_lemmas.

Lemma process_group_Ok {L : NumLib} fuel (args : arguments)
    (d d' : dict string (list cell)) :
  process_group fuel args d = Ok d' →
  ∃ xs g gy src name,
    dict_get d "datetime" = Some (Date <$> xs) ∧
    (∃ col, dict_get d "source_id" = Some col ∧ col ≠ [] ∧ ∀ c, c ∈ col → c = src) ∧
    (∃ col, dict_get d "property_name" = Some col ∧ col ≠ [] ∧
            ∀ c, c ∈ col → c = name) ∧
    dict_get d' "datetime" = Some (Date <$> g) ∧
    dict_get d' "temperature" = Some (Num <$> gy) ∧ length gy = length g ∧
    dict_get d' "property_name" = Some (replicate (length g) name) ∧
    (∃ tags, dict_get d' "source_id" = Some tags ∧ length tags = length g ∧
       ∀ i x, g !! i = Some x →
         tags !! i = Some (if decide (x ∈ xs) then src else Str "interpolation")) ∧
    d'.*1 = d.*1 ∧
    ∀ k, k ∉ ["datetime"; "temperature"; "source_id"; "property_name"] →
         dict_get d' k = dict_get d k.
Proof.
  unfold process_group. intros Hrun.
  apply bind_Ok in Hrun as (xcol & Hxcol & Hrun).
  apply bind_Ok in Hrun as (ycol & Hycol & Hrun).
  apply bind_Ok in Hrun as (delta & _ & Hrun).
  apply bind_Ok in Hrun as (xs & ->%dates_Ok & Hrun).
  apply bind_Ok in Hrun as (ys & ->%nums_Ok & Hrun).
  apply bind_Ok in Hrun as ([[x gy] inds] & Hint & Hrun).
  apply dict_getitem_Ok in Hxcol, Hycol.
  apply interpolate_Datetimes_Ok in Hint as (r & Hr & [= -> -> ->]).
  destruct (interpolate_datetime_Ok _ _ _ _ _ _ _ _ _ Hr)
    as (_ & _ & _ & Hlen & _).
  set (g := r_x_interp r) in *. cbn [axis_cells] in Hrun.
  set (d1 := dict_set (dict_set d "datetime" (Date <$> g)) "temperature"
               (Num <$> r_y_interp r)) in Hrun.
  assert (∀ k, k ≠ "datetime" → k ≠ "temperature" →
            dict_get d1 k = dict_get d k) as Hd1.
  { intros k ??. unfold d1. by rewrite !dict_get_set_ne. }
  assert (dict_get d1 "datetime" = Some (Date <$> g)) as Hd1x.
  { unfold d1. rewrite dict_get_set_ne by done. apply dict_get_set. }
  assert (d1.*1 = d.*1) as Hk1.
  { unfold d1. rewrite dict_set_keys_in.
    - rewrite dict_set_keys_in; [done|by eexists].
    - rewrite dict_get_set_ne by done. by eexists. }
  apply bind_Ok in Hrun as (d2 & Hpad1 & Hrun).
  apply padData_Ok in Hpad1 as (src & scol & t1 & Hscol & Hsne & Hsall & Ht1 & ->).
  rewrite Hd1x in Ht1. injection Ht1 as <-. rewrite length_fmap in Hrun.
  apply bind_Ok in Hrun as (d3 & Hpad2 & Hrun).
  apply padData_Ok in Hpad2 as (name & pcol & t2 & Hpcol & Hpne & Hpall & Ht2 & ->).
  rewrite dict_get_set_ne, Hd1x in Ht2 by done. injection Ht2 as <-.
  rewrite length_fmap in Hrun. rewrite dict_get_set_ne in Hpcol by done.
  rewrite Hd1 in Hscol, Hpcol by done.
  set (d3 := dict_set (dict_set d1 "source_id" (replicate (length g) src))
               "property_name" (replicate (length g) name)) in Hrun.
  assert (dict_get d3 "source_id" = Some (replicate (length g) src)) as Hd3s.
  { unfold d3. rewrite dict_get_set_ne by done. apply dict_get_set. }
  assert (∀ i, i ∈ interpolated_indices g xs ↔ ∃ x, g !! i = Some x ∧ x ∉ xs)
    as Hinds by apply elem_of_interpolated_indices.
  rewrite (tag_interpolated_Ok _ _ _ Hd3s) in Hrun.
  2:{ apply Forall_forall. intros i (x & Hx & _)%Hinds.
      rewrite length_replicate. by eapply lookup_lt_Some. }
  injection Hrun as <-.
  exists xs, g, (r_y_interp r), src, name. split_and!.
  - done.
  - by exists scol.
  - by exists pcol.
  - rewrite dict_get_set_ne by done. unfold d3.
    by rewrite !dict_get_set_ne by done.
  - rewrite dict_get_set_ne by done. unfold d3.
    rewrite !dict_get_set_ne by done. unfold d1. apply dict_get_set.
  - done.
  - rewrite dict_get_set_ne by done. unfold d3. apply dict_get_set.
  - eexists. split; [apply dict_get_set|]. split.
    + by rewrite tagged_length, length_replicate.
    + intros i x Hx.
      rewrite (tagged_lookup _ _ _ i src)
        by (apply lookup_replicate_2; by eapply lookup_lt_Some).
      f_equal. destruct (decide (x ∈ xs)) as [Hin|Hout].
      * rewrite decide_False; [done|]. intros (x' & Hx' & Hout)%Hinds.
        by simplify_eq.
      * rewrite decide_True; [done|]. apply Hinds. eauto.
  - rewrite dict_set_keys_in by (by eexists). unfold d3.
    rewrite dict_set_keys_in.
    + rewrite dict_set_keys_in; [done|]. rewrite Hd1 by done. by eexists.
    + rewrite dict_get_set_ne, Hd1 by done. by eexists.
  - intros k Hk. rewrite !not_elem_of_cons in Hk.
    destruct Hk as (? & ? & ? & ? & _).
    rewrite dict_get_set_ne by done. unfold d3.
    rewrite !dict_get_set_ne by done. by apply Hd1.
Qed.

(** X12.  One pass of the loop over the groups that returns.  The group came with
    a column of datetimes, a column [source_id] and a column [property_name]
    that are not empty and hold one value each.  It leaves with the resampled
    datetimes, as many temperatures, as many copies of the property name, and
    as many source ids: the group's own source id where the datetime is one
    of the original ones, ["interpolation"] everywhere else.  The tagging
    loop never writes outside the column; keys, their order and all other
    columns are as before. *)
Theorem process_group_returns {L : NumLib} fuel (args : arguments)
    (d d' : dict string (list cell)) :
  process_group fuel args d = Ok d' →
  ∃ xs g gy src name,
    dict_get d "datetime" = Some (Date <$> xs) ∧
    (∃ col, dict_get d "source_id" = Some col ∧ col ≠ [] ∧ ∀ c, c ∈ col → c = src) ∧
    (∃ col, dict_get d "property_name" = Some col ∧ col ≠ [] ∧
            ∀ c, c ∈ col → c = name) ∧
    dict_get d' "datetime" = Some (Date <$> g) ∧
    dict_get d' "temperature" = Some (Num <$> gy) ∧ length gy = length g ∧
    dict_get d' "property_name" = Some (replicate (length g) name) ∧
    (∃ tags, dict_get d' "source_id" = Some tags ∧ length tags = length g ∧
       ∀ i x, g !! i = Some x →
         tags !! i = Some (if decide (x ∈ xs) then src else Str "interpolation")) ∧
    d'.*1 = d.*1 ∧
    ∀ k, k ∉ ["datetime"; "temperature"; "source_id"; "property_name"] →
         dict_get d' k = dict_get d k.
Proof. apply process_group_Ok. Qed.

(** X13.  A group whose column [source_id] holds two different values stops the
    script with [AssertionError], after the interpolation has been done: the
    tool cannot resample a property that two sources have logged. *)
Theorem process_group_two_sources {L : NumLib} fuel (args : arguments)
    (d : dict string (list cell)) xs ys delta out col a b :
  dict_get d "datetime" = Some (Date <$> xs) →
  dict_get d "temperature" = Some (Num <$> ys) →
  Datetime.of_minutes (timedelta args) = Ok delta →
  interpolate fuel (Datetimes xs) ys (spline_order args) (Timedelta delta)
    (keep_old args) (interpolation_mode args) (max_interval args) = Ok out →
  dict_get d "source_id" = Some col → a ∈ col → b ∈ col → a ≠ b →
  process_group fuel args d = Raise AssertionError.
Proof.
  intros Hx Hy Hdelta Hint Hcol Ha Hb Hab. unfold process_group, dict_getitem.
  rewrite Hx, Hy, Hdelta. cbn [mbind res_bind].
  rewrite dates_fmap, nums_fmap. cbn [mbind res_bind]. rewrite Hint.
  destruct out as [[x y] inds]. cbn [mbind res_bind].
  erewrite padData_two_values; [done| |exact Ha|exact Hb|exact Hab].
  by rewrite !dict_get_set_ne.
Qed.

(** * Concrete tables *)

Section tables_concrete.
Import SpecLib.
Local Existing Instance lib.

(** Column ["2"] padded to the ten entries of column ["1"]. *)
Lemma padData_returns_witness :
  padData ragged_table "1" "2"
  = Ok [("0", seqZ 0 8); ("1", Z.opp <$> seqZ 0 10); ("2", replicate 10 7);
        ("3", [])] ∧
  ∃ col, dict_get ragged_table "2" = Some col ∧ col ≠ [].
Proof.
  assert (padData ragged_table "1" "2"
          = Ok [("0", seqZ 0 8); ("1", Z.opp <$> seqZ 0 10);
                ("2", replicate 10 7); ("3", [])]) as Hrun by reflexivity.
  split; [exact Hrun|].
  destruct (padData_returns ragged_table _ "1" "2" Hrun)
    as (val & col & target & Hcol & Hne & _).
  by exists col.
Defined.

(** Column ["2"] padded to the empty column ["3"] becomes empty, and cannot
    be padded again. *)
Lemma padData_again_witness :
  "3" ≠ "2" ∧
  padData ragged_table "3" "2"
  = Ok [("0", seqZ 0 8); ("1", Z.opp <$> seqZ 0 10); ("2", []); ("3", [])] ∧
  padData [("0", seqZ 0 8); ("1", Z.opp <$> seqZ 0 10); ("2", []); ("3", [])]
    "3" "2" = Raise AssertionError.
Proof.
  assert ("3" ≠ "2") as Hne by done.
  assert (padData ragged_table "3" "2"
          = Ok [("0", seqZ 0 8); ("1", Z.opp <$> seqZ 0 10); ("2", []);
                ("3", [])]) as Hrun by reflexivity.
  split_and!; [exact Hne|exact Hrun|].
  destruct (padData_again ragged_table _ "3" "2" Hne Hrun)
    as (target & Htarget & Hagain).
  injection Htarget as <-. exact Hagain.
Defined.

(** The sample group, step five minutes, originals kept: seven rows, of
    which the fourth is tagged. *)
Lemma process_group_returns_witness :
  process_group 20 sample_arguments sample_group = Ok sample_resampled ∧
  sample_resampled.*1 = sample_group.*1.
Proof.
  assert (process_group 20 sample_arguments sample_group = Ok sample_resampled)
    as Hrun by reflexivity.
  split; [exact Hrun|].
  destruct (process_group_returns (L:=lib) _ _ _ _ Hrun)
    as (xs & g & gy & src & name & H).
  apply H.
Defined.

(** The group with two sources: the interpolation returns, the padding of
    [source_id] fails. *)
Lemma process_group_two_sources_witness :
  Str "sensor" ≠ Str "backup" ∧
  process_group 20 sample_arguments mixed_group = Raise AssertionError.
Proof.
  assert (Str (L:=lib) "sensor" ≠ Str "backup") as Hne by done.
  split; [exact Hne|].
  apply (process_group_two_sources (L:=lib) 20 sample_arguments mixed_group
           sample_times sample_values (5 * one_minute)
           (Datetimes (minute sample_day <$> [0; 1; 2; 5; 10; 11; 12]),
            inject_Z <$> [0; 1; 2; 5; 10; 11; 12], [3%nat])
           (replicate 5 (Str "sensor") ++ [Str "backup"])
           (Str "sensor") (Str "backup"));
    [reflexivity|reflexivity|reflexivity|reflexivity|reflexivity
    |by left|do 5 right; by left|exact Hne].
Defined.

End tables_concrete.

(** * splitProperties *)

Lemma for_each_inv {A St} (body : St → A → res St) (bad : A → Prop) (e : exn) :
  ∀ (l : list A) (I : nat → St → Prop),
  (∀ j s x, l !! j = Some x → I j s →
     (bad x ∧ body s x = Raise e) ∨
     (¬ bad x ∧ ∃ s', body s x = Ok s' ∧ I (S j) s')) →
  ∀ s, I 0%nat s →
    (Exists bad l ∧ for_each body s l = Raise e) ∨
    (Forall (λ x, ¬ bad x) l ∧
     ∃ s', for_each body s l = Ok s' ∧ I (length l) s').
Proof.
  induction l as [|x l IH]; intros I Hstep s Hs.
  - right. split; [constructor|]. by exists s.
  - cbn [for_each].
    destruct (Hstep 0%nat s x eq_refl Hs) as [[Hbad ->]|(Hgood & s' & -> & Hs')].
    + left. split; [by left|done].
    + cbn [mbind res_bind].
      destruct (IH (λ j, I (S j)) (λ j, Hstep (S j)) s' Hs')
        as [[Hbad Hrun]|(Hall & s'' & Hrun & Hs'')].
      * left. split; [by right|done].
      * right. split; [by constructor|]. by exists s''.
Qed.

Lemma length_remove_dups_le {A} `{EqDecision A} (l : list A) :
  (length (remove_dups l) ≤ length l)%nat.
Proof.
  induction l as [|x l IH]; [done|]. cbn [remove_dups].
  destruct (decide_rel _ _ _); simpl; lia.
Qed.

Lemma has_duplicates_iff {A} `{EqDecision A} (l : list A) :
  has_duplicates l ↔ ¬ NoDup l.
Proof.
  unfold has_duplicates. induction l as [|x l IH].
  - split; [done|]. intros Hn. destruct Hn. constructor.
  - cbn [remove_dups]. pose proof (length_remove_dups_le l).
    rewrite NoDup_cons. destruct (decide_rel _ _ _) as [Hin|Hout]; simpl.
    + split; [tauto|lia].
    + split.
      * intros Hlen [_ Hnd]. apply (proj1 IH); [lia|done].
      * intros Hn Hlen. apply Hn. split; [done|].
        destruct (decide (NoDup l)) as [|Hnd]; [done|].
        apply (proj2 IH) in Hnd. lia.
Qed.

Lemma dict_set_NoDup {K V} `{EqDecision K} (d : dict K V) k v :
  NoDup d.*1 → NoDup (dict_set d k v).*1.
Proof.
  intros Hnd. rewrite dict_set_keys. case_decide as Hin; [done|].
  apply NoDup_app. split_and!; [done| |apply NoDup_singleton].
  intros x Hx ->%list_elem_of_singleton. done.
Qed.

Lemma elem_of_dict_set_keys {K V} `{EqDecision K} (d : dict K V) k v x :
  x ∈ (dict_set d k v).*1 ↔ x ∈ d.*1 ∨ x = k.
Proof.
  rewrite dict_set_keys. case_decide as Hin.
  - split; [by left|]. by intros [?| ->].
  - rewrite elem_of_app, list_elem_of_singleton. done.
Qed.

Section split_lemmas.
Context {V : Type} `{EqDecision V}.
Implicit Types (data : dict string (list V)) (pv : list V).

(** The dict comprehension [{v: {} for v in prop_vals}]. *)
Lemma comprehension_keys pv : ∀ acc : dict V (dict string (list V)),
  NoDup acc.*1 → (∀ v, v ∈ acc.*1 → dict_get acc v = Some []) →
  NoDup (foldl (λ ds v, dict_set ds v []) acc pv).*1 ∧
  (∀ v, v ∈ (foldl (λ ds v, dict_set ds v []) acc pv).*1 ↔ v ∈ acc.*1 ∨ v ∈ pv) ∧
  (∀ v, v ∈ (foldl (λ ds v, dict_set ds v []) acc pv).*1 →
        dict_get (foldl (λ ds v, dict_set ds v []) acc pv) v = Some []).
Proof.
  induction pv as [|x pv IH]; intros acc Hnd Hempty.
  - split_and!; [done| |done]. intros v. split; [by left|].
    by intros [?|?%elem_of_nil].
  - cbn [foldl].
    destruct (IH (dict_set acc x [])) as (Hnd' & Hkeys & Hget).
    + by apply dict_set_NoDup.
    + intros v [Hv| ->]%elem_of_dict_set_keys; [|apply dict_get_set].
      destruct (decide (x = v)) as [->|Hne]; [apply dict_get_set|].
      rewrite dict_get_set_ne by done. by apply Hempty.
    + split_and!; [done| |done]. intros v. rewrite Hkeys.
      rewrite elem_of_dict_set_keys, elem_of_cons. tauto.
Qed.

(** The rows of the group [v] built from the first [j] columns. *)
Local Abbreviation rows data pv j v :=
  (prod_map id (λ col, group_column col pv v) <$> take j data).

Lemma rows_keys data pv j v : (rows data pv j v).*1 = take j data.*1.
Proof.
  rewrite <-fmap_take, <-list_fmap_compose. apply list_fmap_ext.
  by intros ? [??].
Qed.

Lemma rows_next data pv j v k col :
  NoDup data.*1 → data !! j = Some (k, col) →
  dict_set (rows data pv j v) k (group_column col pv v)
  = rows data pv (S j) v.
Proof.
  intros Hnd Hj. rewrite dict_set_new.
  - by rewrite (take_S_r _ _ _ Hj), fmap_app.
  - rewrite rows_keys. intros Hin.
    apply list_elem_of_lookup in Hin as (i & Hi).
    apply lookup_take_Some in Hi as [Hi Hij].
    assert (data.*1 !! j = Some k) as Hj' by (by rewrite list_lookup_fmap, Hj).
    pose proof (NoDup_lookup _ _ _ _ Hnd Hi Hj'). lia.
Qed.

(** The inner loop, for the [j]-th key [k] of [data]. *)
Lemma split_inner data pv check (ks pvs : list V) j k col :
  NoDup data.*1 → data !! j = Some (k, col) →
  NoDup pvs → (∀ v, v ∈ pvs ↔ v ∈ ks) →
  ∀ ds : dict V (dict string (list V)),
  ds.*1 = ks → (∀ v, v ∈ ks → dict_get ds v = Some (rows data pv j v)) →
  (Exists (λ v, k ∈ check ∧ has_duplicates (group_column col pv v)) pvs ∧
   for_each (split_cell data pv check k) ds pvs = Raise DuplicateException) ∨
  (Forall (λ v, ¬ (k ∈ check ∧ has_duplicates (group_column col pv v))) pvs ∧
   ∃ ds', for_each (split_cell data pv check k) ds pvs = Ok ds' ∧
          ds'.*1 = ks ∧ ∀ v, v ∈ ks → dict_get ds' v = Some (rows data pv (S j) v)).
Proof.
  intros Hnd Hj Hpvs Hcover ds Hkeys Hget.
  assert (dict_get data k = Some col) as Hcol.
  { apply dict_get_NoDup; [done|]. by eapply list_elem_of_lookup_2. }
  destruct (for_each_inv (split_cell data pv check k)
              (λ v, k ∈ check ∧ has_duplicates (group_column col pv v))
              DuplicateException pvs
              (λ m ds, ds.*1 = ks ∧ ∀ v, v ∈ ks →
                 dict_get ds v = Some (if decide (v ∈ take m pvs)
                                       then rows data pv (S j) v
                                       else rows data pv j v)))
    with (s := ds) as [Hbad|(Hgood & ds' & Hrun & Hkeys' & Hget')].
  - intros m s v Hm [Hsk Hsg]. unfold split_cell, dict_getitem.
    rewrite Hcol. cbn [mbind res_bind].
    assert (v ∈ ks) as Hv by (apply Hcover; by eapply list_elem_of_lookup_2).
    assert (v ∉ take m pvs) as Hfresh.
    { intros (i & Hi)%list_elem_of_lookup.
      apply lookup_take_Some in Hi as [Hi Him].
      pose proof (NoDup_lookup _ _ _ _ Hpvs Hi Hm). lia. }
    rewrite (Hsg v Hv), decide_False by done. cbn [mbind res_bind].
    rewrite (rows_next _ _ _ _ _ _ Hnd Hj).
    assert ((dict_set s v (rows data pv (S j) v)).*1 = ks ∧
            ∀ v', v' ∈ ks →
              dict_get (dict_set s v (rows data pv (S j) v)) v'
              = Some (if decide (v' ∈ take (S m) pvs)
                      then rows data pv (S j) v' else rows data pv j v'))
      as Hnext.
    { split.
      - rewrite dict_set_keys_in; [done|]. rewrite (Hsg v Hv). by eexists.
      - intros v' Hv'. rewrite (take_S_r _ _ _ Hm).
        destruct (decide (v = v')) as [<-|Hne].
        + rewrite dict_get_set, decide_True; [done|].
          apply elem_of_app. right. by left.
        + rewrite dict_get_set_ne, (Hsg v' Hv') by done.
          destruct (decide (v' ∈ take m pvs)) as [Hin|Hout].
          * rewrite decide_True; [done|]. apply elem_of_app. by left.
          * rewrite decide_False; [done|].
            intros [?|?%list_elem_of_singleton]%elem_of_app; by simplify_eq. }
    destruct (decide (k ∈ check)) as [Hk|Hk].
    + destruct (decide (has_duplicates (group_column col pv v))) as [Hd|Hd].
      * by left.
      * right. split; [tauto|]. by eexists.
    + right. split; [tauto|]. by eexists.
  - split; [done|]. intros v Hv. by rewrite (Hget v Hv).
  - by left.
  - right. split; [done|]. exists ds'. split_and!; [done..|].
    intros v Hv. rewrite (Hget' v Hv), firstn_all, decide_True; [done|].
    by apply Hcover.
Qed.

(** The two nested loops. *)
Lemma split_loops data pv check (ks pvs : list V) :
  NoDup data.*1 → NoDup pvs → (∀ v, v ∈ pvs ↔ v ∈ ks) →
  ∀ ds : dict V (dict string (list V)),
  ds.*1 = ks → (∀ v, v ∈ ks → dict_get ds v = Some []) →
  let bad k := k ∈ check ∧ ∃ col, dict_get data k = Some col ∧
                 Exists (λ v, has_duplicates (group_column col pv v)) pvs in
  let loops := for_each (λ ds k, for_each (split_cell data pv check k) ds pvs)
                 ds data.*1 in
  (Exists bad data.*1 ∧ loops = Raise DuplicateException) ∨
  (Forall (λ k, ¬ bad k) data.*1 ∧
   ∃ ds', loops = Ok ds' ∧ ds'.*1 = ks ∧
     ∀ v, v ∈ ks →
       dict_get ds' v
       = Some (prod_map id (λ col, group_column col pv v) <$> data)).
Proof.
  intros Hnd Hpvs Hcover ds Hkeys Hget bad loops.
  destruct (for_each_inv
              (λ ds k, for_each (split_cell data pv check k) ds pvs)
              bad DuplicateException data.*1
              (λ j ds, ds.*1 = ks ∧ ∀ v, v ∈ ks →
                 dict_get ds v = Some (rows data pv j v)))
    with (s := ds) as [Hbad|(Hgood & ds' & Hrun & Hkeys' & Hget')].
  - intros j s k Hj [Hsk Hsg].
    rewrite list_lookup_fmap in Hj.
    destruct (data !! j) as [[k' col]|] eqn:Hj'; [|done].
    simpl in Hj. injection Hj as ->.
    assert (dict_get data k = Some col) as Hcol.
    { apply dict_get_NoDup; [done|]. by eapply list_elem_of_lookup_2. }
    destruct (split_inner data pv check ks pvs j k col Hnd Hj' Hpvs Hcover
                s Hsk Hsg) as [[Hbad Hrun]|(Hgood & s' & Hrun & Hs')].
    + left. split; [|done]. apply Exists_exists in Hbad as (v & Hv & Hk & Hd).
      split; [done|]. exists col. split; [done|].
      apply Exists_exists. eauto.
    + right. split; [|by exists s'].
      intros (Hk & col' & Hcol' & Hex).
      rewrite Hcol in Hcol'. injection Hcol' as <-.
      apply Exists_exists in Hex as (v & Hv & Hd).
      rewrite Forall_forall in Hgood. by apply (Hgood v Hv).
  - done.
  - by left.
  - right. split; [done|]. exists ds'. split_and!; [done..|].
    intros v Hv. rewrite (Hget' v Hv), length_fmap, firstn_all. done.
Qed.

End split_lemmas.

Lemma dict_get_fmap {K A B} `{EqDecision K} (f : A → B) (d : dict K A) k :
  dict_get (prod_map id f <$> d) k = f <$> dict_get d k.
Proof.
  induction d as [|[k' a] d IH]; [done|]. csimpl.
  destruct (decide (k = k')); [done|apply IH].
Qed.

Lemma dict_get_app_new {K A} `{EqDecision K} (d : dict K A) k a :
  dict_get d k = None → dict_get (d ++ [(k, a)]) k = Some a.
Proof.
  induction d as [|[k' a'] d IH]; simpl.
  - by rewrite decide_True.
  - destruct (decide (k = k')); [done|apply IH].
Qed.

Lemma for_each_nothing {A B St} (body : A → St → B → res St) (l : list A) s :
  for_each (λ s x, for_each (body x) s []) s l = Ok s.
Proof.
  induction l as [|x l IH]; [done|]. cbn [for_each mbind res_bind]. apply IH.
Qed.

Section group_column_lemmas.
Context {V : Type} `{EqDecision V}.
Implicit Types (col pv : list V) (v : V).

Lemma group_column_cons c col p pv v :
  group_column (c :: col) (p :: pv) v
  = if decide (p = v) then c :: group_column col pv v else group_column col pv v.
Proof.
  unfold group_column. cbn [zip zip_with]. rewrite filter_cons. simpl.
  by destruct (decide (p = v)).
Qed.

Lemma group_column_nil pv v : group_column [] pv v = [].
Proof. done. Qed.

(** In the group of [v] the column of the property holds [v] only. *)
Lemma group_column_self pv v :
  group_column pv pv v = replicate (length (filter (λ p, p = v) pv)) v.
Proof.
  induction pv as [|p pv IH]; [done|].
  rewrite group_column_cons, filter_cons.
  destruct (decide (p = v)) as [->|]; simpl; by rewrite IH.
Qed.

(** A column as long as the column of the property has in every group as
    many entries as the property has occurrences of the group's value. *)
Lemma group_column_length pv v : ∀ col,
  length col = length pv →
  length (group_column col pv v) = length (filter (λ p, p = v) pv).
Proof.
  induction pv as [|p pv IH]; intros [|c col] Hlen; simplify_eq/=; [done|].
  rewrite group_column_cons, filter_cons.
  destruct (decide (p = v)); simpl; by rewrite IH.
Qed.

(** The groups of a column share out its entries. *)
Lemma group_column_partition (vs : list V) : ∀ pv col,
  NoDup vs → length col = length pv → (∀ p, p ∈ pv → p ∈ vs) →
  col ≡ₚ concat ((λ v, group_column col pv v) <$> vs).
Proof.
  induction pv as [|p pv IH]; intros [|c col] Hnd Hlen Hcover; simplify_eq/=.
  - clear. induction vs as [|v vs IH]; [done|]. by csimpl.
  - assert (p ∈ vs) as Hp by (apply Hcover; by left).
    apply list_elem_of_split in Hp as (vs1 & vs2 & ->).
    pose proof Hnd as (_ & Hout1 & [Hout2 _]%NoDup_cons)%NoDup_app.
    assert (∀ us : list V, p ∉ us →
              (λ v, group_column (c :: col) (p :: pv) v) <$> us
              = (λ v, group_column col pv v) <$> us) as Hother.
    { intros us Hus. apply list_fmap_ext. intros _ v Hv%list_elem_of_lookup_2.
      rewrite group_column_cons, decide_False; [done|]. by intros ->. }
    rewrite (IH col Hnd) at 1; [|done|intros q Hq; apply Hcover; by right].
    rewrite !fmap_app, !fmap_cons, !concat_app, !concat_cons.
    rewrite (Hother vs1), (Hother vs2); [|done|].
    2:{ intros Hin. apply (Hout1 p Hin). by left. }
    rewrite group_column_cons, decide_True by done.
    rewrite <-app_comm_cons. by rewrite <-Permutation_middle.
Qed.

End group_column_lemmas.

Section split_theorems.
Context {V : Type} `{EqDecision V} (le : relation V) `{!RelDecision le}.
Implicit Types (data : dict string (list V)) (pv : list V).

Lemma splitProperties_cases default data prop check pv :
  NoDup data.*1 → dict_get data prop = Some pv →
  (duplicated data pv check ∧
   splitProperties le default data prop check = Raise DuplicateException) ∨
  (¬ duplicated data pv check ∧
   ∃ ds, splitProperties le default data prop check = Ok (ds, data) ∧
     NoDup ds.*1 ∧ (∀ v, v ∈ ds.*1 ↔ v ∈ pv) ∧
     ∀ v, v ∈ pv →
       dict_get ds v
       = Some (prod_map id (λ col, group_column col pv v) <$> data)).
Proof.
  intros Hnd Hprop. unfold splitProperties, column. rewrite Hprop.
  cbn [mbind res_bind]. rewrite Hprop. cbn [mbind res_bind].
  set (pvs := merge_sort le (remove_dups pv)).
  set (init := foldl (λ ds v, dict_set ds v []) [] pv).
  assert (pvs ≡ₚ remove_dups pv) as Hperm by apply merge_sort_Permutation.
  assert (NoDup pvs) as Hpvs by (rewrite Hperm; apply NoDup_remove_dups).
  assert (∀ v, v ∈ pvs ↔ v ∈ pv) as Hin.
  { intros v. by rewrite Hperm, elem_of_remove_dups. }
  destruct (comprehension_keys pv []) as (Hnd0 & Hkeys0 & Hget0);
    [constructor|by intros v ?%elem_of_nil|]. fold init in Hnd0, Hkeys0, Hget0.
  assert (∀ v, v ∈ pvs ↔ v ∈ init.*1) as Hcover.
  { intros v. rewrite Hin, Hkeys0. split; [by right|].
    by intros [?%elem_of_nil|?]. }
  destruct (split_loops data pv check init.*1 pvs Hnd Hpvs Hcover init eq_refl
              Hget0) as [[Hbad ->]|(Hgood & ds & -> & Hkeys & Hget)].
  - left. split; [|done].
    apply Exists_exists in Hbad as (k & Hk & Hcheck & col & Hcol & Hex).
    apply Exists_exists in Hex as (v & Hv & Hdup).
    exists k, col, v. split_and!; [done| | |].
    + by apply dict_get_Some.
    + by apply Hin.
    + by apply has_duplicates_iff.
  - right. split.
    + intros (k & col & v & Hk & Hcol & Hv & Hdup).
      rewrite Forall_forall in Hgood. apply (Hgood k).
      * apply list_elem_of_fmap. by exists (k, col).
      * split; [done|]. exists col. split; [by apply dict_get_NoDup|].
        apply Exists_exists. exists v. split; [by apply Hin|].
        by apply has_duplicates_iff.
    + exists ds. cbn [mbind res_bind]. split_and!; [done| | |].
      * by rewrite Hkeys.
      * intros v. rewrite Hkeys, <-Hcover. apply Hin.
      * intros v Hv. apply Hget, Hcover, Hin, Hv.
Qed.

End split_theorems.

(** X14.  A call of [splitProperties] that returns, on a table that has the
    column [prop].  There is one group for every value of that column and no
    other; the group of [v] has the keys of [data] in their order, and under
    each key the entries of that column of [data] in the rows where the
    property is [v], in their order; [data] itself is as before; and no
    checked column has a repeated entry inside a group. *)
Theorem splitProperties_returns {V} `{EqDecision V} (le : relation V)
    `{!RelDecision le} default (data data' : dict string (list V)) prop check
    pv ds :
  NoDup data.*1 → dict_get data prop = Some pv →
  splitProperties le default data prop check = Ok (ds, data') →
  data' = data ∧ NoDup ds.*1 ∧ (∀ v, v ∈ ds.*1 ↔ v ∈ pv) ∧
  (∀ v, v ∈ pv →
     dict_get ds v = Some (prod_map id (λ col, group_column col pv v) <$> data)) ∧
  (∀ k col v, k ∈ check → (k, col) ∈ data → v ∈ pv →
     NoDup (group_column col pv v)).
Proof.
  intros Hnd Hprop Hrun.
  destruct (splitProperties_cases le default data prop check pv Hnd Hprop)
    as [[_ Hraise]|(Hgood & ds0 & Hok & Hkeys & Hin & Hget)]; [congruence|].
  rewrite Hok in Hrun. injection Hrun as <- <-.
  split_and!; [done..|]. intros k col v Hk Hcol Hv.
  destruct (decide (NoDup (group_column col pv v))) as [|Hdup]; [done|].
  destruct Hgood. by exists k, col, v.
Qed.

(** X15.  On a table that has the column [prop], [splitProperties] raises its
    [DuplicateException] exactly when a checked column has a repeated entry
    inside a group, and returns otherwise: it raises nothing else. *)
Theorem splitProperties_DuplicateException {V} `{EqDecision V}
    (le : relation V) `{!RelDecision le} default (data : dict string (list V))
    prop check pv :
  NoDup data.*1 → dict_get data prop = Some pv →
  (splitProperties le default data prop check = Raise DuplicateException ↔
   ∃ k col v, k ∈ check ∧ (k, col) ∈ data ∧ v ∈ pv ∧
              ¬ NoDup (group_column col pv v)) ∧
  (splitProperties le default data prop check ≠ Raise DuplicateException →
   ∃ ds, splitProperties le default data prop check = Ok (ds, data)).
Proof.
  intros Hnd Hprop.
  destruct (splitProperties_cases le default data prop check pv Hnd Hprop)
    as [[Hbad Hraise]|(Hgood & ds & Hok & _)].
  - split; [by split|]. by intros [].
  - rewrite Hok. split; [split; [done|]|by exists ds].
    intros Hbad. by destruct Hgood.
Qed.

(** X16.  Checking the column that the table is split by makes [splitProperties]
    raise as soon as a value of that column occurs twice. *)
Theorem splitProperties_checks_prop {V} `{EqDecision V} (le : relation V)
    `{!RelDecision le} default (data : dict string (list V)) prop check pv :
  NoDup data.*1 → dict_get data prop = Some pv → prop ∈ check → ¬ NoDup pv →
  splitProperties le default data prop check = Raise DuplicateException.
Proof.
  intros Hnd Hprop Hcheck Hdup.
  destruct (splitProperties_cases le default data prop check pv Hnd Hprop)
    as [[_ Hraise]|(Hgood & _)]; [done|].
  destruct Hgood.
  (* some value occurs twice in the column *)
  assert (∃ v, v ∈ pv ∧ (2 ≤ length (filter (λ p, p = v) pv))%nat)
    as (v & Hv & Htwice).
  { clear -Hdup. induction pv as [|p pv IH]; [destruct Hdup; constructor|].
    destruct (decide (p ∈ pv)) as [Hin|Hout].
    - exists p. split; [by left|]. rewrite filter_cons, decide_True by done.
      simpl. apply le_n_S.
      apply list_elem_of_split in Hin as (l1 & l2 & ->).
      rewrite filter_app, filter_cons, decide_True, length_app by done.
      simpl. lia.
    - destruct IH as (v & Hv & Htwice).
      + intros Hnd. apply Hdup. by constructor.
      + exists v. split; [by right|]. rewrite filter_cons.
        destruct (decide (p = v)); simpl; lia. }
  exists prop, pv, v. split_and!; [done|by apply dict_get_Some|done|].
  rewrite group_column_self.
  destruct (length (filter (λ p, p = v) pv)) as [|[|n]]; [lia..|].
  intros Hnd'. simpl in Hnd'. apply NoDup_cons in Hnd' as [Hout _].
  apply Hout. by left.
Qed.

(** X17.  A table without the column [prop]: a plain dict makes [splitProperties]
    raise [KeyError]; a [defaultdict(list)] makes it return no group at all,
    whatever its other columns hold, and gains an empty column [prop]. *)
Theorem splitProperties_missing_column {V} `{EqDecision V} (le : relation V)
    `{!RelDecision le} (data : dict string (list V)) prop check :
  dict_get data prop = None →
  splitProperties le false data prop check = Raise KeyError ∧
  splitProperties le true data prop check = Ok ([], data ++ [(prop, [])]).
Proof.
  intros Hprop. unfold splitProperties, column. rewrite Hprop.
  split; [done|]. cbn [mbind res_bind].
  rewrite (dict_get_app_new _ _ _ Hprop). cbn [mbind res_bind foldl].
  change (merge_sort le (remove_dups [])) with (@nil V).
  by rewrite (for_each_nothing (λ k, split_cell _ _ _ k)).
Qed.

(** X18.  The groups share out the rows.  For a column of [data] as long as the
    column [prop]: in the group of [v] it has as many entries as [v] occurs
    in the column [prop], the column [prop] itself holds [v] only, and the
    entries of all groups together are the entries of the column. *)
Theorem splitProperties_partition {V} `{EqDecision V} (le : relation V)
    `{!RelDecision le} default (data data' : dict string (list V)) prop check
    pv ds k col :
  NoDup data.*1 → dict_get data prop = Some pv →
  splitProperties le default data prop check = Ok (ds, data') →
  dict_get data k = Some col → length col = length pv →
  (∀ v, v ∈ pv → ∃ inner c,
     dict_get ds v = Some inner ∧ dict_get inner k = Some c ∧
     length c = length (filter (λ p, p = v) pv) ∧
     (k = prop → c = replicate (length c) v)) ∧
  col ≡ₚ concat ((λ v, from_option id []
                         (dict_get ds v ≫= λ inner, dict_get inner k))
                  <$> ds.*1).
Proof.
  intros Hnd Hprop Hrun Hcol Hlen.
  destruct (splitProperties_cases le default data prop check pv Hnd Hprop)
    as [[_ Hraise]|(_ & ds0 & Hok & Hkeys & Hin & Hget)]; [congruence|].
  rewrite Hok in Hrun. injection Hrun as <- <-.
  assert (∀ v, v ∈ pv →
            dict_get ds0 v ≫= (λ inner, dict_get inner k)
            = Some (group_column col pv v)) as Hcell.
  { intros v Hv. rewrite (Hget v Hv). simpl. by rewrite dict_get_fmap, Hcol. }
  split.
  - intros v Hv. eexists _, (group_column col pv v).
    split_and!; [by apply Hget| | |].
    + by rewrite dict_get_fmap, Hcol.
    + by apply group_column_length.
    + intros ->. rewrite Hprop in Hcol. injection Hcol as <-.
      by rewrite group_column_self, length_replicate.
  - assert ((λ v, from_option id []
                    (dict_get ds0 v ≫= λ inner, dict_get inner k)) <$> ds0.*1
            = (λ v, group_column col pv v) <$> ds0.*1) as ->.
    { apply list_fmap_ext. intros _ v Hv%list_elem_of_lookup_2.
      by rewrite Hcell by (by apply Hin). }
    apply group_column_partition; [done..|]. intros p Hp. by apply Hin.
Qed.

(** * flattenDict *)

Section merged_lemmas.
Context {K V : Type}.
Implicit Types (data : dict string (list V)) (l : string).

(** The entries under a key, none if the key is missing. *)
Local Abbreviation entries data l := (from_option id [] (dict_get data l)).

Lemma extend_get data l vals l' :
  dict_get (extend data l vals) l'
  = if decide (l = l') then Some (entries data l ++ vals) else dict_get data l'.
Proof.
  unfold extend. case_decide as Hl.
  - subst. apply dict_get_set.
  - by apply dict_get_set_ne.
Qed.

Lemma merge_group (items : dict string (list V)) : ∀ data l,
  NoDup items.*1 →
  dict_get (foldl (λ data item, extend data item.1 item.2) data items) l
  = match dict_get items l with
    | Some vals => Some (entries data l ++ vals)
    | None => dict_get data l
    end.
Proof.
  induction items as [|[k v] items IH]; intros data l Hnd; [done|].
  rewrite fmap_cons in Hnd. cbn [fst] in Hnd.
  apply NoDup_cons in Hnd as [Hk Hnd]. cbn [foldl fst snd dict_get].
  rewrite IH by done. destruct (decide (l = k)) as [->|Hne].
  - apply dict_get_None in Hk. rewrite Hk, extend_get. by rewrite decide_True.
  - rewrite extend_get, decide_False by done. done.
Qed.

Lemma merge_group_NoDup (items : dict string (list V)) : ∀ data,
  NoDup data.*1 →
  NoDup (foldl (λ data item, extend data item.1 item.2) data items).*1.
Proof.
  induction items as [|[k v] items IH]; intros data Hnd; [done|].
  cbn [foldl]. apply IH. by apply dict_set_NoDup.
Qed.

Lemma merged_from (ds : dict K (dict string (list V))) : ∀ data l,
  Forall (λ group, NoDup group.2.*1) ds →
  entries (foldl (λ data group,
                    foldl (λ data item, extend data item.1 item.2) data group.2)
             data ds) l
  = entries data l ++ gathered ds l ∧
  (is_Some (dict_get (foldl (λ data group,
                       foldl (λ data item, extend data item.1 item.2) data group.2)
                     data ds) l)
   ↔ is_Some (dict_get data l) ∨ Exists (λ group, is_Some (dict_get group.2 l)) ds).
Proof.
  induction ds as [|[k g] ds IH]; intros data l Hall.
  - unfold gathered. simpl. rewrite app_nil_r. split; [done|].
    split; [by left|]. by intros [?|?%Exists_nil].
  - apply Forall_cons in Hall as [Hg Hall]. cbn [foldl snd].
    destruct (IH (foldl (λ data item, extend data item.1 item.2) data g) l Hall)
      as [-> ->].
    rewrite (merge_group g data l Hg), Exists_cons. unfold gathered.
    cbn [omap list_omap snd]. fold (omap (λ group : K * dict string (list V),
                                           dict_get group.2 l) ds).
    destruct (dict_get g l) as [vals|] eqn:Hgl; simpl.
    + rewrite <-(assoc_L (++)). split; [done|].
      split; [intros _; right; left; by eexists|]. intros _. left. by eexists.
    + split; [done|]. split; [intros [?|?]; [by left|by right; right]|].
      intros [?|[[? [=]]|?]]; [by left|by right].
Qed.

Lemma merged_from_NoDup (ds : dict K (dict string (list V))) : ∀ data,
  NoDup data.*1 →
  NoDup (foldl (λ data group,
                  foldl (λ data item, extend data item.1 item.2) data group.2)
           data ds).*1.
Proof.
  induction ds as [|[k g] ds IH]; intros data Hnd; [done|].
  cbn [foldl]. apply IH. by apply merge_group_NoDup.
Qed.

Lemma merged_NoDup (ds : dict K (dict string (list V))) : NoDup (merged ds).*1.
Proof. apply merged_from_NoDup. constructor. Qed.

Lemma merged_get (ds : dict K (dict string (list V))) l :
  Forall (λ group, NoDup group.2.*1) ds →
  entries (merged ds) l = gathered ds l ∧
  (is_Some (dict_get (merged ds) l)
   ↔ Exists (λ group, is_Some (dict_get group.2 l)) ds).
Proof.
  intros Hall. destruct (merged_from ds [] l Hall) as [Hval Hsome].
  split; [done|]. rewrite Hsome. split; [|by right].
  by intros [[? [=]]|?].
Qed.

(** [data[k]] on a [defaultdict(list)] always returns, and leaves the
    entries under every key as they were. *)
Lemma column_true data k :
  ∃ data', column true data k = Ok (entries data k, data') ∧
    (∀ l, entries data' l = entries data l) ∧
    (∀ l, is_Some (dict_get data' l) ↔ l = k ∨ is_Some (dict_get data l)) ∧
    (NoDup data.*1 → NoDup data'.*1).
Proof.
  unfold column. destruct (dict_get data k) as [col|] eqn:Hk.
  - exists data. split_and!; [done|done| |done]. intros l. split; [by right|].
    intros [->|?]; [by eexists|done].
  - exists (data ++ [(k, [])]). split_and!; [done| | |].
    + intros l. rewrite <-(dict_set_new data k []) by (by apply dict_get_None).
      destruct (decide (k = l)) as [<-|Hne].
      * by rewrite dict_get_set, Hk.
      * by rewrite dict_get_set_ne.
    + intros l. rewrite <-(dict_set_new data k []) by (by apply dict_get_None).
      destruct (decide (k = l)) as [<-|Hne].
      * rewrite dict_get_set. split; [by left|by eexists].
      * rewrite dict_get_set_ne by done. split; [by right|].
        by intros [->|?].
    + intros Hnd. rewrite <-(dict_set_new data k []) by (by apply dict_get_None).
      by apply dict_set_NoDup.
Qed.

End merged_lemmas.

Lemma nth_seq_fmap {A} (l : list A) (d : A) :
  (λ i, nth i l d) <$> seq 0 (length l) = l.
Proof.
  apply list_eq. intros i. rewrite list_lookup_fmap.
  destruct (l !! i) as [x|] eqn:Hi.
  - rewrite lookup_seq_lt by (by eapply lookup_lt_Some). simpl.
    by rewrite (nth_lookup_Some _ _ d _ Hi).
  - apply lookup_ge_None in Hi. by rewrite lookup_seq_ge.
Qed.

Lemma getitem_Ok {A} (l : list A) i x : getitem l i = Ok x ↔ l !! i = Some x.
Proof. unfold getitem. destruct (l !! i); split; congruence. Qed.

Lemma getitem_None {A} (l : list A) i :
  l !! i = None → getitem l i = Raise IndexError.
Proof. unfold getitem. by intros ->. Qed.

Lemma mapM_raise {A B} (f : A → res B) (e : exn) (l : list A) :
  (∀ x, x ∈ l → ok (f x) = true ∨ f x = Raise e) →
  (∃ x, x ∈ l ∧ f x = Raise e) → mapM f l = Raise e.
Proof.
  induction l as [|a l IH]; intros Hall (x & Hx & Hraise).
  - by apply elem_of_nil in Hx.
  - cbn [mapM]. destruct (Hall a ltac:(left)) as [Hok| ->]; [|done].
    destruct (f a) as [b| |] eqn:Ha; try done. cbn [mbind res_bind].
    rewrite IH; [done|intros; apply Hall; by right|].
    apply elem_of_cons in Hx as [->|Hx]; [congruence|eauto].
Qed.

Lemma snd_zip_take {A B} (l : list A) (k : list B) :
  (zip l k).*2 = take (length l) k.
Proof.
  rewrite <-(zip_with_take_r pair l k). apply snd_zip.
  rewrite length_take. lia.
Qed.

Section reorder_lemmas.
Context {V : Type}.
Implicit Types (col : list V) (order : list nat).

Lemma reorder_Ok order col col' :
  reorder order col = Ok col' →
  length col' = length order ∧
  ∀ i o, order !! i = Some o → ∃ x, col !! o = Some x ∧ col' !! i = Some x.
Proof.
  unfold reorder. intros Hrun. split; [by eapply mapM_Ok_length|].
  intros i o Ho.
  destruct (mapM_Ok_lookup _ _ _ _ _ Hrun Ho) as (x & Hx%getitem_Ok & Hi).
  eauto.
Qed.

Lemma reorder_inside order col :
  (∀ o, o ∈ order → (o < length col)%nat) → ∃ col', reorder order col = Ok col'.
Proof.
  intros Hin. apply mapM_Ok_all. intros o Ho. unfold getitem.
  destruct (lookup_lt_is_Some_2 col o (Hin o Ho)) as [x ->]. done.
Qed.

Lemma reorder_outside order col o :
  o ∈ order → (length col ≤ o)%nat → reorder order col = Raise IndexError.
Proof.
  intros Ho Hlen. apply mapM_raise.
  - intros o' _. unfold getitem. destruct (col !! o'); [by left|by right].
  - exists o. split; [done|]. unfold getitem.
    by rewrite (proj2 (lookup_ge_None col o)).
Qed.

Lemma reorder_cases order col :
  ok (reorder order col) = true ∨ reorder order col = Raise IndexError.
Proof.
  destruct (decide (Forall (λ o, o < length col)%nat order)) as [Hall|Hex].
  - left. rewrite Forall_forall in Hall.
    by destruct (reorder_inside order col Hall) as [col' ->].
  - right. apply not_Forall_Exists in Hex; [|apply _].
    apply Exists_exists in Hex as (o & Ho & Hlen).
    apply (reorder_outside order col o Ho). simpl in Hlen. lia.
Qed.

(** The last loop of [flattenDict] keeps the keys and replaces every column
    by its reordering. *)
Lemma reorder_table order (d out : dict string (list V)) :
  mapM (λ item : string * list V,
          col ← reorder order item.2; Ok (item.1, col)) d = Ok out →
  ∀ k, match dict_get d k with
       | Some col => ∃ col', reorder order col = Ok col' ∧
                             dict_get out k = Some col'
       | None => dict_get out k = None
       end.
Proof.
  revert out. induction d as [|[k0 col0] d IH]; intros out Hrun k.
  - by injection Hrun as <-.
  - apply mapM_cons_Ok in Hrun as ([k1 col1] & out' & Hhead & Htail & ->).
    apply bind_Ok in Hhead as (col' & Hcol' & [= <- <-]). simpl.
    destruct (decide (k = k0)) as [->|Hne]; [eauto|]. by apply IH.
Qed.

End reorder_lemmas.

Section flatten_lemmas.
Context {K V : Type} `{EqDecision V} (le : relation V) `{!RelDecision le}.

Lemma key_le_total : Total le → Total (key_le le).
Proof.
  intros Htotal [[s p] o] [[s' p'] o']. unfold key_le. simpl.
  repeat case_decide; simplify_eq; first [lia|apply Htotal].
Qed.

(** The rows in the order in which [flattenDict] writes them: the tuples
    [((s, p), o)] of the sort key, the property and the row number, sorted. *)
Local Abbreviation sorted_rows ds pn sb :=
  (merge_sort (key_le le)
     (zip (zip (gathered ds sb) (gathered ds pn))
          (seq 0 (length (gathered ds sb))))).

Lemma sorted_rows_order (ds : dict K (dict string (list V))) pn sb :
  (sorted_rows ds pn sb).*2
  ≡ₚ seq 0 (length (gathered ds sb) `min` length (gathered ds pn)).
Proof.
  rewrite merge_sort_Permutation, snd_zip_take, length_zip, take_seq.
  f_equiv. lia.
Qed.

(** [flattenDict] up to its last loop. *)
Lemma flattenDict_unfold (ds : dict K (dict string (list V))) pn sb :
  Forall (λ group, NoDup group.2.*1) ds →
  ∃ data : dict string (list V),
    flattenDict le ds pn sb
    = mapM (λ item : string * list V,
              col ← reorder (sorted_rows ds pn sb).*2 item.2; Ok (item.1, col))
        data ∧
    (∀ l, from_option id [] (dict_get data l) = gathered ds l) ∧
    (∀ l, is_Some (dict_get data l) ↔
          l = sb ∨ l = pn ∨ Exists (λ group, is_Some (dict_get group.2 l)) ds) ∧
    NoDup data.*1.
Proof.
  intros Hall. unfold flattenDict. cbv zeta.
  destruct (column_true (merged ds) sb) as (d1 & -> & Hv1 & Hs1 & Hn1).
  cbn [mbind res_bind].
  destruct (column_true d1 pn) as (d2 & -> & Hv2 & Hs2 & Hn2).
  cbn [mbind res_bind].
  destruct (column_true d2 sb) as (d3 & -> & Hv3 & Hs3 & Hn3).
  cbn [mbind res_bind].
  assert (∀ l, from_option id [] (dict_get d3 l) = gathered ds l) as Hv.
  { intros l. rewrite Hv3, Hv2, Hv1. by apply merged_get. }
  exists d3. split_and!.
  - by rewrite Hv2, !Hv1, !(proj1 (merged_get ds _ Hall)).
  - done.
  - intros l. rewrite Hs3, Hs2, Hs1, (proj2 (merged_get ds l Hall)). tauto.
  - apply Hn3, Hn2, Hn1, merged_NoDup.
Qed.

(** Reordering by a rearrangement of all positions rearranges the column. *)
Lemma reorder_Permutation (order : list nat) (col col' : list V) :
  reorder order col = Ok col' → order ≡ₚ seq 0 (length col) → col' ≡ₚ col.
Proof.
  intros Hrun Hperm. destruct col as [|d col].
  - apply Permutation_nil_r in Hperm as ->. by injection Hrun as <-.
  - apply reorder_Ok in Hrun as [Hlen Hlookup].
    assert (col' = (λ o, nth o (d :: col) d) <$> order) as ->.
    { apply list_eq. intros i. rewrite list_lookup_fmap.
      destruct (order !! i) as [o|] eqn:Ho; cbn [fmap option_fmap option_map].
      - destruct (Hlookup i o Ho) as (x & Hx & ->).
        by rewrite (nth_lookup_Some _ _ d _ Hx).
      - apply lookup_ge_None. rewrite Hlen. by apply lookup_ge_None. }
    rewrite Hperm. by rewrite nth_seq_fmap.
Qed.

End flatten_lemmas.

(** X20.  A call of [flattenDict] that returns.  The rows of all groups, taken
    group after group, are written in the order of their sort key, then of
    their property, then of their position; the result has a column for the
    two keys of the order and for every key of a group, and no other; all
    columns have been reordered in the same way, so that what stood in one
    row still stands in one row. *)
Theorem flattenDict_returns {K V} `{EqDecision V} (le : relation V)
    `{!RelDecision le} (data_split : dict K (dict string (list V)))
    (property_name sort_by : string) (out : dict string (list V)) :
  Total le →
  Forall (λ group, NoDup group.2.*1) data_split →
  flattenDict le data_split property_name sort_by = Ok out →
  ∃ rows : list (V * V * nat),
    rows ≡ₚ zip (zip (gathered data_split sort_by)
                     (gathered data_split property_name))
                (seq 0 (length (gathered data_split sort_by))) ∧
    Sorted (key_le le) rows ∧
    (∀ k, is_Some (dict_get out k) ↔
          k = sort_by ∨ k = property_name ∨
          Exists (λ group, is_Some (dict_get group.2 k)) data_split) ∧
    ∀ k col, dict_get out k = Some col →
      length col = length rows ∧
      ∀ i r, rows !! i = Some r →
        ∃ x, gathered data_split k !! r.2 = Some x ∧ col !! i = Some x.
Proof.
  intros Htotal Hall Hrun.
  destruct (flattenDict_unfold le data_split property_name sort_by Hall)
    as (data & Heq & Hval & Hsome & _).
  rewrite Heq in Hrun. pose proof (reorder_table _ _ _ Hrun) as Htable.
  exists (merge_sort (key_le le)
            (zip (zip (gathered data_split sort_by)
                      (gathered data_split property_name))
                 (seq 0 (length (gathered data_split sort_by))))).
  split_and!.
  - apply merge_sort_Permutation.
  - apply Sorted_merge_sort, key_le_total, Htotal.
  - intros k. rewrite <-Hsome. specialize (Htable k).
    destruct (dict_get data k) as [col|].
    + destruct Htable as (col' & _ & ->). split; by eexists.
    + rewrite Htable. split; by intros [? [=]].
  - intros k col' Hk. specialize (Htable k). specialize (Hval k).
    destruct (dict_get data k) as [col|]; [|congruence].
    destruct Htable as (col'' & Hcol & Hk'). simplify_eq/=.
    apply reorder_Ok in Hcol as [Hlen Hlookup].
    rewrite length_fmap in Hlen. split; [done|]. intros i r Hr.
    apply Hlookup. by rewrite list_lookup_fmap, Hr.
Qed.

(** X21.  When no group has an entry under the sort key, or none under the
    property key, [flattenDict] returns a table whose columns are all empty:
    the rows are lost without an exception. *)
Theorem flattenDict_empty_order {K V} `{EqDecision V} (le : relation V)
    `{!RelDecision le} (data_split : dict K (dict string (list V)))
    (property_name sort_by : string) :
  Forall (λ group, NoDup group.2.*1) data_split →
  gathered data_split sort_by = [] ∨ gathered data_split property_name = [] →
  ∃ out, flattenDict le data_split property_name sort_by = Ok out ∧
         ∀ k col, dict_get out k = Some col → col = [].
Proof.
  intros Hall Hempty.
  destruct (flattenDict_unfold le data_split property_name sort_by Hall)
    as (data & Heq & _ & _).
  assert ((merge_sort (key_le le)
             (zip (zip (gathered data_split sort_by)
                       (gathered data_split property_name))
                  (seq 0 (length (gathered data_split sort_by))))).*2 = [])
    as Horder.
  { apply Permutation_nil_r. rewrite sorted_rows_order.
    destruct Hempty as [-> | ->]; simpl; [done|]. by rewrite Nat.min_0_r. }
  rewrite Horder in Heq. rewrite Heq.
  destruct (mapM_Ok_all (λ item : string * list V,
              col ← reorder [] item.2; Ok (item.1, col)) data) as [out Hout];
    [done|].
  exists out. split; [done|]. intros k col Hk.
  pose proof (reorder_table _ _ _ Hout k) as Htable.
  destruct (dict_get data k); [|congruence].
  destruct Htable as (col' & [= <-] & Hk'). congruence.
Qed.

(** X22.  A column that is shorter than both columns of the order makes
    [flattenDict] raise [IndexError]: a key that some group lacks, or a column
    that was not brought to the length of the others. *)
Theorem flattenDict_short_column {K V} `{EqDecision V} (le : relation V)
    `{!RelDecision le} (data_split : dict K (dict string (list V)))
    (property_name sort_by k : string) :
  Forall (λ group, NoDup group.2.*1) data_split →
  Exists (λ group, is_Some (dict_get group.2 k)) data_split →
  (length (gathered data_split k) < length (gathered data_split sort_by))%nat →
  (length (gathered data_split k)
   < length (gathered data_split property_name))%nat →
  flattenDict le data_split property_name sort_by = Raise IndexError.
Proof.
  intros Hall Hk Hs Hp.
  destruct (flattenDict_unfold le data_split property_name sort_by Hall)
    as (data & -> & Hval & Hsome & _).
  assert (is_Some (dict_get data k)) as [col Hcol].
  { apply Hsome. by do 2 right. }
  specialize (Hval k). rewrite Hcol in Hval. simpl in Hval. subst col.
  apply mapM_raise.
  - intros [k' col'] _. simpl.
    destruct (reorder_cases
                (merge_sort (key_le le)
                   (zip (zip (gathered data_split sort_by)
                             (gathered data_split property_name))
                        (seq 0 (length (gathered data_split sort_by))))).*2
                col') as [Hok| ->]; [|by right].
    left. by destruct (reorder _ col').
  - exists (k, gathered data_split k). split; [by apply dict_get_Some|].
    simpl. erewrite reorder_outside; [done| |done].
    rewrite sorted_rows_order. apply elem_of_seq. lia.
Qed.

Lemma flattenDict_total {K V} `{EqDecision V} (le : relation V)
    `{!RelDecision le} (data_split : dict K (dict string (list V)))
    (property_name sort_by : string) :
  Forall (λ group, NoDup group.2.*1) data_split →
  (∀ k, Exists (λ group, is_Some (dict_get group.2 k)) data_split →
        (length (gathered data_split sort_by)
           `min` length (gathered data_split property_name)
         ≤ length (gathered data_split k))%nat) →
  ∃ out, flattenDict le data_split property_name sort_by = Ok out ∧
    ∀ k col, dict_get out k = Some col →
      length (gathered data_split k) = length (gathered data_split sort_by) →
      length (gathered data_split k)
      = length (gathered data_split property_name) →
      col ≡ₚ gathered data_split k.
Proof.
  intros Hall Hlong.
  destruct (flattenDict_unfold le data_split property_name sort_by Hall)
    as (data & Heq & Hval & Hsome & Hnd).
  pose proof (sorted_rows_order le data_split property_name sort_by) as Horder.
  assert (∀ k, is_Some (dict_get data k) →
            (length (gathered data_split sort_by)
               `min` length (gathered data_split property_name)
             ≤ length (gathered data_split k))%nat) as Hlen.
  { intros k [-> |[-> |Hk]]%Hsome; [lia|lia|by apply Hlong]. }
  destruct (mapM_Ok_all (λ item : string * list V,
              col ← reorder
                      (merge_sort (key_le le)
                         (zip (zip (gathered data_split sort_by)
                                   (gathered data_split property_name))
                              (seq 0 (length (gathered data_split sort_by))))).*2
                      item.2;
              Ok (item.1, col)) data) as [out Hout].
  { intros [k col] Hitem. simpl.
    assert (dict_get data k = Some col) as Hk by (by apply dict_get_NoDup).
    pose proof (Hval k) as Hcol. rewrite Hk in Hcol. simpl in Hcol. subst col.
    destruct (reorder_inside
                (merge_sort (key_le le)
                   (zip (zip (gathered data_split sort_by)
                             (gathered data_split property_name))
                        (seq 0 (length (gathered data_split sort_by))))).*2
                (gathered data_split k)) as [col' ->]; [|done].
    intros o Ho. rewrite Horder in Ho. apply elem_of_seq in Ho.
    specialize (Hlen k ltac:(by eexists)). lia. }
  exists out. split; [by rewrite Heq|]. intros k col' Hk Hs Hp.
  pose proof (reorder_table _ _ _ Hout k) as Htable.
  pose proof (Hval k) as Hcol.
  destruct (dict_get data k) as [col|]; [|congruence]. simpl in Hcol. subst col.
  destruct Htable as (col'' & Hre & Hk'). simplify_eq.
  apply (reorder_Permutation _ _ _ Hre). rewrite Horder. f_equiv. lia.
Qed.

(** X29.  When no key of a group has, over all groups, fewer entries than
    the shorter of the two columns of the order, [flattenDict] returns; and a
    column that has as many entries as both columns of the order comes out
    rearranged: it keeps every entry, as many times as it occurred. *)
Theorem flattenDict_rectangular {K V} `{EqDecision V} (le : relation V)
    `{!RelDecision le} (data_split : dict K (dict string (list V)))
    (property_name sort_by : string) :
  Forall (λ group, NoDup group.2.*1) data_split →
  (∀ k, Exists (λ group, is_Some (dict_get group.2 k)) data_split →
        (length (gathered data_split sort_by)
           `min` length (gathered data_split property_name)
         ≤ length (gathered data_split k))%nat) →
  ∃ out, flattenDict le data_split property_name sort_by = Ok out ∧
    ∀ k col, dict_get out k = Some col →
      length (gathered data_split k) = length (gathered data_split sort_by) →
      length (gathered data_split k)
      = length (gathered data_split property_name) →
      col ≡ₚ gathered data_split k.
Proof. apply flattenDict_total. Qed.

(** * splitProperties followed by padData *)

(** X19.  In every group that [splitProperties] returns, the column that the
    table was split by can be padded to the length of any column of the
    group: the assertion of [padData] holds for it, because the column is not
    empty and holds the group's value only. *)
Theorem split_then_pad {V} `{EqDecision V} (le : relation V)
    `{!RelDecision le} default (data data' : dict string (list V)) prop check
    pv ds v group pad_to_len_of target :
  NoDup data.*1 → dict_get data prop = Some pv →
  splitProperties le default data prop check = Ok (ds, data') →
  dict_get ds v = Some group →
  dict_get group pad_to_len_of = Some target →
  padData group pad_to_len_of prop
  = Ok (dict_set group prop (replicate (length target) v)).
Proof.
  intros Hnd Hprop Hrun Hgroup Htarget.
  destruct (splitProperties_cases le default data prop check pv Hnd Hprop)
    as [[_ Hraise]|(_ & ds0 & Hok & Hkeys & Hin & Hget)]; [congruence|].
  rewrite Hok in Hrun. injection Hrun as <- <-.
  assert (v ∈ pv) as Hv.
  { apply Hin. apply dict_get_Some in Hgroup.
    apply list_elem_of_fmap. by exists (v, group). }
  rewrite (Hget v Hv) in Hgroup. injection Hgroup as <-.
  unfold padData, dict_getitem. rewrite dict_get_fmap in Htarget.
  rewrite !dict_get_fmap, Hprop.
  cbn [fmap option_fmap option_map mbind res_bind].
  rewrite group_column_self.
  assert (remove_dups (replicate (length (filter (λ p, p = v) pv)) v) = [v])
    as Hone.
  { apply remove_dups_constant.
    - apply list_elem_of_split in Hv as (l1 & l2 & ->).
      rewrite filter_app, filter_cons, decide_True by done.
      by destruct (filter _ l1).
    - intros y Hy. by apply elem_of_replicate in Hy as [-> _]. }
  rewrite Hone, decide_True by done.
  cbn [mbind res_bind getitem_first head].
  change (option_map ?f ?x) with (f <$> x). by rewrite Htarget.
Qed.

(** * Concrete tables, continued *)

Section split_concrete.

Local Ltac decided := apply (bool_decide_unpack _); by vm_compute.

(** The table of four rows, split by column ["2"], column ["0"] checked. *)
Lemma splitProperties_returns_witness :
  NoDup split_table.*1 ∧
  splitProperties Z.le false split_table "2" ["0"] = Ok (split_groups, split_table) ∧
  NoDup split_groups.*1.
Proof.
  assert (NoDup split_table.*1) as Hnd by decided.
  assert (splitProperties Z.le false split_table "2" ["0"]
          = Ok (split_groups, split_table)) as Hrun by (by vm_compute).
  split_and!; [exact Hnd|exact Hrun|].
  exact (proj1 (proj2 (splitProperties_returns Z.le false split_table _ "2"
                         ["0"] [7; 7; 8; 8] _ Hnd eq_refl Hrun))).
Defined.

(** The same table with column ["1"] replaced by a constant and checked. *)
Lemma splitProperties_DuplicateException_witness :
  NoDup split_table.*1 ∧
  splitProperties Z.le false split_table "2" ["2"] = Raise DuplicateException.
Proof.
  assert (NoDup split_table.*1) as Hnd by decided.
  split; [exact Hnd|].
  apply (proj1 (splitProperties_DuplicateException Z.le false split_table "2"
                  ["2"] [7; 7; 8; 8] Hnd eq_refl)).
  exists "2", [7; 7; 8; 8], 7. split_and!.
  - by left.
  - do 2 right. by left.
  - by left.
  - decided.
Defined.

(** Checking the column the table is split by. *)
Lemma splitProperties_checks_prop_witness :
  ¬ NoDup [7; 7; 8; 8] ∧
  splitProperties Z.le true split_table "2" ["0"; "2"] = Raise DuplicateException.
Proof.
  assert (NoDup split_table.*1) as Hnd by decided.
  assert (¬ NoDup [7; 7; 8; 8]) as Hdup by decided.
  split; [exact Hdup|].
  apply (splitProperties_checks_prop Z.le true split_table "2" ["0"; "2"]
           [7; 7; 8; 8] Hnd eq_refl); [right; by left|exact Hdup].
Defined.

(** The table has no column ["5"]. *)
Lemma splitProperties_missing_column_witness :
  splitProperties Z.le false split_table "5" [] = Raise KeyError ∧
  splitProperties Z.le true split_table "5" []
  = Ok ([], split_table ++ [("5", [])]).
Proof.
  exact (splitProperties_missing_column Z.le split_table "5" [] eq_refl).
Defined.

(** Column ["1"] of the table is shared out between the two groups. *)
Lemma splitProperties_partition_witness :
  [0; -1; -2; -3] ≡ₚ concat [[0; -1]; [-2; -3]] ∧
  dict_get split_table "1" = Some [0; -1; -2; -3].
Proof.
  assert (NoDup split_table.*1) as Hnd by decided.
  assert (splitProperties Z.le false split_table "2" ["0"]
          = Ok (split_groups, split_table)) as Hrun by (by vm_compute).
  split; [|reflexivity].
  exact (proj2 (splitProperties_partition Z.le false split_table _ "2" ["0"]
                  [7; 7; 8; 8] _ "1" [0; -1; -2; -3] Hnd eq_refl Hrun
                  eq_refl eq_refl)).
Defined.

(** The group of 7 padded to the length of its column ["0"]. *)
Lemma split_then_pad_witness :
  padData [("0", [0; 1]); ("1", [0; -1]); ("2", [7; 7])] "0" "2"
  = Ok [("0", [0; 1]); ("1", [0; -1]); ("2", [7; 7])].
Proof.
  assert (NoDup split_table.*1) as Hnd by decided.
  assert (splitProperties Z.le false split_table "2" ["0"]
          = Ok (split_groups, split_table)) as Hrun by (by vm_compute).
  exact (split_then_pad Z.le false split_table _ "2" ["0"] [7; 7; 8; 8] _ 7
           _ "0" [0; 1] Hnd eq_refl Hrun eq_refl eq_refl).
Defined.

(** The two groups flattened and sorted by column ["0"]: the table of four
    rows again. *)
Lemma flattenDict_returns_witness :
  Forall (λ group : Z * dict string (list Z), NoDup group.2.*1) split_groups ∧
  flattenDict Z.le split_groups "2" "0" = Ok split_table ∧
  ∃ rows, Sorted (key_le Z.le) rows ∧ length rows = 4%nat.
Proof.
  assert (Forall (λ group : Z * dict string (list Z), NoDup group.2.*1)
            split_groups) as Hall.
  { repeat constructor; decided. }
  assert (flattenDict Z.le split_groups "2" "0" = Ok split_table) as Hrun
    by (by vm_compute).
  split_and!; [exact Hall|exact Hrun|].
  destruct (flattenDict_returns Z.le split_groups "2" "0" split_table
              Z.le_total Hall Hrun) as (rows & Hperm & Hsorted & _).
  exists rows. split; [exact Hsorted|]. by rewrite Hperm.
Defined.

(** No group has a column ["9"]: sorting by it empties the table. *)
Lemma flattenDict_empty_order_witness :
  gathered split_groups "9" = [] ∧
  ∃ out, flattenDict Z.le split_groups "2" "9" = Ok out ∧
         ∀ k col, dict_get out k = Some col → col = [].
Proof.
  assert (Forall (λ group : Z * dict string (list Z), NoDup group.2.*1)
            split_groups) as Hall.
  { repeat constructor; decided. }
  split; [reflexivity|].
  exact (flattenDict_empty_order Z.le split_groups "2" "9" Hall
           (or_introl eq_refl)).
Defined.

(** The first group lacks column ["1"], which is then too short. *)
Lemma flattenDict_short_column_witness :
  (length (gathered uneven_groups "1") < length (gathered uneven_groups "0"))%nat ∧
  flattenDict Z.le uneven_groups "2" "0" = Raise IndexError.
Proof.
  assert (Forall (λ group : Z * dict string (list Z), NoDup group.2.*1)
            uneven_groups) as Hall.
  { repeat constructor; decided. }
  assert (length (gathered uneven_groups "1")
          < length (gathered uneven_groups "0"))%nat as Hlt by (simpl; lia).
  split; [exact Hlt|].
  apply (flattenDict_short_column Z.le uneven_groups "2" "0" "1" Hall);
    [|exact Hlt|simpl; lia].
  right. left. by eexists.
Defined.

(** The two groups have the same three columns of two entries each. *)
Lemma flattenDict_rectangular_witness :
  ∃ out, flattenDict Z.le split_groups "2" "0" = Ok out ∧
    ∀ col, dict_get out "1" = Some col → col ≡ₚ [0; -1; -2; -3].
Proof.
  assert (Forall (λ group : Z * dict string (list Z), NoDup group.2.*1)
            split_groups) as Hall.
  { repeat constructor; decided. }
  destruct (flattenDict_rectangular Z.le split_groups "2" "0" Hall)
    as (out & Hout & Hperm).
  { intros k Hk.
    destruct (decide (k = "0")) as [->|H0]; [by vm_compute|].
    destruct (decide (k = "1")) as [->|H1]; [by vm_compute|].
    destruct (decide (k = "2")) as [->|H2]; [by vm_compute|].
    exfalso. unfold split_groups in Hk.
    repeat (apply Exists_cons in Hk as [Hk|Hk];
            [cbn [snd dict_get] in Hk; rewrite !decide_False in Hk by done;
             by destruct Hk|]).
    by apply Exists_nil in Hk. }
  exists out. split; [exact Hout|]. intros col Hcol.
  exact (Hperm "1" col Hcol eq_refl eq_refl).
Defined.

End split_concrete.

(** * readData and writeCSV *)

Section csv_lemmas.
Context {char : Type} `{EqDecision char}.
Context (isspace : char → bool) (comma newline : char).
Implicit Types (s field : list char) (fields names : list (list char)).

Lemma split_plain s : comma ∉ s → split comma s = [s].
Proof.
  induction s as [|c s IH]; intros Hs; [done|]. cbn [split].
  apply not_elem_of_cons in Hs as [Hc Hs].
  rewrite decide_False by done. by rewrite IH.
Qed.

Lemma split_field s s' :
  comma ∉ s → split comma (s ++ comma :: s') = s :: split comma s'.
Proof.
  induction s as [|c s IH]; intros Hs.
  - cbn [app split]. by rewrite decide_True.
  - apply not_elem_of_cons in Hs as [Hc Hs]. cbn [app split].
    rewrite decide_False by done. by rewrite IH.
Qed.

Lemma split_join fields :
  fields ≠ [] → Forall (λ field, comma ∉ field) fields →
  split comma (join comma fields) = fields.
Proof.
  induction fields as [|field fields IH]; intros Hne Hall; [done|].
  apply Forall_cons in Hall as [Hfield Hall].
  destruct fields as [|field' fields]; [by apply split_plain|].
  cbn [join]. rewrite split_field by done. f_equal. by apply IH.
Qed.

Lemma lstrip_tidy s :
  (∀ c, head s = Some c → isspace c = false) → lstrip isspace s = s.
Proof.
  destruct s as [|c s]; [done|]. intros Hc. cbn [lstrip].
  by rewrite (Hc c eq_refl).
Qed.

Lemma strip_tidy s : tidy isspace s → strip isspace s = s.
Proof.
  intros [Hhead Hlast]. unfold strip.
  rewrite (lstrip_tidy s Hhead), lstrip_tidy; [apply reverse_involutive|].
  intros c Hc. apply Hlast. by rewrite <-head_reverse.
Qed.

Lemma strip_line s :
  isspace newline = true → tidy isspace s → strip isspace (s ++ [newline]) = s.
Proof.
  intros Hnl [Hhead Hlast]. unfold strip.
  destruct s as [|c s].
  - cbn. by rewrite Hnl.
  - rewrite (lstrip_tidy ((c :: s) ++ [newline]))
      by (intros c' [= <-]; by apply Hhead).
    rewrite reverse_snoc. cbn [lstrip]. rewrite Hnl.
    rewrite lstrip_tidy; [apply reverse_involutive|].
    intros c' Hc'. apply Hlast. by rewrite <-head_reverse.
Qed.

Lemma head_join field fields c :
  head (join comma (field :: fields)) = Some c →
  head field = Some c ∨ (field = [] ∧ fields ≠ [] ∧ c = comma).
Proof.
  destruct fields as [|field' fields]; cbn [join]; [by left|].
  destruct field as [|c' field]; simpl; [|by left].
  intros [= <-]. by right.
Qed.

Lemma last_join fields : ∀ field c,
  last (join comma (field :: fields)) = Some c →
  (∃ field', last (field :: fields) = Some field' ∧ last field' = Some c) ∨
  c = comma.
Proof.
  induction fields as [|field' fields IH]; intros field c.
  - cbn [join]. intros Hc. left. by exists field.
  - change (join comma (field :: field' :: fields))
      with (field ++ comma :: join comma (field' :: fields)).
    rewrite last_app, last_cons.
    destruct (last (join comma (field' :: fields))) as [c'|] eqn:Hj.
    + intros [= <-]. destruct (IH field' c' Hj) as [(f & Hf & Hc)|Hc].
      * left. exists f. split; [|done]. by rewrite last_cons, Hf.
      * by right.
    + intros [= <-]. by right.
Qed.

Lemma tidy_join fields :
  isspace comma = false → Forall (tidy isspace) fields →
  tidy isspace (join comma fields).
Proof.
  intros Hcomma Hall. destruct fields as [|field fields]; [done|]. split.
  - intros c [Hc|(_ & _ & ->)]%head_join; [|done].
    apply Forall_cons in Hall as [[Hhead _] _]. by apply Hhead.
  - intros c [(field' & Hfield' & Hc)| ->]%last_join; [|done].
    rewrite Forall_forall in Hall.
    apply (Hall field'); [by eapply last_Some_elem_of|done].
Qed.

Lemma decode_line fields :
  isspace newline = true → isspace comma = false →
  fields ≠ [] → Forall (λ field, (comma ∉ field) ∧ tidy isspace field) fields →
  split comma (strip isspace (join comma fields ++ [newline])) = fields.
Proof.
  intros Hnl Hcomma Hne Hall. rewrite strip_line; [|done|].
  - apply split_join; [done|]. eapply Forall_impl; [exact Hall|]. by intros ? [].
  - apply tidy_join; [done|]. eapply Forall_impl; [exact Hall|]. by intros ? [].
Qed.

End csv_lemmas.

Lemma for_each_app {A St} (body : St → A → res St) (l1 l2 : list A) s :
  for_each body s (l1 ++ l2) = for_each body s l1 ≫= λ s', for_each body s' l2.
Proof.
  revert s. induction l1 as [|x l1 IH]; intros s; [done|].
  cbn [app for_each]. destruct (body s x) as [s'| |]; [|done..].
  cbn [mbind res_bind]. apply IH.
Qed.

Lemma mapM_fmap_Ok {A B} (f : A → res B) (g : A → B) (l : list A) :
  (∀ x, x ∈ l → f x = Ok (g x)) → mapM f l = Ok (g <$> l).
Proof.
  induction l as [|x l IH]; intros Hall; [done|].
  apply mapM_cons_Ok. exists (g x), (g <$> l). split_and!; [|apply IH|done].
  - apply Hall. by left.
  - intros y Hy. apply Hall. by right.
Qed.

Section dict_app.
Context {K V : Type} `{EqDecision K}.
Implicit Types (d : dict K V) (k : K).

Lemma dict_get_app_r d1 d2 k : k ∉ d1.*1 → dict_get (d1 ++ d2) k = dict_get d2 k.
Proof.
  induction d1 as [|[k' v'] d1 IH]; [done|]. csimpl.
  intros [Hne Hout]%not_elem_of_cons. rewrite decide_False by done. by apply IH.
Qed.

Lemma dict_set_app_r d1 d2 k v :
  k ∉ d1.*1 → dict_set (d1 ++ d2) k v = d1 ++ dict_set d2 k v.
Proof.
  induction d1 as [|[k' v'] d1 IH]; [done|]. csimpl.
  intros [Hne Hout]%not_elem_of_cons. rewrite decide_False by done.
  by rewrite IH.
Qed.

End dict_app.

Section read_lemmas.
Context {char : Type} `{EqDecision char}.
Context (isspace : char → bool) (comma newline : char).
Implicit Types (names row : list (list char)) (inds : list nat).
Implicit Types (data : dict (list char) (list (list char))).

(** The loop over the kept indices of one line. *)
Local Abbreviation read_fields names row :=
  (λ data (i : nat),
     key ← getitem names i;
     field ← getitem row i;
     Ok (append_field data key (strip isspace field))).

Lemma read_fields_Ok names row inds :
  (∀ i, i ∈ inds → (i < length names)%nat ∧ (i < length row)%nat) →
  ∀ data,
    for_each (read_fields names row) data inds
    = Ok (foldl (λ data kf, append_field data kf.1 (strip isspace kf.2)) data
            (zip (fields_at inds names) (fields_at inds row))).
Proof.
  induction inds as [|i inds IH]; intros Hin data; [done|].
  destruct (Hin i ltac:(left)) as [Hn Hr].
  destruct (lookup_lt_is_Some_2 names i Hn) as [key Hkey].
  destruct (lookup_lt_is_Some_2 row i Hr) as [field Hfield].
  cbn [for_each]. cbv beta.
  rewrite (proj2 (getitem_Ok names i key) Hkey). cbn [mbind res_bind].
  rewrite (proj2 (getitem_Ok row i field) Hfield). cbn [mbind res_bind].
  rewrite IH by (intros; apply Hin; by right).
  unfold fields_at. cbn [fmap list_fmap zip zip_with foldl fst snd].
  by rewrite (nth_lookup_Some _ _ [] _ Hkey), (nth_lookup_Some _ _ [] _ Hfield).
Qed.

Lemma read_fields_short names row inds i :
  (∀ i, i ∈ inds → (i < length names)%nat) →
  i ∈ inds → (length row ≤ i)%nat →
  ∀ data, for_each (read_fields names row) data inds = Raise IndexError.
Proof.
  induction inds as [|i0 inds IH]; intros Hin Hi Hlen data;
    [by apply elem_of_nil in Hi|].
  destruct (lookup_lt_is_Some_2 names i0 (Hin i0 ltac:(left))) as [key Hkey].
  cbn [for_each]. cbv beta.
  rewrite (proj2 (getitem_Ok names i0 key) Hkey). cbn [mbind res_bind].
  destruct (row !! i0) as [field|] eqn:Hfield.
  2:{ by rewrite (getitem_None row i0 Hfield). }
  rewrite (proj2 (getitem_Ok row i0 field) Hfield). cbn [mbind res_bind].
  apply IH; [intros; apply Hin; by right| |done].
  apply elem_of_cons in Hi as [->|Hi]; [|done].
  apply lookup_lt_Some in Hfield. lia.
Qed.

(** The first line of data creates the columns. *)
Lemma append_row_first (ks fs : list (list char)) :
  ∀ done_ks (done_cols : list (list (list char))),
  NoDup (done_ks ++ ks) → length done_cols = length done_ks →
  length fs = length ks →
  foldl (λ data kf, append_field data kf.1 (strip isspace kf.2))
    (zip done_ks done_cols) (zip ks fs)
  = zip (done_ks ++ ks) (done_cols ++ ((λ f, [strip isspace f]) <$> fs)).
Proof.
  revert fs. induction ks as [|k ks IH]; intros [|f fs] done_ks done_cols Hnd
    Hdone Hlen; simplify_eq/=.
  - by rewrite !app_nil_r.
  - unfold append_field. cbn [fst snd].
    assert (k ∉ (zip done_ks done_cols).*1) as Hnew.
    { rewrite fst_zip by lia. apply NoDup_app in Hnd as (_ & Hnd & _).
      intros Hk. apply (Hnd k Hk). by left. }
    rewrite (proj2 (dict_get_None _ _) Hnew), dict_set_new by done. simpl.
    replace (zip done_ks done_cols ++ [(k, [strip isspace f])])
      with (zip (done_ks ++ [k]) (done_cols ++ [[strip isspace f]]))
      by (by rewrite zip_with_app by done).
    rewrite IH.
    + by rewrite <-!(assoc_L (++)).
    + by rewrite <-(assoc_L (++)).
    + rewrite !length_app. simpl. lia.
    + done.
Qed.

(** Every further line of data extends them. *)
Lemma append_row_next (ks fs : list (list char)) :
  ∀ (cols : list (list (list char))) done_ks (done_cols : list (list (list char))),
  NoDup (done_ks ++ ks) → length done_cols = length done_ks →
  length fs = length ks → length cols = length ks →
  foldl (λ data kf, append_field data kf.1 (strip isspace kf.2))
    (zip (done_ks ++ ks) (done_cols ++ cols)) (zip ks fs)
  = zip (done_ks ++ ks)
      (done_cols ++ zip_with (λ col f, col ++ [strip isspace f]) cols fs).
Proof.
  revert fs. induction ks as [|k ks IH];
    intros [|f fs] [|col cols] done_ks done_cols Hnd Hdone Hlen Hcols;
    simplify_eq/=; [done|].
  unfold append_field. cbn [fst snd].
  assert (k ∉ (zip done_ks done_cols).*1) as Hnew.
  { rewrite fst_zip by lia. apply NoDup_app in Hnd as (_ & Hnd & _).
    intros Hk. apply (Hnd k Hk). by left. }
  rewrite zip_with_app by done.
  rewrite dict_get_app_r, dict_set_app_r by done. simpl.
  rewrite !decide_True by done. simpl.
  replace (zip done_ks done_cols
           ++ (k, col ++ [strip isspace f]) :: zip ks cols)
    with (zip ((done_ks ++ [k]) ++ ks)
            ((done_cols ++ [col ++ [strip isspace f]]) ++ cols)).
  2:{ rewrite <-!(assoc_L (++)). by rewrite zip_with_app by done. }
  rewrite IH.
  - by rewrite <-!(assoc_L (++)).
  - by rewrite <-(assoc_L (++)).
  - rewrite !length_app. simpl. lia.
  - done.
  - done.
Qed.

End read_lemmas.

Section read_theorems.
Context {char : Type} `{EqDecision char}.
Context (isspace : char → bool) (comma newline : char).
Implicit Types (names row : list (list char)) (inds : list nat).
Implicit Types (rows : list (list (list char))).

Lemma zip_with_fmap_diag {A B C D} (f : B → C → D) (g : A → B) (h : A → C)
    (l : list A) :
  zip_with f (g <$> l) (h <$> l) = (λ x, f (g x) (h x)) <$> l.
Proof. induction l as [|x l IH]; [done|]. csimpl. by rewrite IH. Qed.

Lemma read_line_row names inds exclude_cols row data :
  isspace newline = true → isspace comma = false → names ≠ [] →
  (∀ i, i ∈ inds → (i < length names)%nat) →
  length row = length names → Forall (clean isspace comma) row →
  read_line isspace comma exclude_cols (Some (names, inds), data)
    (encode comma newline row)
  = Ok (Some (names, inds),
        foldl (λ data kf, append_field data kf.1 (strip isspace kf.2)) data
          (zip (fields_at inds names) (fields_at inds row))).
Proof.
  intros Hnl Hcomma Hne Hinds Hlen Hclean. unfold read_line, encode.
  cbn [fst snd]. rewrite decode_line; [|done|done| |done].
  2:{ intros ->. by destruct names. }
  rewrite read_fields_Ok; [done|].
  intros i Hi. split; [by apply Hinds|]. rewrite Hlen. by apply Hinds.
Qed.

Lemma read_line_short names inds exclude_cols short data i :
  (∀ i, i ∈ inds → (i < length names)%nat) →
  i ∈ inds → (length (split comma (strip isspace short)) ≤ i)%nat →
  read_line isspace comma exclude_cols (Some (names, inds), data) short
  = Raise IndexError.
Proof.
  intros Hinds Hi Hshort. unfold read_line. cbn [fst snd].
  by rewrite (read_fields_short isspace names _ _ i Hinds Hi Hshort).
Qed.

Lemma read_rows names inds exclude_cols :
  isspace newline = true → isspace comma = false → names ≠ [] →
  (∀ i, i ∈ inds → (i < length names)%nat) →
  NoDup (fields_at inds names) →
  ∀ rows prev,
    Forall (λ row, length row = length names ∧
                   Forall (clean isspace comma) row) rows →
    for_each (read_line isspace comma exclude_cols)
      (Some (names, inds), table_of inds names prev)
      (encode comma newline <$> rows)
    = Ok (Some (names, inds), table_of inds names (prev ++ rows)).
Proof.
  intros Hnl Hcomma Hne Hinds Hnd.
  induction rows as [|row rows IH]; intros prev Hrows.
  - by rewrite app_nil_r.
  - apply Forall_cons in Hrows as [[Hlen Hclean] Hrows].
    cbn [fmap list_fmap for_each].
    rewrite read_line_row by done. cbn [mbind res_bind].
    assert (∀ i, i ∈ inds → strip isspace (nth i row []) = nth i row [])
      as Hstrip.
    { intros i Hi. apply strip_tidy.
      assert (i < length row)%nat as Hlt by (rewrite Hlen; by apply Hinds).
      destruct (lookup_lt_is_Some_2 row i Hlt) as [field Hfield].
      rewrite (nth_lookup_Some _ _ [] _ Hfield).
      rewrite Forall_forall in Hclean.
      by destruct (Hclean field (list_elem_of_lookup_2 _ _ _ Hfield)). }
    assert (foldl (λ data kf, append_field data kf.1 (strip isspace kf.2))
              (table_of inds names prev)
              (zip (fields_at inds names) (fields_at inds row))
            = table_of inds names (prev ++ [row])) as ->.
    { destruct prev as [|p prev].
      - cbn [table_of app].
        rewrite (append_row_first isspace _ _ [] [] Hnd eq_refl)
          by (unfold fields_at; by rewrite !length_fmap).
        cbn [app]. f_equal. unfold columns, fields_at.
        rewrite <-list_fmap_compose. apply list_fmap_ext.
        intros _ i Hi%list_elem_of_lookup_2. simpl. by rewrite Hstrip.
      - cbn [table_of app].
        pose proof (append_row_next isspace (fields_at inds names)
                      (fields_at inds row) (columns inds (p :: prev)) [] []
                      Hnd eq_refl) as Hnext.
        cbn [app] in Hnext. rewrite Hnext
          by (unfold fields_at, columns; by rewrite !length_fmap).
        f_equal. unfold columns, fields_at.
        rewrite zip_with_fmap_diag. apply list_fmap_ext.
        intros _ i Hi%list_elem_of_lookup_2.
        change (p :: prev ++ [row]) with ((p :: prev) ++ [row]).
        rewrite fmap_app. simpl. by rewrite Hstrip. }
    rewrite (IH (prev ++ [row]) Hrows). by rewrite <-(assoc_L (++)).
Qed.

Lemma read_header names exclude_cols :
  isspace newline = true → isspace comma = false → names ≠ [] →
  Forall (clean isspace comma) names →
  read_line isspace comma exclude_cols (None, []) (encode comma newline names)
  = Ok (Some (names, kept exclude_cols (length names)), []).
Proof.
  intros Hnl Hcomma Hne Hclean. unfold read_line, encode. cbn [fst snd].
  by rewrite decode_line.
Qed.

Lemma kept_inside exclude_cols n i : i ∈ kept exclude_cols n → (i < n)%nat.
Proof.
  unfold kept. intros [_ Hi%elem_of_seq]%list_elem_of_filter. lia.
Qed.

End read_theorems.

Lemma readData_table_aux {char} `{EqDecision char} (isspace : char → bool)
    (comma newline : char) names rows exclude_cols :
  isspace newline = true → isspace comma = false → names ≠ [] →
  Forall (clean isspace comma) names →
  Forall (λ row, length row = length names ∧
                 Forall (clean isspace comma) row) rows →
  NoDup (fields_at (kept exclude_cols (length names)) names) →
  readData isspace comma
    (encode comma newline names :: (encode comma newline <$> rows)) exclude_cols
  = Ok (table_of (kept exclude_cols (length names)) names rows).
Proof.
  intros Hnl Hcomma Hne Hnames Hrows Hnd. unfold readData. cbn [for_each].
  rewrite read_header by done. cbn [mbind res_bind].
  rewrite (read_rows isspace comma newline names _ exclude_cols Hnl Hcomma Hne
             (kept_inside exclude_cols (length names)) Hnd rows [] Hrows).
  done.
Qed.

(** X23.  [readData] on a file whose first line joins the names and whose other
    lines join as many fields each, all of them without a comma and without
    white space at their ends: if the kept names are distinct, the result
    has one column per kept name, in their order, holding the fields at that
    position line after line; a file without a line of data gives a table
    without any column. *)
Theorem readData_table {char} `{EqDecision char} (isspace : char → bool)
    (comma newline : char) names rows exclude_cols :
  isspace newline = true → isspace comma = false → names ≠ [] →
  Forall (clean isspace comma) names →
  Forall (λ row, length row = length names ∧
                 Forall (clean isspace comma) row) rows →
  NoDup (fields_at (kept exclude_cols (length names)) names) →
  readData isspace comma
    (encode comma newline names :: (encode comma newline <$> rows)) exclude_cols
  = Ok (table_of (kept exclude_cols (length names)) names rows).
Proof. apply readData_table_aux. Qed.

(** X24.  A line that has fewer fields than a kept index asks for makes [readData]
    raise [IndexError], wherever it comes after well-formed lines: an empty
    line in a file of two columns, for instance. *)
Theorem readData_short_line {char} `{EqDecision char} (isspace : char → bool)
    (comma newline : char) names rows exclude_cols short rest i :
  isspace newline = true → isspace comma = false → names ≠ [] →
  Forall (clean isspace comma) names →
  Forall (λ row, length row = length names ∧
                 Forall (clean isspace comma) row) rows →
  NoDup (fields_at (kept exclude_cols (length names)) names) →
  i ∈ kept exclude_cols (length names) →
  (length (split comma (strip isspace short)) ≤ i)%nat →
  readData isspace comma
    (encode comma newline names
     :: (encode comma newline <$> rows) ++ short :: rest) exclude_cols
  = Raise IndexError.
Proof.
  intros Hnl Hcomma Hne Hnames Hrows Hnd Hi Hshort. unfold readData.
  cbn [for_each]. rewrite read_header by done. cbn [mbind res_bind].
  rewrite for_each_app.
  rewrite (read_rows isspace comma newline names _ exclude_cols Hnl Hcomma Hne
             (kept_inside exclude_cols (length names)) Hnd rows [] Hrows).
  cbn [mbind res_bind for_each].
  by rewrite (read_line_short isspace comma names _ exclude_cols short _ i
                (kept_inside exclude_cols (length names)) Hi Hshort).
Qed.

Lemma filter_all {A} (P : A → Prop) `{∀ x, Decision (P x)} (l : list A) :
  (∀ x, x ∈ l → P x) → filter P l = l.
Proof.
  induction l as [|x l IH]; intros Hall; [done|].
  rewrite filter_cons_True by (apply Hall; by left).
  f_equal. apply IH. intros y Hy. apply Hall. by right.
Qed.

Lemma dict_get_zip {K V} `{EqDecision K} (ks : list K) : ∀ (vs : list V) i k,
  NoDup ks → ks !! i = Some k → length vs = length ks →
  dict_get (zip ks vs) k = vs !! i.
Proof.
  induction ks as [|k0 ks IH]; intros [|v vs] i k Hnd Hi Hlen; simplify_eq/=.
  apply NoDup_cons in Hnd as [Hout Hnd]. destruct i as [|i]; simplify_eq/=.
  - by rewrite decide_True.
  - rewrite decide_False; [by apply IH|]. intros ->. apply Hout.
    by eapply list_elem_of_lookup_2.
Qed.

Section write_lemmas.
Context {char : Type} `{EqDecision char} (comma newline : char).
Context {V : Type} (str : V → list char).
Implicit Types (data : dict (list char) (list V)) (log : list (list char)).

Lemma write_row_Ok default data log i :
  (∀ l, l ∈ log → ∃ col x, dict_get data l = Some col ∧ col !! i = Some x) →
  write_row comma newline str default data log i
  = Ok (table_row comma newline str data log i).
Proof.
  intros Hall. unfold write_row, table_row.
  rewrite (mapM_fmap_Ok _
             (λ l, from_option str [] (dict_get data l ≫= (.!! i)))); [done|].
  intros l Hl. destruct (Hall l Hl) as (col & x & Hcol & Hx).
  unfold column. rewrite Hcol. cbn [mbind res_bind option_bind].
  by rewrite (proj2 (getitem_Ok col i x) Hx), Hx.
Qed.

Lemma write_row_IndexError default data log i l col :
  (∀ l, l ∈ log → is_Some (dict_get data l)) →
  l ∈ log → dict_get data l = Some col → (length col ≤ i)%nat →
  write_row comma newline str default data log i = Raise IndexError.
Proof.
  intros Hall Hl Hcol Hlen. unfold write_row.
  rewrite (mapM_raise _ IndexError); [done| |].
  - intros l' Hl'. destruct (Hall l' Hl') as [col' Hcol'].
    unfold column. rewrite Hcol'. cbn [mbind res_bind]. unfold getitem.
    destruct (col' !! i); [by left|by right].
  - exists l. split; [done|]. unfold column. rewrite Hcol.
    cbn [mbind res_bind].
    by rewrite (getitem_None col i (proj2 (lookup_ge_None col i) Hlen)).
Qed.

Lemma write_rows_Ok default data log (rows : list nat) :
  (∀ i, i ∈ rows →
     write_row comma newline str default data log i
     = Ok (table_row comma newline str data log i)) →
  write_rows comma newline str default data log rows
  = (table_row comma newline str data log <$> rows, Ok ()).
Proof.
  induction rows as [|i rows IH]; intros Hall; [done|].
  cbn [write_rows]. rewrite (Hall i) by (by left).
  rewrite IH by (intros; apply Hall; by right). done.
Qed.

Lemma write_rows_raise default data log (good : list nat) bad rest e :
  (∀ i, i ∈ good →
     write_row comma newline str default data log i
     = Ok (table_row comma newline str data log i)) →
  write_row comma newline str default data log bad = Raise e →
  write_rows comma newline str default data log (good ++ bad :: rest)
  = (table_row comma newline str data log <$> good, Raise e).
Proof.
  induction good as [|i good IH]; intros Hall Hbad.
  - cbn [app write_rows]. by rewrite Hbad.
  - cbn [app write_rows]. rewrite (Hall i) by (by left).
    rewrite IH by (done || intros; apply Hall; by right). done.
Qed.

Lemma writeCSV_Ok default data log l0 col0 :
  head log = Some l0 → dict_get data l0 = Some col0 →
  (∀ l, l ∈ log → ∃ col, dict_get data l = Some col ∧
                         (length col0 ≤ length col)%nat) →
  writeCSV comma newline str default data log
  = (encode comma newline log
     :: (table_row comma newline str data log <$> seq 0 (length col0)),
     Ok ()).
Proof.
  intros Hl0 Hcol0 Hall. unfold writeCSV, getitem_first, column.
  rewrite Hl0. cbn [mbind res_bind]. rewrite Hcol0.
  rewrite write_rows_Ok; [done|]. intros i Hi%elem_of_seq.
  apply write_row_Ok. intros l Hl. destruct (Hall l Hl) as (col & Hcol & Hlen).
  destruct (lookup_lt_is_Some_2 col i) as [x Hx]; [lia|]. eauto.
Qed.

End write_lemmas.

(** X25.  [writeCSV] on a table that has every logged column, none of them
    shorter than the first: the header and one line per entry of the first
    logged column are written, each line joining what the logged columns hold
    in that row, and the call returns.  What a column holds beyond the length
    of the first one is not written. *)
Theorem writeCSV_returns {char} `{EqDecision char} (comma newline : char)
    {V} (str : V → list char) default (data : dict (list char) (list V))
    log_structure l0 col0 :
  head log_structure = Some l0 → dict_get data l0 = Some col0 →
  (∀ l, l ∈ log_structure →
     ∃ col, dict_get data l = Some col ∧ (length col0 ≤ length col)%nat) →
  writeCSV comma newline str default data log_structure
  = (encode comma newline log_structure
     :: (table_row comma newline str data log_structure
           <$> seq 0 (length col0)),
     Ok ()).
Proof. apply writeCSV_Ok. Qed.

(** X26.  A logged column with [k] entries, fewer than the first logged column
    has, makes [writeCSV] raise [IndexError] after it has written the header
    and the first [k] rows, when no logged column is shorter than that: the
    file is left with a part of the table. *)
Theorem writeCSV_short_column {char} `{EqDecision char} (comma newline : char)
    {V} (str : V → list char) default (data : dict (list char) (list V))
    log_structure l0 col0 l col :
  head log_structure = Some l0 → dict_get data l0 = Some col0 →
  (∀ l', l' ∈ log_structure →
     ∃ col', dict_get data l' = Some col' ∧ (length col ≤ length col')%nat) →
  l ∈ log_structure → dict_get data l = Some col →
  (length col < length col0)%nat →
  writeCSV comma newline str default data log_structure
  = (encode comma newline log_structure
     :: (table_row comma newline str data log_structure
           <$> seq 0 (length col)),
     Raise IndexError).
Proof.
  intros Hl0 Hcol0 Hall Hl Hcol Hlt. unfold writeCSV, getitem_first, column.
  rewrite Hl0. cbn [mbind res_bind]. rewrite Hcol0.
  replace (length col0) with (length col + S (length col0 - S (length col)))%nat
    by lia.
  rewrite seq_app. cbn [seq plus].
  rewrite (write_rows_raise comma newline str default data log_structure
             _ _ _ IndexError); [done| |].
  - intros i Hi%elem_of_seq. apply write_row_Ok. intros l' Hl'.
    destruct (Hall l' Hl') as (col' & Hcol' & Hlen).
    destruct (lookup_lt_is_Some_2 col' i) as [x Hx]; [lia|]. eauto.
  - apply (write_row_IndexError comma newline str default data log_structure
             _ l col); [|done..]. intros l' Hl'.
    destruct (Hall l' Hl') as (col' & -> & _). by eexists.
Qed.

(** X27.  Without its first logged column: a plain dict makes [writeCSV] raise
    [KeyError] after the header is written; a [defaultdict(list)] makes it
    return after the header, whatever the other columns hold.  An empty
    [log_structure] gives an empty header line and [IndexError]. *)
Theorem writeCSV_missing_first {char} `{EqDecision char} (comma newline : char)
    {V} (str : V → list char) (data : dict (list char) (list V))
    log_structure l0 :
  head log_structure = Some l0 → dict_get data l0 = None →
  writeCSV comma newline str false data log_structure
  = ([encode comma newline log_structure], Raise KeyError) ∧
  writeCSV comma newline str true data log_structure
  = ([encode comma newline log_structure], Ok ()) ∧
  ∀ default, writeCSV comma newline str default data []
             = ([[newline]], Raise IndexError).
Proof.
  intros Hl0 Hnone. unfold writeCSV, getitem_first, column. rewrite Hl0.
  cbn [mbind res_bind]. by rewrite Hnone.
Qed.

(** X28.  Reading and writing undo each other on well-formed text.  For distinct
    names and rows of as many fields, all without a comma and without white
    space at their ends: [readData] turns the lines into a table, and
    [writeCSV], with the names as [log_structure], turns that table back into
    the same lines (on the [defaultdict] that [readData] returns, also when
    there is no line of data; on a plain dict when there is one). *)
Theorem csv_round_trip {char} `{EqDecision char} (isspace : char → bool)
    (comma newline : char) names rows :
  isspace newline = true → isspace comma = false → names ≠ [] →
  NoDup names → Forall (clean isspace comma) names →
  Forall (λ row, length row = length names ∧
                 Forall (clean isspace comma) row) rows →
  ∃ data,
    readData isspace comma
      (encode comma newline names :: (encode comma newline <$> rows)) []
    = Ok data ∧
    writeCSV comma newline id true data names
    = (encode comma newline names :: (encode comma newline <$> rows), Ok ()) ∧
    (rows ≠ [] →
     data = zip names (columns (seq 0 (length names)) rows) ∧
     writeCSV comma newline id false data names
     = (encode comma newline names :: (encode comma newline <$> rows), Ok ())).
Proof.
  intros Hnl Hcomma Hne Hnd Hnames Hrows.
  assert (kept [] (length names) = seq 0 (length names)) as Hkept.
  { unfold kept. apply filter_all. intros i _. apply not_elem_of_nil. }
  assert (fields_at (seq 0 (length names)) names = names) as Hsel
    by apply nth_seq_fmap.
  exists (table_of (seq 0 (length names)) names rows).
  split.
  { rewrite <-Hkept. apply (readData_table_aux isspace comma newline);
      try done. by rewrite Hkept, Hsel. }
  destruct names as [|l0 names'] eqn:Hnames'; [done|]. rewrite <-Hnames' in *.
  assert (head names = Some l0) as Hl0 by (by rewrite Hnames').
  destruct rows as [|row0 rows'] eqn:Hrows'.
  { split; [|done]. cbn [table_of fmap list_fmap].
    unfold writeCSV, getitem_first, column. rewrite Hl0. done. }
  rewrite <-Hrows' in *.
  assert (table_of (seq 0 (length names)) names rows
          = zip names (columns (seq 0 (length names)) rows)) as ->.
  { rewrite Hrows'. cbn [table_of]. by rewrite Hsel. }
  set (cols := columns (seq 0 (length names)) rows).
  assert (length cols = length names) as Hcols.
  { unfold cols, columns. by rewrite length_fmap, length_seq. }
  assert (∀ i l, names !! i = Some l →
            dict_get (zip names cols) l
            = Some ((λ row, nth i row []) <$> rows)) as Hget.
  { intros i l Hi. rewrite (dict_get_zip names cols i l Hnd Hi Hcols).
    unfold cols, columns. rewrite list_lookup_fmap.
    by rewrite lookup_seq_lt by (by eapply lookup_lt_Some). }
  assert (∀ default,
            writeCSV comma newline id default (zip names cols) names
            = (encode comma newline names :: (encode comma newline <$> rows),
               Ok ())) as Hwrite.
  { intros default.
    rewrite (writeCSV_Ok comma newline id default (zip names cols) names l0
               ((λ row, nth 0 row []) <$> rows) Hl0).
    - f_equal. f_equal. rewrite length_fmap.
      apply list_eq. intros j. rewrite !list_lookup_fmap.
      destruct (rows !! j) as [row|] eqn:Hj.
      + rewrite lookup_seq_lt by (by eapply lookup_lt_Some). simpl.
        f_equal. unfold table_row, encode. do 2 f_equal.
        rewrite Forall_forall in Hrows.
        destruct (Hrows row (list_elem_of_lookup_2 _ _ _ Hj)) as [Hlen _].
        apply list_eq. intros i. rewrite list_lookup_fmap.
        destruct (names !! i) as [l|] eqn:Hi; simpl.
        * rewrite (Hget i l Hi). simpl. rewrite list_lookup_fmap, Hj. simpl.
          destruct (lookup_lt_is_Some_2 row i) as [x Hx].
          { rewrite Hlen. by eapply lookup_lt_Some. }
          by rewrite Hx, (nth_lookup_Some _ _ [] _ Hx).
        * symmetry. apply lookup_ge_None. rewrite Hlen.
          by apply lookup_ge_None.
      + rewrite lookup_seq_ge by (by apply lookup_ge_None). done.
    - apply (Hget 0%nat). by rewrite Hnames'.
    - intros l Hl. apply list_elem_of_lookup_1 in Hl as [i Hi].
      rewrite (Hget i l Hi). eexists. split; [done|]. by rewrite !length_fmap. }
  split; [apply Hwrite|]. intros _. split; [done|apply Hwrite].
Qed.

(** * Concrete files *)

Section csv_concrete.

Local Ltac decided := apply (bool_decide_unpack _); by vm_compute.

Local Ltac cleaned :=
  repeat first
    [ apply Forall_nil_2
    | apply Forall_cons_2
    | split
    | progress (unfold clean, tidy)
    | by (intros ? [= <-])
    | decided ].

Lemma csv_names_clean : Forall (clean ascii_isspace ascii_comma) csv_names.
Proof. cleaned. Qed.

Lemma csv_rows_clean :
  Forall (λ row, length row = length csv_names ∧
                 Forall (clean ascii_isspace ascii_comma) row) csv_rows.
Proof. cleaned. Qed.

(** The file read without its second column. *)
Lemma readData_table_witness :
  readData ascii_isspace ascii_comma
    (encode ascii_comma ascii_newline csv_names
     :: (encode ascii_comma ascii_newline <$> csv_rows)) [1%nat]
  = Ok [(text "a", [text "x"; text "y"])].
Proof.
  apply (readData_table ascii_isspace ascii_comma ascii_newline csv_names
           csv_rows [1%nat] eq_refl eq_refl);
    [done|exact csv_names_clean|exact csv_rows_clean|decided].
Defined.

(** The file followed by an empty line. *)
Lemma readData_short_line_witness :
  readData ascii_isspace ascii_comma
    (encode ascii_comma ascii_newline csv_names
     :: (encode ascii_comma ascii_newline <$> csv_rows)
        ++ [ascii_newline] :: []) []
  = Raise IndexError.
Proof.
  apply (readData_short_line ascii_isspace ascii_comma ascii_newline csv_names
           csv_rows [] [ascii_newline] [] 1 eq_refl eq_refl);
    [done|exact csv_names_clean|exact csv_rows_clean|decided|decided
    |by vm_compute].
Defined.

(** The table written with both columns logged. *)
Lemma writeCSV_returns_witness :
  writeCSV ascii_comma ascii_newline id false csv_table csv_names
  = ([text "a,b" ++ [ascii_newline]; text "x,1" ++ [ascii_newline];
      text "y,2" ++ [ascii_newline]], Ok ()).
Proof.
  apply (writeCSV_returns ascii_comma ascii_newline id false csv_table
           csv_names (text "a") [text "x"; text "y"] eq_refl
           ltac:(by vm_compute)).
  intros l [->|[->|[]%elem_of_nil]%elem_of_cons]%elem_of_cons.
  - exists [text "x"; text "y"]. split; [by vm_compute|done].
  - exists [text "1"; text "2"]. split; [by vm_compute|done].
Defined.

(** The table whose second column has one entry: one row is written. *)
Lemma writeCSV_short_column_witness :
  writeCSV ascii_comma ascii_newline id false csv_ragged csv_names
  = ([text "a,b" ++ [ascii_newline]; text "x,1" ++ [ascii_newline]],
     Raise IndexError).
Proof.
  apply (writeCSV_short_column ascii_comma ascii_newline id false csv_ragged
           csv_names (text "a") [text "x"; text "y"] (text "b") [text "1"]
           eq_refl ltac:(by vm_compute));
    [|right; by left|by vm_compute|simpl; lia].
  intros l [->|[->|[]%elem_of_nil]%elem_of_cons]%elem_of_cons.
  - exists [text "x"; text "y"]. split; [by vm_compute|simpl; lia].
  - exists [text "1"]. split; [by vm_compute|done].
Defined.

(** The table has no column ["c"]. *)
Lemma writeCSV_missing_first_witness :
  writeCSV ascii_comma ascii_newline id false csv_table [text "c"; text "a"]
  = ([text "c,a" ++ [ascii_newline]], Raise KeyError) ∧
  writeCSV ascii_comma ascii_newline id true csv_table [text "c"; text "a"]
  = ([text "c,a" ++ [ascii_newline]], Ok ()).
Proof.
  destruct (writeCSV_missing_first ascii_comma ascii_newline id csv_table
              [text "c"; text "a"] (text "c") eq_refl ltac:(by vm_compute))
    as (Hplain & Hdefault & _).
  split; [exact Hplain|exact Hdefault].
Defined.

(** The file of two lines of data read and written back. *)
Lemma csv_round_trip_witness :
  ∃ data,
    readData ascii_isspace ascii_comma
      (encode ascii_comma ascii_newline csv_names
       :: (encode ascii_comma ascii_newline <$> csv_rows)) [] = Ok data ∧
    writeCSV ascii_comma ascii_newline id true data csv_names
    = (encode ascii_comma ascii_newline csv_names
       :: (encode ascii_comma ascii_newline <$> csv_rows), Ok ()).
Proof.
  destruct (csv_round_trip ascii_isspace ascii_comma ascii_newline csv_names
              csv_rows eq_refl eq_refl ltac:(done) ltac:(decided)
              csv_names_clean csv_rows_clean) as (data & Hread & Hwrite & _).
  by exists data.
Defined.

End csv_concrete.

(** * The loop over the groups followed by flattenDict *)

Lemma mapM_Ok_Forall2 {A B} (f : A → res B) : ∀ l vs,
  mapM f l = Ok vs → Forall2 (λ x v, f x = Ok v) l vs.
Proof.
  induction l as [|a l IH]; intros vs Hm.
  - injection Hm as <-. constructor.
  - apply mapM_cons_Ok in Hm as (v & vs' & Hv & Hvs & ->).
    constructor; [done|by apply IH].
Qed.

Lemma gathered_cons {K V} (k : K) (g : dict string (list V))
    (ds : dict K (dict string (list V))) l :
  gathered ((k, g) :: ds) l = from_option id [] (dict_get g l) ++ gathered ds l.
Proof.
  unfold gathered. cbn [omap list_omap snd].
  by destruct (dict_get g l).
Qed.

Lemma gathered_length {K V} (ds : dict K (dict string (list V))) l1 l2 :
  Forall (λ group, length (from_option id [] (dict_get group.2 l1))
                   = length (from_option id [] (dict_get group.2 l2))) ds →
  length (gathered ds l1) = length (gathered ds l2).
Proof.
  induction ds as [|[k g] ds IH]; intros Hall; [done|].
  apply Forall_cons in Hall as [Hg Hall].
  rewrite !gathered_cons, !length_app. simpl in Hg. rewrite Hg, IH; done.
Qed.

(** X30.  The loop over the groups and [flattenDict] together, for a table
    whose groups have no other column than the four of the script.  If the
    loop completes, [flattenDict] returns, without [IndexError]: in every group
    the four columns have one length after the pass, so that no column is too
    short for the order; and each of the four columns of the result holds the
    entries of that column of all groups. *)
Theorem resample_then_flatten {L : NumLib} (le : relation cell)
    `{!RelDecision le} fuel (args : arguments)
    (data_split resampled : dict cell (dict string (list cell))) :
  Forall (λ group, NoDup group.2.*1 ∧
                   group.2.*1 ⊆ ["source_id"; "datetime"; "property_name";
                                 "temperature"]) data_split →
  resample_groups fuel args data_split = Ok resampled →
  resampled.*1 = data_split.*1 ∧
  ∃ out, flattenDict le resampled "property_name" "datetime" = Ok out ∧
    ∀ k col, dict_get out k = Some col → col ≡ₚ gathered resampled k.
Proof.
  intros Hgroups Hrun. apply mapM_Ok_Forall2 in Hrun.
  (* every resampled group has the four columns, all of one length *)
  assert (Forall (λ group : cell * dict string (list cell),
            NoDup group.2.*1 ∧
            group.2.*1 ⊆ ["source_id"; "datetime"; "property_name"; "temperature"] ∧
            ∃ n, ∀ k, k ∈ ["source_id"; "datetime"; "property_name"; "temperature"] →
                 ∃ col, dict_get group.2 k = Some col ∧ length col = n)
            resampled ∧ resampled.*1 = data_split.*1) as [Hres Hkeys].
  { clear -Hgroups Hrun. induction Hrun as [|[k d] [k' d'] ds ds' Hstep Hrun IH].
    - split; [constructor|done].
    - apply Forall_cons in Hgroups as [[Hnd Hsub] Hgroups].
      destruct (IH Hgroups) as [Hall Heq]. simpl in Hstep.
      apply bind_Ok in Hstep as (d0 & Hd0 & [= <- <-]).
      destruct (process_group_Ok _ _ _ _ Hd0)
        as (xs & g & gy & src & name & _ & _ & _ & Hx & Hy & Hlen & Hp
            & (tags & Ht & Htl & _) & Hk & _).
      split; [|by rewrite !fmap_cons, Heq].
      constructor; [|done]. simpl. rewrite Hk. split_and!; [done..|].
      exists (length g). intros key Hkey.
      repeat (apply elem_of_cons in Hkey as [->|Hkey]);
        [exists tags|eexists|eexists|eexists|by apply elem_of_nil in Hkey];
        (split; [done|]); by rewrite ?length_fmap, ?length_replicate. }
  split; [done|].
  assert ("datetime" ∈ ["source_id"; "datetime"; "property_name"; "temperature"])
    as Hd by (right; by left).
  assert ("property_name"
          ∈ ["source_id"; "datetime"; "property_name"; "temperature"])
    as Hp by (do 2 right; by left).
  assert (∀ k1 k2,
            k1 ∈ ["source_id"; "datetime"; "property_name"; "temperature"] →
            k2 ∈ ["source_id"; "datetime"; "property_name"; "temperature"] →
            length (gathered resampled k1) = length (gathered resampled k2))
    as Hsame.
  { intros k1 k2 Hk1 Hk2. apply gathered_length.
    eapply Forall_impl; [exact Hres|]. intros group (_ & _ & n & Hn).
    destruct (Hn k1 Hk1) as (c1 & E1 & L1).
    destruct (Hn k2 Hk2) as (c2 & E2 & L2).
    rewrite E1, E2. simpl. congruence. }
  assert (∀ k, Exists (λ group : cell * dict string (list cell),
                         is_Some (dict_get group.2 k)) resampled →
               k ∈ ["source_id"; "datetime"; "property_name"; "temperature"])
    as Hfour.
  { intros k (group & Hgroup & [col Hcol])%Exists_exists.
    rewrite Forall_forall in Hres. destruct (Hres group Hgroup) as (_ & Hsub & _).
    apply Hsub. apply dict_get_Some in Hcol.
    apply list_elem_of_fmap. by exists (k, col). }
  destruct (flattenDict_total le resampled "property_name" "datetime")
    as (out & Hout & Hperm).
  - eapply Forall_impl; [exact Hres|]. by intros group (? & _).
  - intros k Hk%Hfour.
    rewrite (Hsame k "datetime"), (Hsame "property_name" "datetime");
      [lia|done..].
  - exists out. split; [done|]. intros k col Hk.
    assert (k ∈ ["source_id"; "datetime"; "property_name"; "temperature"])
      as Hin.
    { destruct (flattenDict_unfold le resampled "property_name" "datetime")
        as (data & Heq & _ & Hsome & _).
      - eapply Forall_impl; [exact Hres|]. by intros group (? & _).
      - rewrite Heq in Hout. pose proof (reorder_table _ _ _ Hout k) as Htable.
        destruct (dict_get data k) as [c|] eqn:Hdk; [|congruence].
        destruct (proj1 (Hsome k) ltac:(by eexists)) as [-> |[-> |Hex]];
          [done|done|by apply Hfour]. }
    apply (Hperm k col Hk); by apply Hsame.
Qed.

(** * The sample group through the loop and [flattenDict] *)

Section resample_concrete.
Import SpecLib.
Local Existing Instance lib.

(** The table with the sample group as its one group. *)
Lemma resample_then_flatten_witness :
  resample_groups 20 sample_arguments [(Str "heating_temperature", sample_group)]
  = Ok [(Str "heating_temperature", sample_resampled)] ∧
  ∃ out, flattenDict cell_le [(Str "heating_temperature", sample_resampled)]
           "property_name" "datetime" = Ok out.
Proof.
  assert (resample_groups 20 sample_arguments
            [(Str "heating_temperature", sample_group)]
          = Ok [(Str "heating_temperature", sample_resampled)]) as Hrun
    by reflexivity.
  split; [exact Hrun|].
  assert (Forall (λ group : cell * dict string (list cell),
            NoDup group.2.*1 ∧
            group.2.*1 ⊆ ["source_id"; "datetime"; "property_name"; "temperature"])
            [(Str "heating_temperature", sample_group)]) as Hgroups.
  { apply Forall_cons_2; [|apply Forall_nil_2].
    split; apply (bool_decide_unpack _); reflexivity. }
  destruct (resample_then_flatten (L:=lib) cell_le 20 sample_arguments
              [(Str "heating_temperature", sample_group)]
              [(Str "heating_temperature", sample_resampled)] Hgroups Hrun)
    as (_ & out & Hout & _).
  by exists out.
Defined.

End resample_concrete.
